(** * BenchMark: run coordination, result aggregation, scoring and history

    A shallow embedding of the React component of [src/oldApp.jsx] (the
    variant with the editable site list, persistence and the DNS probe) and
    of its sibling [src/App.jsx].

    Conventions of the embedding.
    - A JavaScript string is the list of its UTF-16 code units.
    - The metrics of a measurement are JavaScript numbers, that is binary64
      values; a finite one is the rational ([Q]) it denotes.  A product, a
      sum or a difference of metrics is the binary64 operation: the exact
      result rounded to the nearest double, a tie going to the even one
      ([Binary64.round]).  The non-finite values ([NaN], [Infinity]) and
      the overflow beyond the largest double are left out.  The sum of
      the integer scores of [averageScore] and its quotient by their
      number are taken exactly: the binary64 operations give the same
      for the sizes a run has ([averageScore_binary64_agrees]).
      [Math.round] returns an integer ([Z]).
    - Run identifiers ([Date.now()]) and indices are integers ([Z]).
    - The component state of React ([useState], [useRef]) is a record that
      every handler receives and returns; a handler also returns the list
      of calls it makes to the outside ([alert], [window.open], the launch
      of the DNS probe, the append to the history).
    - A handler always reads the committed state: the state updater given
      to [setResults] runs once, with the run id and computer name of the
      render that registered the listener. *)

From Stdlib Require Import String Ascii.
From Stdlib Require DecimalString.
From Stdlib Require Import NArith ZArith QArith Qround Qpower Lia Lqa Bool List Permutation.
Import ListNotations.

Open Scope Z_scope.

(** ** JavaScript strings and the runtime functions the component calls *)

Module JS.

Definition jsstring := list N.

(** A string literal of ASCII characters. *)
Definition lit (s : string) : jsstring :=
  List.map N_of_ascii (list_ascii_of_string s).

Definition jsstring_eqb (a b : jsstring) : bool :=
  if list_eq_dec N.eq_dec a b then true else false.

(** WhiteSpace and LineTerminator code points of ECMAScript, the ones
    [String.prototype.trim] strips. *)
Definition is_whitespace (c : N) : bool :=
  ((c =? 9) || (c =? 10) || (c =? 11) || (c =? 12) || (c =? 13)
   || (c =? 32) || (c =? 160) || (c =? 5760)
   || ((8192 <=? c) && (c <=? 8202))
   || (c =? 8232) || (c =? 8233) || (c =? 8239) || (c =? 8287)
   || (c =? 12288) || (c =? 65279))%N.

Fixpoint trimStart (s : jsstring) : jsstring :=
  match s with
  | [] => []
  | c :: r => if is_whitespace c then trimStart r else s
  end.

Definition trimEnd (s : jsstring) : jsstring := rev (trimStart (rev s)).

(** [s.trim()] *)
Definition trim (s : jsstring) : jsstring := trimEnd (trimStart s).

(** Truthiness of a string: the empty string is the only falsy one. *)
Definition truthy (s : jsstring) : bool :=
  match s with [] => false | _ :: _ => true end.

(** [s.split("\n")] *)
Fixpoint split_newline (s : jsstring) : list jsstring :=
  match s with
  | [] => [[]]
  | c :: r =>
      if (c =? 10)%N then [] :: split_newline r
      else match split_newline r with
           | l :: ls => (c :: l) :: ls
           | [] => [[c]]
           end
  end.

(** [parts.join("\n")] *)
Fixpoint join_newline (parts : list jsstring) : jsstring :=
  match parts with
  | [] => []
  | [p] => p
  | p :: ps => p ++ 10%N :: join_newline ps
  end.

(** [Math.round(x)]: the integer nearest to [x], a tie going up. *)
Definition Math_round (x : Q) : Z := Qfloor (x + (1 # 2)).

(** [x > y] on numbers. *)
Definition gt (x y : Q) : bool := negb (Qle_bool x y).

End JS.

Import JS.

(** ** Binary64 arithmetic *)

Module Binary64.

Local Open Scope Q_scope.

Definition pow2 (z : Z) : Q := 2 ^ z.

(** The integer part of the binary logarithm of a positive rational. *)
Definition ilog2 (x : Q) : Z :=
  let e := (Z.log2 (Qnum x) - Z.log2 (Z.pos (Qden x)))%Z in
  if Qle_bool (pow2 e) x then e else (e - 1)%Z.

(** The exponent of the binade of a positive rational; the subnormal
    numbers share the exponent -1022. *)
Definition exponent (x : Q) : Z := Z.max (ilog2 x) (-1022).

(** The distance between two neighbouring doubles of that binade: the
    significand has 53 bits. *)
Definition ulp (x : Q) : Q := pow2 (exponent x - 52).

(** The nearest integer, the even one at a tie. *)
Definition nearest_even (t : Q) : Z :=
  let f := Qfloor t in
  match Qcompare (t - inject_Z f) (1 # 2) with
  | Lt => f
  | Gt => (f + 1)%Z
  | Eq => if Z.even f then f else (f + 1)%Z
  end.

Definition round_pos (x : Q) : Q :=
  inject_Z (nearest_even (x / ulp x)) * ulp x.

(** The double nearest to [x] (roundTiesToEven). *)
Definition round (x : Q) : Q :=
  if Qle_bool 0 x then round_pos x else - round_pos (- x).

(** [x] is a double. *)
Definition representable (x : Q) : Prop := round x == x.

(** A decimal literal of the source text denotes the nearest double. *)
Definition literal (x : Q) : Q := round x.

Definition add (x y : Q) : Q := round (x + y).
Definition sub (x y : Q) : Q := round (x - y).
Definition mul (x y : Q) : Q := round (x * y).
Definition div (x y : Q) : Q := round (x / y).

End Binary64.

(** ** Messages and scoring *)

(** The payload of a [message] event as the worker page posts it. *)
Record Data := mkData {
  type_ : jsstring;
  runId_ : Z;
  index : Z;
  site : jsstring;
  loadTime : Q;
  cpuTime : Q;
  networkLatency : Q;
  memoryUsage : Q
}.

Definition benchmarkResult : jsstring := lit "benchmarkResult".

(** [const raw = 1000 - (0.4 * loadTime + 0.3 * cpuTime
    + 0.2 * networkLatency + 0.1 * memoryUsage)] of [scoreOne]: the four
    products, the three sums from left to right and the difference are
    binary64 operations. *)
Definition rawScore (d : Data) : Q :=
  Binary64.sub 1000
    (Binary64.add
       (Binary64.add
          (Binary64.add
             (Binary64.mul (Binary64.literal 0.4) (loadTime d))
             (Binary64.mul (Binary64.literal 0.3) (cpuTime d)))
          (Binary64.mul (Binary64.literal 0.2) (networkLatency d)))
       (Binary64.mul (Binary64.literal 0.1) (memoryUsage d))).

(** [scoreOne({ loadTime, cpuTime, networkLatency, memoryUsage })];
    [Math.round] and [Math.max] are exact. *)
Definition scoreOne (d : Data) : Z :=
  let raw := rawScore d in
  Z.max 0 (Math_round raw).

(** [averageScore(items)]; [reduce] is a left fold from 0. *)
Definition averageScore (items : list Data) : Z :=
  if (length items =? 0)%nat then 0
  else
    let sum := fold_left (fun acc it => acc + scoreOne it) items 0 in
    Math_round (inject_Z sum / inject_Z (Z.of_nat (length items)))%Q.

(** ** Component state *)

(** [new Date(ms).toLocaleString()]: the text depends on the locale of the
    browser; the record keeps the instant it renders. *)
Inductive LocaleString := toLocaleString (ms : Z).

Record RunRecord := mkRunRecord {
  id : Z;
  at_ : LocaleString;
  computer : jsstring;
  finalScore : Z;
  rec_results : list Data
}.

Inductive Resolver := Cloudflare | Google.

Record DnsProbe := mkDnsProbe {
  cloudflareMs : Z;
  googleMs : Z;
  recommended : Resolver
}.

Record State := mkState {
  computerName : jsstring;
  started : bool;
  results : list Data;            (* current run's site results *)
  history : list RunRecord;       (* last 5 runs (persisted) *)
  runId : option Z;               (* current run id, [null] before a run *)
  expectedCount : nat;            (* [expectedCountRef.current] *)
  dnsProbe : option DnsProbe;
  siteText : jsstring
}.

(** What a handler does besides updating the state. *)
Inductive Effect :=
| Alert (message : string)
| WindowOpen (site : jsstring) (runId : Z) (index : nat)
| HistoryAppend (runRecord : RunRecord)
| RunDnsProbe.

Definition defaultSites : list jsstring :=
  List.map lit
    ["https://example.com"; "https://wikipedia.org"; "https://github.com";
     "https://nytimes.com"; "https://openai.com"; "https://cnn.com";
     "https://bbc.com"; "https://mozilla.org"; "https://reddit.com";
     "https://stackoverflow.com"]%string.

Definition initialState : State :=
  {| computerName := []; started := false; results := []; history := [];
     runId := None; expectedCount := 0%nat; dnsProbe := None;
     siteText := join_newline defaultSites |}.

(** [siteText.split("\n").map((s) => s.trim()).filter(Boolean)] *)
Definition sites (s : State) : list jsstring :=
  filter truthy (List.map trim (split_newline (siteText s))).

(** [expectations.loadTimeMs] *)
Definition loadTimeMs : Q := 1000.

(** ** The message listener *)

(** [arr.sort((a, b) => a.index - b.index)]: the sort of ECMAScript is
    stable, so is this insertion sort. *)
Fixpoint insert_by_index (x : Data) (l : list Data) : list Data :=
  match l with
  | [] => [x]
  | y :: r =>
      if index x <=? index y then x :: y :: r else y :: insert_by_index x r
  end.

Fixpoint sort_by_index (l : list Data) : list Data :=
  match l with
  | [] => []
  | x :: r => insert_by_index x (sort_by_index r)
  end.

(** [[runRecord, ...old].slice(0, 5)] *)
Definition prepend_capped (runRecord : RunRecord) (old : list RunRecord)
  : list RunRecord :=
  firstn 5 (runRecord :: old).

(** [onMessage(event)] of [oldApp.jsx], with [data = event.data]; a falsy
    [event.data] is [None].  The array [next] is sorted in place when the
    run record is built, so the array returned to React is the sorted one. *)
Definition onMessage (s : State) (data : option Data) : State * list Effect :=
  match data with
  | None => (s, [])
  | Some d =>
      if negb (jsstring_eqb (type_ d) benchmarkResult) then (s, [])
      else
        match runId s with
        | None => (s, [])
        | Some rid =>
            if negb (runId_ d =? rid) then (s, [])
            else
              let prev := results s in
              if existsb (fun p => index p =? index d) prev then (s, [])
              else
                let next := prev ++ [d] in
                if (length next =? expectedCount s)%nat then
                  let finalScore := averageScore next in
                  let sorted := sort_by_index next in
                  let runRecord :=
                    {| id := rid; at_ := toLocaleString rid;
                       computer := computerName s;
                       finalScore := finalScore;
                       rec_results := sorted |} in
                  let hist := prepend_capped runRecord (history s) in
                  let anySlow :=
                    existsb (fun r => gt (loadTime r) loadTimeMs) sorted in
                  if anySlow then
                    ({| computerName := computerName s; started := started s;
                        results := sorted; history := hist;
                        runId := runId s; expectedCount := expectedCount s;
                        dnsProbe := dnsProbe s; siteText := siteText s |},
                     [HistoryAppend runRecord; RunDnsProbe])
                  else
                    ({| computerName := computerName s; started := started s;
                        results := sorted; history := hist;
                        runId := runId s; expectedCount := expectedCount s;
                        dnsProbe := None; siteText := siteText s |},
                     [HistoryAppend runRecord])
                else
                  ({| computerName := computerName s; started := started s;
                      results := next; history := history s;
                      runId := runId s; expectedCount := expectedCount s;
                      dnsProbe := dnsProbe s; siteText := siteText s |},
                   [])
        end
  end.

(** ** Starting a run *)

(** [selected.forEach((site, index) => window.open(...))] *)
Fixpoint openPopups (rid : Z) (index : nat) (selected : list jsstring)
  : list Effect :=
  match selected with
  | [] => []
  | site :: rest => WindowOpen site rid index :: openPopups rid (S index) rest
  end.

(** [runBenchmark()].  [now] is the value [Date.now()] returns and [shuffle]
    is what [[...sites].sort(() => 0.5 - Math.random())] does to the pool:
    both are chosen by the environment. *)
Definition runBenchmark (now : Z) (shuffle : list jsstring -> list jsstring)
    (s : State) : State * list Effect :=
  if negb (truthy (trim (computerName s))) then
    (s, [Alert "Please enter a computer name before running the benchmark."])
  else if (length (sites s) <? 1)%nat then
    (s, [Alert "Add at least one test URL in the Site List."])
  else
    let shuffled := shuffle (sites s) in
    let selected := firstn (Nat.min 5 (length shuffled)) shuffled in
    let id := now in
    ({| computerName := computerName s; started := true; results := [];
        history := history s; runId := Some id;
        expectedCount := length selected; dnsProbe := None;
        siteText := siteText s |},
     openPopups id 0 selected).

(** [runDnsProbe()], given the two elapsed times [probeOnce] measured. *)
Definition runDnsProbe (cloudflare google : Q) : DnsProbe :=
  {| cloudflareMs := Math_round cloudflare;
     googleMs := Math_round google;
     recommended := if gt google cloudflare then Cloudflare else Google |}.

(** ** The component as a state machine *)

Inductive Event :=
| Message (data : option Data)
| ClickBenchmark (now : Z) (shuffle : list jsstring -> list jsstring)
| ChangeComputerName (value : jsstring)
| ChangeSiteText (value : jsstring)
| DnsProbeSettled (result : option DnsProbe).

Definition step (s : State) (e : Event) : State * list Effect :=
  match e with
  | Message data => onMessage s data
  | ClickBenchmark now shuffle => runBenchmark now shuffle s
  | ChangeComputerName value =>
      ({| computerName := value; started := started s; results := results s;
          history := history s; runId := runId s;
          expectedCount := expectedCount s; dnsProbe := dnsProbe s;
          siteText := siteText s |}, [])
  | ChangeSiteText value =>
      ({| computerName := computerName s; started := started s;
          results := results s; history := history s; runId := runId s;
          expectedCount := expectedCount s; dnsProbe := dnsProbe s;
          siteText := value |}, [])
  | DnsProbeSettled result =>
      ({| computerName := computerName s; started := started s;
          results := results s; history := history s; runId := runId s;
          expectedCount := expectedCount s; dnsProbe := result;
          siteText := siteText s |}, [])
  end.

(** A sequence of events, with the effects in the order they happen. *)
Fixpoint run (s : State) (es : list Event) : State * list Effect :=
  match es with
  | [] => (s, [])
  | e :: rest =>
      let (s1, out1) := step s e in
      let (s2, out2) := run s1 rest in
      (s2, out1 ++ out2)
  end.

(** The run records the completion step appended, oldest first. *)
Fixpoint completions (out : list Effect) : list RunRecord :=
  match out with
  | [] => []
  | HistoryAppend r :: rest => r :: completions rest
  | _ :: rest => completions rest
  end.

(** ** Persistence *)

Module Persistence.

Local Unset Elimination Schemes.

(** A value [JSON.parse] returns. *)
Inductive json :=
| JNull
| JBool (b : bool)
| JNumber (q : Q)
| JString (s : jsstring)
| JArray (items : list json)
| JObject (members : list (jsstring * json)).

Local Set Elimination Schemes.

Inductive exn := SyntaxError | TypeError | DOMException.

(** What an effect of the component does: state setters called with the
    value they receive, and writes that reached the storage. *)
Inductive Call :=
| SetHistory (value : json)
| SetSiteText (value : jsstring)
| Stored (key value : jsstring).

(** A computation that logs its calls and ends normally or by a throw;
    the calls made before a throw stay made. *)
Definition Js (A : Type) : Type := list Call * (exn + A).

Definition ret {A} (a : A) : Js A := ([], inr a).
Definition throw {A} (e : exn) : Js A := ([], inl e).
Definition call (c : Call) : Js unit := ([c], inr tt).

Definition bind {A B} (m : Js A) (k : A -> Js B) : Js B :=
  match m with
  | (log, inl e) => (log, inl e)
  | (log, inr a) => let (log', r) := k a in (log ++ log', r)
  end.

(** [try { body } catch { handler }] *)
Definition try_catch {A} (body : Js A) (handler : exn -> Js A) : Js A :=
  match body with
  | (log, inl e) => let (log', r) := handler e in (log ++ log', r)
  | (log, inr a) => (log, inr a)
  end.

Definition lift {A} (r : exn + A) : Js A := ([], r).

Notation "x <- m ;; k" := (bind m (fun x => k))
  (at level 61, m at next level, right associativity).
Notation "m ;;; k" := (bind m (fun _ => k))
  (at level 61, right associativity).

(** [localStorage]: a read returns [null] ([None]) or a string, and both
    a read and a write can throw. *)
Record Storage := mkStorage {
  getItem : jsstring -> exn + option jsstring;
  setItem : jsstring -> jsstring -> option exn
}.

Definition benchmark_history_v1 : jsstring := lit "benchmark_history_v1".
Definition benchmark_sites_v1 : jsstring := lit "benchmark_sites_v1".

Section Runtime.

(** [JSON.parse]: a [SyntaxError] on a text that is not JSON. *)
Variable JSON_parse : jsstring -> exn + json.
(** [JSON.stringify] of the history and of the site list. *)
Variable stringify_history : list RunRecord -> jsstring.
Variable stringify_sites : list jsstring -> jsstring.
(** [ToString] of an array element other than [null]: the text, or the
    [TypeError] of an object that no conversion turns into a primitive
    value, such as one with a member [toString] that is not a function. *)
Variable ToString : json -> exn + jsstring.

Variable localStorage : Storage.

(** The texts [join] gives the elements, from left to right: the empty
    text for [null], [ToString] for another element, whose throw ends the
    conversion. *)
Fixpoint elementTexts (items : list json) : exn + list jsstring :=
  match items with
  | [] => inr []
  | x :: rest =>
      match (match x with JNull => inr [] | _ => ToString x end) with
      | inl e => inl e
      | inr text =>
          match elementTexts rest with
          | inl e => inl e
          | inr texts => inr (text :: texts)
          end
      end
  end.

(** [value.join("\n")]: only an array has the method. *)
Definition join (value : json) : Js jsstring :=
  match value with
  | JArray items =>
      (texts <- lift (elementTexts items) ;; ret (join_newline texts))
  | _ => throw TypeError
  end.

(** A string read from the storage is used when it is truthy. *)
Definition present (saved : option jsstring) : option jsstring :=
  match saved with
  | Some text => if truthy text then Some text else None
  | None => None
  end.

(** The effect that loads the persisted history and site list. *)
Definition loadPersisted : Js unit :=
  try_catch
    (savedHist <- lift (getItem localStorage benchmark_history_v1) ;;
     match present savedHist with
     | Some text => (v <- lift (JSON_parse text) ;; call (SetHistory v))
     | None => ret tt
     end ;;;
     savedSites <- lift (getItem localStorage benchmark_sites_v1) ;;
     match present savedSites with
     | Some text =>
         (v <- lift (JSON_parse text) ;;
          joined <- join v ;;
          call (SetSiteText joined))
     | None => ret tt
     end)
    (fun _ => ret tt).

(** [localStorage.setItem(key, value)] *)
Definition store (key value : jsstring) : Js unit :=
  match setItem localStorage key value with
  | Some e => throw e
  | None => call (Stored key value)
  end.

(** The effect that runs when [history] changes. *)
Definition persistHistory (history : list RunRecord) : Js unit :=
  try_catch (store benchmark_history_v1 (stringify_history history))
            (fun _ => ret tt).

(** The effect that runs when [sites] changes. *)
Definition persistSites (sites : list jsstring) : Js unit :=
  try_catch (store benchmark_sites_v1 (stringify_sites sites))
            (fun _ => ret tt).

End Runtime.

(** The history the component holds once the calls of an effect are
    applied to [current], as a JSON value. *)
Fixpoint historyAfter (current : json) (log : list Call) : json :=
  match log with
  | [] => current
  | SetHistory v :: rest => historyAfter v rest
  | _ :: rest => historyAfter current rest
  end.

Definition is_null (v : json) : bool :=
  match v with JNull => true | _ => false end.

(** [history.slice().reverse().map((h, i) => ({ ..., final:
    Math.round(h.finalScore) }))], evaluated at every render: the entries
    in display order, or the [TypeError] of a value without [slice] and
    [reverse] or of a [null] entry. *)
Definition historyChartData (history : json) : exn + list json :=
  match history with
  | JArray items =>
      if existsb is_null items then inl TypeError else inr (rev items)
  | _ => inl TypeError
  end.

End Persistence.

(** ** The sibling component of [App.jsx] *)

Module AppJsx.

Record State := mkState {
  computerName : jsstring;
  started : bool;
  results : list Data;
  history : list RunRecord;
  runId : option Z;
  expectedCount : nat
}.

(** The pool is fixed. *)
Definition sites : list jsstring :=
  List.map lit
    ["https://example.com"; "https://wikipedia.org"; "https://github.com";
     "https://nytimes.com"; "https://openai.com"; "https://cnn.com";
     "https://bbc.com"; "https://mozilla.org"; "https://reddit.com";
     "https://stackoverflow.com"]%string.

(** [onMessage(event)]: the record holds the array [next] itself, as the
    state does, and there is no probe. *)
Definition onMessage (s : State) (data : option Data)
  : State * list Effect :=
  match data with
  | None => (s, [])
  | Some d =>
      if negb (jsstring_eqb (type_ d) benchmarkResult) then (s, [])
      else
        match runId s with
        | None => (s, [])
        | Some rid =>
            if negb (runId_ d =? rid) then (s, [])
            else
              let prev := results s in
              if existsb (fun p => index p =? index d) prev then (s, [])
              else
                let next := prev ++ [d] in
                if (length next =? expectedCount s)%nat then
                  let finalScore := averageScore next in
                  let runRecord :=
                    {| id := rid; at_ := toLocaleString rid;
                       computer := computerName s;
                       finalScore := finalScore;
                       rec_results := next |} in
                  ({| computerName := computerName s;
                      started := started s; results := next;
                      history := prepend_capped runRecord (history s);
                      runId := runId s;
                      expectedCount := expectedCount s |},
                   [HistoryAppend runRecord])
                else
                  ({| computerName := computerName s;
                      started := started s; results := next;
                      history := history s; runId := runId s;
                      expectedCount := expectedCount s |},
                   [])
        end
  end.

(** [runBenchmark()]: [shuffled.slice(0, 5)]. *)
Definition runBenchmark (now : Z)
    (shuffle : list jsstring -> list jsstring) (s : State)
  : State * list Effect :=
  if negb (truthy (trim (computerName s))) then
    (s, [Alert "Please enter a computer name before running the benchmark."])
  else
    let shuffled := shuffle sites in
    let selected := firstn 5 shuffled in
    let id := now in
    ({| computerName := computerName s; started := true; results := [];
        history := history s; runId := Some id;
        expectedCount := length selected |},
     openPopups id 0 selected).

(** A record after [h.results.sort((a, b) => a.index - b.index)]. *)
Definition sortRecord (h : RunRecord) : RunRecord :=
  {| id := id h; at_ := at_ h; computer := computer h;
     finalScore := finalScore h;
     rec_results := sort_by_index (rec_results h) |}.

(** What a render does to the state: [sort] works in place, so the table
    of the current run, shown once the component has started, leaves
    [results] in the order of the indices, and the details of the
    history leave the results of every record so.  The record of the run
    just completed holds the array that [results] holds: in a started
    component the two sorts leave that one array in the same order. *)
Definition render (s : State) : State :=
  {| computerName := computerName s; started := started s;
     results := if started s then sort_by_index (results s) else results s;
     history := List.map sortRecord (history s);
     runId := runId s; expectedCount := expectedCount s |}.

(** What happens to the component between two clicks: a message arrives,
    or React renders the state; several messages can arrive before the
    next render. *)
Inductive Event :=
| Deliver (data : option Data)
| Render.

Definition step (s : State) (e : Event) : State * list Effect :=
  match e with
  | Deliver data => onMessage s data
  | Render => (render s, [])
  end.

Fixpoint run (s : State) (es : list Event) : State * list Effect :=
  match es with
  | [] => (s, [])
  | e :: rest =>
      let (s1, out1) := step s e in
      let (s2, out2) := run s1 rest in
      (s2, out1 ++ out2)
  end.


End AppJsx.

(** ** The words of the specification *)

Module Spec.

(** [r] is [round(x)]: the integer within one half of [x], the upper one
    at a tie. *)
Definition rounds_to (x : Q) (r : Z) : Prop :=
  (inject_Z r - (1 # 2) <= x /\ x < inject_Z r + (1 # 2))%Q.

(** [0.4 loadTime + 0.3 cpuTime + 0.2 networkLatency + 0.1 memoryUsage] *)
Definition penalty (m : Data) : Q :=
  (0.4 * loadTime m + 0.3 * cpuTime m + 0.2 * networkLatency m
   + 0.1 * memoryUsage m)%Q.

(** [score(m) = max(0, round(1000 - penalty))] *)
Definition score (m : Data) (r : Z) : Prop :=
  exists n, rounds_to (1000 - penalty m) n /\ r = Z.max 0 n.

Fixpoint total (l : list Z) : Z :=
  match l with
  | [] => 0
  | x :: r => x + total r
  end.

(** [mean(l)] of a non-empty list. *)
Definition mean (l : list Z) : Q :=
  (inject_Z (total l) / inject_Z (Z.of_nat (length l)))%Q.




End Spec.

(** A measurement with the given metrics. *)
Definition measurement (load cpu net mem : Q) : Data :=
  {| type_ := benchmarkResult; runId_ := 0; index := 0; site := [];
     loadTime := load; cpuTime := cpu; networkLatency := net;
     memoryUsage := mem |}.

(** Every metric of [d] is between -2^32 and 2^32. *)
Definition withinRange (d : Data) : Prop :=
  (- 4294967296 <= loadTime d <= 4294967296
   /\ - 4294967296 <= cpuTime d <= 4294967296
   /\ - 4294967296 <= networkLatency d <= 4294967296
   /\ - 4294967296 <= memoryUsage d <= 4294967296)%Q.

(** No metric of [d] is negative. *)
Definition nonNegative (d : Data) : Prop :=
  (0 <= loadTime d /\ 0 <= cpuTime d /\ 0 <= networkLatency d
   /\ 0 <= memoryUsage d)%Q.

(** How far the binary64 value of [1000 - penalty] is from the exact one
    at most, for metrics within range: 2^-15. *)
Definition tolerance : Q := 1 # 32768.

(** [averageScore] with every operation as the code performs it: the sum
    is a left fold of binary64 additions from 0, the mean a binary64
    quotient. *)
Definition averageScore_binary64 (items : list Data) : Z :=
  if (length items =? 0)%nat then 0
  else
    let sum :=
      fold_left (fun acc it => Binary64.add acc (inject_Z (scoreOne it)))
        items 0%Q in
    Math_round (Binary64.div sum (inject_Z (Z.of_nat (length items)))).

(** C2 as the specification words it: the score is the formula in exact
    arithmetic. *)
Definition score_is_exact_formula : Prop :=
  forall m, Spec.score m (scoreOne m).

(** The run record the completion step builds from [next]. *)
Definition runRecordOf (s : State) (rid : Z) (next : list Data) : RunRecord :=
  {| id := rid; at_ := toLocaleString rid; computer := computerName s;
     finalScore := averageScore next; rec_results := sort_by_index next |}.

(** The deliveries [ds] as [message] events, in order. *)
Definition deliveries (ds : list Data) : list Event :=
  List.map (fun d => Message (Some d)) ds.

(** The probe is launched by a handler whose effects are [out]. *)
Definition probeLaunched (out : list Effect) : bool :=
  existsb (fun e => match e with RunDnsProbe => true | _ => false end) out.

(** The popups a handler opened. *)
Definition popups (out : list Effect) : list (jsstring * Z * nat) :=
  flat_map (fun e => match e with
                     | WindowOpen site rid i => [(site, rid, i)]
                     | _ => []
                     end) out.

(** ** Sample data *)

(** A result message of run [rid] for the target at [i]. *)
Definition sample (rid i : Z) (load : Q) : Data :=
  {| type_ := benchmarkResult; runId_ := rid; index := i; site := lit "a";
     loadTime := load; cpuTime := 10; networkLatency := 20;
     memoryUsage := 30 |}.

(** A component with a computer name and a pool of one site. *)
Definition oneSite : State :=
  {| computerName := lit "lab"; started := false; results := [];
     history := []; runId := None; expectedCount := 0%nat; dnsProbe := None;
     siteText := lit "a" |}.

(** A component with a pool of three sites. *)
Definition threeSites : State :=
  {| computerName := lit "lab"; started := false; results := [];
     history := []; runId := None; expectedCount := 0%nat; dnsProbe := None;
     siteText := join_newline [lit "a"; lit "b"; lit "c"] |}.

Definition keep (pool : list jsstring) : list jsstring := pool.

(** One run of [oneSite] from the click to its only result. *)
Definition oneRun (rid : Z) : list Event :=
  [ClickBenchmark rid keep; Message (Some (sample rid 0 100))].

Definition sixRuns : list Event :=
  oneRun 1 ++ oneRun 2 ++ oneRun 3 ++ oneRun 4 ++ oneRun 5 ++ oneRun 6.



(** The targets of [selected] with their ordinals, from [index] on. *)
Fixpoint numbered (rid : Z) (index : nat) (selected : list jsstring)
  : list (jsstring * Z * nat) :=
  match selected with
  | [] => []
  | site :: rest => (site, rid, index) :: numbered rid (S index) rest
  end.

(** A computer name of two spaces. *)
Definition blankName : State :=
  {| computerName := lit "  "; started := false; results := [];
     history := []; runId := None; expectedCount := 0%nat; dnsProbe := None;
     siteText := lit "a" |}.

(** A site list of one blank line. *)
Definition blankPool : State :=
  {| computerName := lit "lab"; started := false; results := [];
     history := []; runId := None; expectedCount := 0%nat; dnsProbe := None;
     siteText := lit " " |}.

(** The run of [threeSites] started at instant 7, its three results and a
    delivery order with repetitions. *)
Definition runOfThree : State := fst (runBenchmark 7 (@rev jsstring) threeSites).

Definition threeResults : list Data :=
  [sample 7 0 100; sample 7 1 250.5; sample 7 2 1200].

Definition shuffledDeliveries : list Data :=
  [sample 7 2 1200; sample 7 0 100; sample 7 2 1200; sample 7 1 250.5;
   sample 7 0 100; sample 7 1 250.5].

(** The run of [oneSite] started at instant 1. *)
Definition runOfOne : State := fst (runBenchmark 1 keep oneSite).

(** A storage whose history key holds the text [null], and the part of
    [JSON.parse] that reads it. *)
Definition nullBlob : Persistence.Storage :=
  {| Persistence.getItem := fun key =>
       if jsstring_eqb key Persistence.benchmark_history_v1
       then inr (Some (lit "null")) else inr None;
     Persistence.setItem := fun _ _ => None |}.

Definition parseNull (text : jsstring)
  : Persistence.exn + Persistence.json :=
  if jsstring_eqb text (lit "null") then inr Persistence.JNull
  else inl Persistence.SyntaxError.

Definition noToString (v : Persistence.json)
  : Persistence.exn + jsstring := inr [].

(** C6 as the specification words it: once a click has started a new run,
    a result of the run it superseded is discarded with no state change. *)
Definition superseded_result_discarded : Prop :=
  forall (now : Z) (shuffle : list jsstring -> list jsstring) (s : State)
         (d : Data),
    truthy (trim (computerName s)) = true ->
    sites s <> [] ->
    Permutation (shuffle (sites s)) (sites s) ->
    type_ d = benchmarkResult ->
    runId s = Some (runId_ d) ->
    onMessage (fst (runBenchmark now shuffle s)) (Some d)
    = (fst (runBenchmark now shuffle s), []).

(** Two runs of [oneSite] and the probe of the first settling last: the
    first run, started at instant 1, has a load time of 1200; the second,
    started at instant 2, has a load time of 100; then the promise of the
    probe that the first run launched resolves with [p]. *)
Definition firstRunSlow : list Event :=
  [ClickBenchmark 1 keep; Message (Some (sample 1 0 1200))].

Definition secondRunFast : list Event :=
  [ClickBenchmark 2 keep; Message (Some (sample 2 0 100))].

Definition staleProbe (p : DnsProbe) : list Event :=
  firstRunSlow ++ secondRunFast ++ [DnsProbeSettled (Some p)].

(** ** Predicates of the statements *)

(** A list of results in the order of their indices. *)
Inductive sorted_by_index : list Data -> Prop :=
| sorted_nil : sorted_by_index []
| sorted_one x : sorted_by_index [x]
| sorted_cons x y l :
    index x <= index y -> sorted_by_index (y :: l) ->
    sorted_by_index (x :: y :: l).


(** The three ways a delivery ends. *)
Inductive Delivery (s : State) (d : Data) : State -> list Effect -> Prop :=
| Discarded :
    type_ d <> benchmarkResult \/ runId s <> Some (runId_ d)
    \/ In (index d) (List.map index (results s)) ->
    Delivery s d s []
| Inserted s' :
    type_ d = benchmarkResult -> runId s = Some (runId_ d) ->
    ~ In (index d) (List.map index (results s)) ->
    S (length (results s)) <> expectedCount s ->
    results s' = results s ++ [d] ->
    history s' = history s -> dnsProbe s' = dnsProbe s ->
    runId s' = runId s -> expectedCount s' = expectedCount s ->
    computerName s' = computerName s ->
    Delivery s d s' []
| Completed s' out :
    type_ d = benchmarkResult -> runId s = Some (runId_ d) ->
    ~ In (index d) (List.map index (results s)) ->
    S (length (results s)) = expectedCount s ->
    results s' = sort_by_index (results s ++ [d]) ->
    history s'
    = prepend_capped (runRecordOf s (runId_ d) (results s ++ [d])) (history s) ->
    runId s' = runId s -> expectedCount s' = expectedCount s ->
    computerName s' = computerName s ->
    completions out = [runRecordOf s (runId_ d) (results s ++ [d])] ->
    Delivery s d s' out.

(** The facts of a run record built by a completion step of a run that
    expects [n] results under the name [name], while [rid] is active. *)
Definition record_of_run (rid : option Z) (name : jsstring) (n : nat)
    (r : RunRecord) : Prop :=
  rid = Some (id r)
  /\ computer r = name
  /\ finalScore r = averageScore (rec_results r)
  /\ sorted_by_index (rec_results r)
  /\ NoDup (List.map index (rec_results r))
  /\ length (rec_results r) = n.

(** What holds of the run in progress in every state the component
    reaches. *)
Definition runInvariant (s : State) : Prop :=
  NoDup (List.map index (results s))
  /\ (forall x, In x (results s) ->
        type_ x = benchmarkResult /\ runId s = Some (runId_ x))
  /\ (expectedCount s <= 5)%nat
  /\ (runId s <> None -> started s = true).


(** The state and effects of the insertion of [d] into the results of [s]
    (the branches of the updater of [onMessage] after the duplicate
    check). *)
Definition inserted (s : State) (d : Data) : State * list Effect :=
  let next := results s ++ [d] in
  if (length next =? expectedCount s)%nat then
    let runRecord := runRecordOf s (runId_ d) next in
    let anySlow :=
      existsb (fun r => gt (loadTime r) loadTimeMs) (sort_by_index next) in
    ({| computerName := computerName s; started := started s;
        results := sort_by_index next;
        history := prepend_capped runRecord (history s);
        runId := runId s; expectedCount := expectedCount s;
        dnsProbe := if anySlow then dnsProbe s else None;
        siteText := siteText s |},
     HistoryAppend runRecord :: (if anySlow then [RunDnsProbe] else []))
  else
    ({| computerName := computerName s; started := started s;
        results := next; history := history s;
        runId := runId s; expectedCount := expectedCount s;
        dnsProbe := dnsProbe s; siteText := siteText s |}, []).



(** ** What the render derives from the state *)

Module View.

(** The text the title effect gives [document.title], by its four cases:
    "BenchMark — Ready", "BenchMark — Running…", "BenchMark — k/n" and
    "BenchMark — Done". *)
Inductive Title :=
| Ready
| Running
| Progress (received expected : nat)
| Done.

Definition documentTitle (s : State) : Title :=
  if negb (started s) then Ready
  else if (length (results s) =? 0)%nat then Running
  else if (length (results s) <? expectedCount s)%nat then
    Progress (length (results s)) (expectedCount s)
  else Done.

(** [progressPct]: 0 when [expectedCountRef.current] is 0; the quotient
    and the product are binary64 operations. *)
Definition progressPct (s : State) : Z :=
  if (expectedCount s =? 0)%nat then 0
  else
    Math_round
      (Binary64.mul
         (Binary64.div (inject_Z (Z.of_nat (length (results s))))
                       (inject_Z (Z.of_nat (expectedCount s))))
         100).

(** A result with its score: [{ ...r, score: scoreOne(r) }]. *)
Record Scored := mkScored { row : Data; score : Z }.

(** [results.slice().sort((a, b) => a.index - b.index).map(...)] *)
Definition resultsWithScore (s : State) : list Scored :=
  List.map (fun r => {| row := r; score := scoreOne r |})
    (sort_by_index (results s)).



(** [arr.map((x, i) => f(x, i))], the index starting at [i]. *)
Fixpoint mapi_from {A B} (f : A -> nat -> B) (i : nat) (l : list A)
  : list B :=
  match l with
  | [] => []
  | x :: r => f x i :: mapi_from f (S i) r
  end.

(** A point of the history chart: the number in its name "Run k" and the
    final score. *)
Record ChartPoint := mkChartPoint { runNumber : Z; final : Z }.

(** [history.slice().reverse().map((h, i) => ({ name: `Run
    ${history.length - i}`, final: Math.round(h.finalScore) }))] *)
Definition historyChartData (history : list RunRecord) : list ChartPoint :=
  mapi_from
    (fun h i =>
       {| runNumber := Z.of_nat (length history) - Z.of_nat i;
          final := Math_round (inject_Z (finalScore h)) |})
    0 (rev history).

End View.


(** ** The CSV export *)

Module Csv.

(** [parts.join(sep)] on strings. *)
Fixpoint join (sep : jsstring) (parts : list jsstring) : jsstring :=
  match parts with
  | [] => []
  | [p] => p
  | p :: ps => p ++ sep ++ join sep ps
  end.

(** A row: the own keys of the object in the order of [Object.keys], each
    with the text [String(v)] of its value, or [None] when the value is
    [null] or [undefined]. *)
Definition Row := list (jsstring * option jsstring).

Section Prototype.

(** What every row inherits.  A row is an object literal, so a key it does
    not have is looked up in [Object.prototype]: [inherited h] is the text
    [String] gives the member found there ([toString], [constructor],
    [valueOf], ..., a built-in function whose text depends on the
    engine), and [None] for a name without a member. *)
Variable inherited : jsstring -> option jsstring.

(** [r[h]]: the own property, else the inherited one. *)
Fixpoint get (r : Row) (h : jsstring) : option jsstring :=
  match r with
  | [] => inherited h
  | (k, v) :: rest => if jsstring_eqb k h then v else get rest h
  end.

(** The [replace] of [escape]: every quotation mark (code unit 34) of the
    text becomes two. *)
Fixpoint doubleQuotes (text : jsstring) : jsstring :=
  match text with
  | [] => []
  | c :: r =>
      if (c =? 34)%N then 34%N :: 34%N :: doubleQuotes r
      else c :: doubleQuotes r
  end.

(** The text [String] gives the value, the empty text for [null] and
    [undefined]. *)
Definition cellText (v : option jsstring) : jsstring :=
  match v with
  | Some text => text
  | None => []
  end.

(** [escape(v)] *)
Definition escape (v : option jsstring) : jsstring :=
  34%N :: doubleQuotes (cellText v) ++ [34%N].

(** [toCSV(rows)]; the comma is code unit 44. *)
Definition toCSV (rows : list Row) : jsstring :=
  match rows with
  | [] => []
  | first :: _ =>
      let headers := List.map fst first in
      let lines :=
        join [44%N] headers
        :: List.map
             (fun r => join [44%N] (List.map (fun h => escape (get r h)) headers))
             rows in
      join [10%N] lines
  end.

End Prototype.

(** *** A reader of what [toCSV] writes *)

(** [text.split(sep)] for a separator of one code unit. *)
Fixpoint splitOn (sep : N) (text : jsstring) : list jsstring :=
  match text with
  | [] => [[]]
  | c :: r =>
      if (c =? sep)%N then [] :: splitOn sep r
      else match splitOn sep r with
           | l :: ls => (c :: l) :: ls
           | [] => [[c]]
           end
  end.

(** The first line of a text and what follows its line break. *)
Fixpoint firstLine (text : jsstring) : jsstring * option jsstring :=
  match text with
  | [] => ([], None)
  | c :: r =>
      if (c =? 10)%N then ([], Some r)
      else let (line, rest) := firstLine r in (c :: line, rest)
  end.

Inductive ReadState := FieldStart | InQuotes | AfterQuote.

(** Records of quoted fields, separated by commas within a record and by
    line breaks between records; a doubled quotation mark inside a field
    is one quotation mark.  [field] and [record] are read so far, latest
    first. *)
Fixpoint readFrom (st : ReadState) (field : jsstring)
    (record : list jsstring) (records : list (list jsstring))
    (input : jsstring) : option (list (list jsstring)) :=
  match input with
  | [] =>
      match st with
      | AfterQuote => Some (rev (rev (rev field :: record) :: records))
      | _ => None
      end
  | c :: r =>
      match st with
      | FieldStart =>
          if (c =? 34)%N then readFrom InQuotes [] record records r else None
      | InQuotes =>
          if (c =? 34)%N then readFrom AfterQuote field record records r
          else readFrom InQuotes (c :: field) record records r
      | AfterQuote =>
          if (c =? 34)%N then
            readFrom InQuotes (34%N :: field) record records r
          else if (c =? 44)%N then
            readFrom FieldStart [] (rev field :: record) records r
          else if (c =? 10)%N then
            readFrom FieldStart [] [] (rev (rev field :: record) :: records) r
          else None
      end
  end.

(** The header names and the records of a CSV text. *)
Definition readCSV (text : jsstring)
  : option (list jsstring * list (list jsstring)) :=
  match firstLine text with
  | (header, Some body) =>
      match readFrom FieldStart [] [] [] body with
      | Some records => Some (splitOn 44 header, records)
      | None => None
      end
  | (_, None) => None
  end.

End Csv.


(** ** The rows of the two CSV exports *)

Module Exports.

Section Formatting.

(** [x.toFixed(digits)], [String(n)] of an integer and the text of a
    locale date: the runtime's renderings of numbers and dates. *)
Variable toFixed : Q -> nat -> jsstring.
Variable numberText : Z -> jsstring.
Variable localeText : LocaleString -> jsstring.

(** The row of [currentRunCSVRows] for a scored result. *)
Definition currentRunRow (r : View.Scored) : Csv.Row :=
  [(lit "site", Some (site (View.row r)));
   (lit "cpuTime", Some (toFixed (cpuTime (View.row r)) 2));
   (lit "memoryUsage", Some (toFixed (memoryUsage (View.row r)) 2));
   (lit "networkLatency", Some (toFixed (networkLatency (View.row r)) 2));
   (lit "loadTime", Some (toFixed (loadTime (View.row r)) 2));
   (lit "score", Some (numberText (View.score r)))].

(** [currentRunCSVRows()] *)
Definition currentRunCSVRows (s : State) : list Csv.Row :=
  List.map currentRunRow (View.resultsWithScore s).

(** The row [historyCSVRows] pushes for the result [r] of [run]. *)
Definition historyRow (run : RunRecord) (r : Data) : Csv.Row :=
  [(lit "runId", Some (numberText (id run)));
   (lit "runAt", Some (localeText (at_ run)));
   (lit "computer", Some (computer run));
   (lit "finalScore",
    Some (numberText (Math_round (inject_Z (finalScore run)))));
   (lit "site", Some (site r));
   (lit "cpuTime", Some (toFixed (cpuTime r) 2));
   (lit "memoryUsage", Some (toFixed (memoryUsage r) 2));
   (lit "networkLatency", Some (toFixed (networkLatency r) 2));
   (lit "loadTime", Some (toFixed (loadTime r) 2));
   (lit "siteScore", Some (numberText (scoreOne r)))].

(** [historyCSVRows()]: the two nested loops. *)
Definition historyCSVRows (history : list RunRecord) : list Csv.Row :=
  flat_map (fun run => List.map (historyRow run) (rec_results run)) history.

(** The texts of a record of each export, by column. *)
Definition currentRunCells (r : Data) : list jsstring :=
  [site r; toFixed (cpuTime r) 2; toFixed (memoryUsage r) 2;
   toFixed (networkLatency r) 2; toFixed (loadTime r) 2;
   numberText (scoreOne r)].

Definition historyCells (run : RunRecord) (r : Data) : list jsstring :=
  [numberText (id run); localeText (at_ run); computer run;
   numberText (finalScore run); site r; toFixed (cpuTime r) 2;
   toFixed (memoryUsage r) 2; toFixed (networkLatency r) 2;
   toFixed (loadTime r) 2; numberText (scoreOne r)].

End Formatting.

Definition currentRunColumns : list jsstring :=
  [lit "site"; lit "cpuTime"; lit "memoryUsage"; lit "networkLatency";
   lit "loadTime"; lit "score"].

Definition historyColumns : list jsstring :=
  [lit "runId"; lit "runAt"; lit "computer"; lit "finalScore"; lit "site";
   lit "cpuTime"; lit "memoryUsage"; lit "networkLatency"; lit "loadTime";
   lit "siteScore"].

End Exports.

(** An [Object.prototype] for the examples: its member [toString], with
    the text one engine gives the built-in function. *)
Definition nativePrototype (h : jsstring) : option jsstring :=
  if jsstring_eqb h (lit "toString")
  then Some (lit "function toString() { [native code] }")
  else None.

(** Renderings of numbers and dates for the examples: every one the same
    text. *)
Definition plainFixed (x : Q) (digits : nat) : jsstring := lit "0.00".
Definition plainNumber (n : Z) : jsstring := lit "0".
Definition plainDate (d : LocaleString) : jsstring := lit "date".


(** ** A storage that keeps what is written *)

(** The site text the component holds once the calls of an effect are
    applied to [current]. *)
Fixpoint siteTextAfter (current : jsstring) (log : list Persistence.Call)
  : jsstring :=
  match log with
  | [] => current
  | Persistence.SetSiteText text :: rest => siteTextAfter text rest
  | _ :: rest => siteTextAfter current rest
  end.

(** The entries of a storage, latest first. *)
Definition Entries := list (jsstring * jsstring).

Fixpoint lookup (entries : Entries) (key : jsstring) : option jsstring :=
  match entries with
  | [] => None
  | (k, v) :: rest => if jsstring_eqb k key then Some v else lookup rest key
  end.

(** A [localStorage] that never throws and returns what was last written
    under a key. *)
Definition memoryStorage (entries : Entries) : Persistence.Storage :=
  {| Persistence.getItem := fun key => inr (lookup entries key);
     Persistence.setItem := fun _ _ => None |}.

(** The entries after the writes of an effect. *)
Fixpoint written (log : list Persistence.Call) (entries : Entries)
  : Entries :=
  match log with
  | [] => entries
  | Persistence.Stored key value :: rest =>
      written rest ((key, value) :: entries)
  | _ :: rest => written rest entries
  end.

(** The text of an array of one object whose member [toString] is the
    number 1: a bracket, a brace, the name in quotation marks, a colon,
    the digit and the closing brace and bracket. *)
Definition objectBlob : jsstring :=
  [91; 123; 34; 116; 111; 83; 116; 114; 105; 110; 103; 34; 58; 49; 125; 93]%N.

(** A [JSON.parse] for the examples: it reads [null], one array of
    strings, written as [sites], and [objectBlob]. *)
Definition parseSites (text : jsstring)
  : Persistence.exn + Persistence.json :=
  if jsstring_eqb text (lit "null") then inr Persistence.JNull
  else if jsstring_eqb text (lit "sites") then
    inr (Persistence.JArray
           [Persistence.JString (lit "a"); Persistence.JString (lit "b")])
  else if jsstring_eqb text objectBlob then
    inr (Persistence.JArray
           [Persistence.JObject
              [(lit "toString", Persistence.JNumber 1)]])
  else inl Persistence.SyntaxError.

(** A [ToString] for the examples, on the values they use: a string is
    its own text, and an object with a member [toString], which
    [JSON.parse] never makes a function, has no primitive value. *)
Definition stringText (v : Persistence.json)
  : Persistence.exn + jsstring :=
  match v with
  | Persistence.JString text => inr text
  | Persistence.JObject members =>
      if existsb (fun m => jsstring_eqb (fst m) (lit "toString")) members
      then inl Persistence.TypeError
      else inr (lit "[object Object]")
  | _ => inr []
  end.

Definition sitesAsText (sites : list jsstring) : jsstring := lit "sites".

(** ** The two listeners side by side *)



(** The state of [App.jsx] with the fields of a state of [oldApp.jsx]. *)
Definition asAppJsx (s : State) : AppJsx.State :=
  {| AppJsx.computerName := computerName s;
     AppJsx.started := started s;
     AppJsx.results := results s;
     AppJsx.history := history s;
     AppJsx.runId := runId s;
     AppJsx.expectedCount := expectedCount s |}.

(** ** The dashboard *)

Module Dashboard.

Record Point := mkPoint {
  name : jsstring;
  CPU : Z;
  Memory : Z
}.

(** The template literal of the name: the letter T and the decimal digits
    of [i + 1]. *)
Definition pointName (i : nat) : jsstring :=
  lit "T" ++ lit (DecimalString.NilEmpty.string_of_uint (Nat.to_uint (i + 1))).

(** [Math.floor(Math.random() * 100)] for a drawn number: the product is
    the binary64 one. *)
Definition percent (drawn : Q) : Z := Qfloor (Binary64.mul drawn 100).

(** [generateData()].  [random k] is what the call number [k] of
    [Math.random()] returns: the callback of [Array.from] draws the CPU
    value and then the memory value of each point in turn. *)
Definition generateData (random : nat -> Q) : list Point :=
  List.map (fun i => {| name := pointName i;
                        CPU := percent (random (2 * i)%nat);
                        Memory := percent (random (2 * i + 1)%nat) |})
           (seq 0 10).

End Dashboard.


(** * Properties *)

(** ** [Math.round] *)

Lemma Math_round_rounds (x : Q) : Spec.rounds_to x (Math_round x).
Proof.
  unfold Spec.rounds_to, Math_round.
  pose proof (Qfloor_le (x + (1 # 2))) as Hlo.
  pose proof (Qlt_floor (x + (1 # 2))) as Hhi.
  rewrite inject_Z_plus in Hhi. change (inject_Z 1) with 1%Q in Hhi.
  split; lra.
Qed.

Lemma rounds_to_unique (x : Q) (r1 r2 : Z) :
  Spec.rounds_to x r1 -> Spec.rounds_to x r2 -> r1 = r2.
Proof.
  unfold Spec.rounds_to. intros [H1 H2] [H3 H4].
  assert (Ha : (inject_Z r1 < inject_Z r2 + 1)%Q) by lra.
  assert (Hb : (inject_Z r2 < inject_Z r1 + 1)%Q) by lra.
  change 1%Q with (inject_Z 1) in Ha, Hb.
  rewrite <- inject_Z_plus in Ha, Hb.
  rewrite <- Zlt_Qlt in Ha, Hb. lia.
Qed.

Lemma Math_round_mono (x y : Q) :
  (x <= y)%Q -> Math_round x <= Math_round y.
Proof.
  intro H. unfold Math_round. apply Qfloor_resp_le. lra.
Qed.

Lemma Math_round_inject_Z (z : Z) : Math_round (inject_Z z) = z.
Proof.
  symmetry. apply (rounds_to_unique (inject_Z z)).
  - unfold Spec.rounds_to. split; lra.
  - apply Math_round_rounds.
Qed.

Lemma Math_round_nonpos (x : Q) : (x < 1 # 2)%Q <-> Math_round x <= 0.
Proof.
  pose proof (Math_round_rounds x) as [Hlo Hhi].
  split; intro H.
  - assert (Hq : (inject_Z (Math_round x) < inject_Z 1)%Q)
      by (change (inject_Z 1) with 1%Q; lra).
    rewrite <- Zlt_Qlt in Hq. lia.
  - assert (Hq : (inject_Z (Math_round x) <= inject_Z 0)%Q)
      by (rewrite <- Zle_Qle; exact H).
    change (inject_Z 0) with 0%Q in Hq. lra.
Qed.

(** ** Binary64 rounding *)

Section Binary64Facts.

Import Binary64.
Local Open Scope Q_scope.

Lemma pow2_pos (z : Z) : 0 < pow2 z.
Proof. apply Qpower_0_lt. reflexivity. Qed.

Lemma pow2_add (a b : Z) : pow2 (a + b) == pow2 a * pow2 b.
Proof. apply Qpower_plus. discriminate. Qed.

Lemma pow2_le (a b : Z) : (a <= b)%Z -> pow2 a <= pow2 b.
Proof. intro H. apply Qpower_le_compat_l; [exact H | discriminate]. Qed.

Lemma pow2_lt (a b : Z) : (a < b)%Z -> pow2 a < pow2 b.
Proof. intro H. apply Qpower_lt_compat_l; [exact H | reflexivity]. Qed.

Lemma pow2_lt_inv (a b : Z) : pow2 a < pow2 b -> (a < b)%Z.
Proof. intro H. apply (Qpower_lt_compat_l_inv 2); [exact H | reflexivity]. Qed.

Lemma pow2_nat (n : Z) : (0 <= n)%Z -> pow2 n == inject_Z (2 ^ n).
Proof. intro H. unfold pow2. rewrite Zpower_Qpower by exact H. reflexivity. Qed.

Lemma pow2_succ (a : Z) : pow2 (a + 1) == 2 * pow2 a.
Proof. rewrite pow2_add. change (pow2 1) with 2. ring. Qed.

(** A positive rational between consecutive powers of two. *)
Lemma ilog2_spec (x : Q) :
  0 < x -> pow2 (ilog2 x) <= x /\ x < pow2 (ilog2 x + 1).
Proof.
  intro Hx. destruct x as [n d].
  assert (Hn : (0 < n)%Z).
  { unfold Qlt in Hx. cbn in Hx. lia. }
  unfold ilog2. cbn [Qnum Qden].
  set (a := Z.log2 n). set (b := Z.log2 (Z.pos d)).
  destruct (Z.log2_spec n Hn) as [Ha1 Ha2]. fold a in Ha1, Ha2.
  destruct (Z.log2_spec (Z.pos d) (Pos2Z.is_pos d)) as [Hb1 Hb2].
  fold b in Hb1, Hb2.
  assert (Ha0 : (0 <= a)%Z) by apply Z.log2_nonneg.
  assert (Hb0 : (0 <= b)%Z) by apply Z.log2_nonneg.
  assert (Hx' : n # d == inject_Z n / inject_Z (Z.pos d)) by apply Qmake_Qdiv.
  assert (Hd : 0 < inject_Z (Z.pos d)) by (unfold Qlt; cbn; lia).
  assert (Hup : n # d < pow2 (a - b + 1)).
  { assert (He : pow2 (a - b + 1) * pow2 b == pow2 (a + 1)).
    { rewrite <- pow2_add. replace (a - b + 1 + b)%Z with (a + 1)%Z by ring.
      reflexivity. }
    pose proof (pow2_nat b Hb0) as Hpb.
    pose proof (pow2_nat (a + 1) ltac:(lia)) as Hpa.
    rewrite Hpb, Hpa in He.
    apply Qnot_le_lt. intro Hc.
    assert (Hm : pow2 (a - b + 1) * inject_Z (2 ^ b)
                 <= (n # d) * inject_Z (Z.pos d)).
    { apply Qmult_le_compat_nonneg.
      - split; [apply Qlt_le_weak, pow2_pos | exact Hc].
      - split; [rewrite <- Hpb; apply Qlt_le_weak, pow2_pos |].
        rewrite <- Zle_Qle. lia. }
    rewrite He in Hm.
    assert (Hn' : (n # d) * inject_Z (Z.pos d) == inject_Z n).
    { rewrite Hx'. field. intro H0. rewrite H0 in Hd. discriminate. }
    rewrite Hn' in Hm. rewrite <- Zle_Qle in Hm.
    replace (a + 1)%Z with (Z.succ a) in Hm by ring. lia. }
  assert (Hlo : pow2 (a - b - 1) <= n # d).
  { assert (He : pow2 (a - b - 1) * pow2 (b + 1) == pow2 a).
    { rewrite <- pow2_add. replace (a - b - 1 + (b + 1))%Z with a by ring.
      reflexivity. }
    pose proof (pow2_nat (b + 1) ltac:(lia)) as Hpb.
    pose proof (pow2_nat a Ha0) as Hpa.
    rewrite Hpb, Hpa in He.
    apply Qnot_lt_le. intro Hc.
    assert (Hn' : (n # d) * inject_Z (Z.pos d) == inject_Z n).
    { rewrite Hx'. field. intro H0. rewrite H0 in Hd. discriminate. }
    assert (Hs : (n # d) * inject_Z (Z.pos d)
                 < pow2 (a - b - 1) * inject_Z (2 ^ (b + 1))).
    { apply Qle_lt_trans with ((n # d) * inject_Z (2 ^ (b + 1))).
      - apply Qmult_le_compat_nonneg.
        + split; [apply Qlt_le_weak, Hx | apply Qle_refl].
        + split; [apply Qlt_le_weak, Hd |].
          rewrite <- Zle_Qle. replace (b + 1)%Z with (Z.succ b) by ring. lia.
      - apply Qmult_lt_compat_r; [| exact Hc].
        rewrite <- Hpb. apply pow2_pos. }
    rewrite He, Hn' in Hs. rewrite <- Zlt_Qlt in Hs. lia. }
  destruct (Qle_bool (pow2 (a - b)) (n # d)) eqn:E.
  - apply Qle_bool_iff in E. split; [exact E | exact Hup].
  - assert (Hlt : n # d < pow2 (a - b)).
    { apply Qnot_le_lt. intro Hc. apply Qle_bool_iff in Hc. congruence. }
    replace (a - b - 1 + 1)%Z with (a - b)%Z by ring.
    split; [exact Hlo | exact Hlt].
Qed.


Lemma ilog2_unique (x : Q) (k : Z) :
  pow2 k <= x -> x < pow2 (k + 1) -> ilog2 x = k.
Proof.
  intros Hlo Hhi.
  assert (Hx : 0 < x) by (eapply Qlt_le_trans; [apply pow2_pos | exact Hlo]).
  destruct (ilog2_spec x Hx) as [Hl Hh].
  assert (H1 : (ilog2 x < k + 1)%Z).
  { apply pow2_lt_inv. eapply Qle_lt_trans; [exact Hl | exact Hhi]. }
  assert (H2 : (k < ilog2 x + 1)%Z).
  { apply pow2_lt_inv. eapply Qle_lt_trans; [exact Hlo | exact Hh]. }
  lia.
Qed.

Lemma ilog2_mono (x y : Q) : 0 < x -> x <= y -> (ilog2 x <= ilog2 y)%Z.
Proof.
  intros Hx Hxy.
  assert (Hy : 0 < y) by (eapply Qlt_le_trans; eassumption).
  destruct (ilog2_spec x Hx) as [Hl _].
  destruct (ilog2_spec y Hy) as [_ Hh].
  assert (H : (ilog2 x < ilog2 y + 1)%Z).
  { apply pow2_lt_inv. eapply Qle_lt_trans; [exact Hl |].
    eapply Qle_lt_trans; [exact Hxy | exact Hh]. }
  lia.
Qed.

Lemma ilog2_le (x : Q) (k : Z) : 0 < x -> x <= pow2 k -> (ilog2 x <= k)%Z.
Proof.
  intros Hx Hk. destruct (ilog2_spec x Hx) as [Hl _].
  destruct (Z.le_gt_cases (ilog2 x) k) as [H | H]; [exact H | exfalso].
  assert (Hp : pow2 k < pow2 (ilog2 x)) by (apply pow2_lt; lia).
  lra.
Qed.

(** *** The nearest integer *)

Lemma nearest_even_cases (t : Q) :
  nearest_even t = Qfloor t \/ nearest_even t = (Qfloor t + 1)%Z.
Proof.
  unfold nearest_even.
  destruct (Qcompare (t - inject_Z (Qfloor t)) (1 # 2)); auto.
  destruct (Z.even (Qfloor t)); auto.
Qed.

Lemma nearest_even_half (t : Q) :
  t - (1 # 2) <= inject_Z (nearest_even t)
  /\ inject_Z (nearest_even t) <= t + (1 # 2).
Proof.
  pose proof (Qfloor_le t) as Hlo. pose proof (Qlt_floor t) as Hhi.
  rewrite inject_Z_plus in Hhi. change (inject_Z 1) with 1 in Hhi.
  unfold nearest_even.
  destruct (Qcompare (t - inject_Z (Qfloor t)) (1 # 2)) eqn:E.
  - apply Qeq_alt in E.
    destruct (Z.even (Qfloor t)); [| rewrite inject_Z_plus;
      change (inject_Z 1) with 1]; split; lra.
  - apply Qlt_alt in E. split; lra.
  - apply Qgt_alt in E. rewrite inject_Z_plus. change (inject_Z 1) with 1.
    split; lra.
Qed.

Lemma nearest_even_mono (t t' : Q) :
  t <= t' -> (nearest_even t <= nearest_even t')%Z.
Proof.
  intro H. pose proof (Qfloor_resp_le t t' H) as Hf.
  destruct (Z.eq_dec (Qfloor t) (Qfloor t')) as [He | Hne].
  - unfold nearest_even. rewrite <- He.
    destruct (Qcompare_spec (t - inject_Z (Qfloor t)) (1 # 2)) as [E1 | E1 | E1];
      destruct (Qcompare_spec (t' - inject_Z (Qfloor t)) (1 # 2))
        as [E2 | E2 | E2];
      try (destruct (Z.even (Qfloor t))); try lia; exfalso; lra.
  - destruct (nearest_even_cases t) as [-> | ->],
             (nearest_even_cases t') as [-> | ->]; lia.
Qed.

Lemma nearest_even_integer (t : Q) (k : Z) :
  t == inject_Z k -> nearest_even t = k.
Proof.
  intro H. unfold nearest_even.
  assert (Hf : Qfloor t = k) by (rewrite H; apply Qfloor_Z).
  rewrite Hf.
  destruct (Qcompare (t - inject_Z k) (1 # 2)) eqn:E.
  - apply Qeq_alt in E. exfalso. lra.
  - reflexivity.
  - apply Qgt_alt in E. exfalso. lra.
Qed.

(** *** Rounding *)

Lemma ulp_pos (x : Q) : 0 < ulp x.
Proof. apply pow2_pos. Qed.

Lemma exponent_above (x : Q) : 0 < x -> x < pow2 (exponent x + 1).
Proof.
  intro Hx. destruct (ilog2_spec x Hx) as [_ Hh].
  eapply Qlt_le_trans; [exact Hh |]. apply pow2_le. unfold exponent. lia.
Qed.

Lemma exponent_below (x : Q) :
  0 < x -> (-1022 < exponent x)%Z -> pow2 (exponent x) <= x.
Proof.
  intros Hx He. destruct (ilog2_spec x Hx) as [Hl _].
  unfold exponent in *. replace (Z.max (ilog2 x) (-1022)) with (ilog2 x) by lia.
  exact Hl.
Qed.

Lemma exponent_mono (x y : Q) :
  0 < x -> x <= y -> (exponent x <= exponent y)%Z.
Proof.
  intros Hx Hxy. pose proof (ilog2_mono x y Hx Hxy). unfold exponent. lia.
Qed.

Lemma scaled (x : Q) (e : Z) : x / pow2 e * pow2 e == x.
Proof.
  field. intro H. pose proof (pow2_pos e) as Hp. rewrite H in Hp. discriminate.
Qed.

Lemma round_pos_nonneg (x : Q) : 0 <= x -> 0 <= round_pos x.
Proof.
  intro Hx. unfold round_pos. apply Qmult_le_0_compat.
  - change 0 with (inject_Z 0). rewrite <- Zle_Qle.
    rewrite <- (nearest_even_integer 0 0) by reflexivity.
    apply nearest_even_mono.
    apply Qle_shift_div_l; [apply ulp_pos | lra].
  - apply Qlt_le_weak, ulp_pos.
Qed.

Lemma round_pos_zero (x : Q) : x == 0 -> round_pos x == 0.
Proof.
  intro H. unfold round_pos.
  rewrite (nearest_even_integer (x / ulp x) 0).
  - ring.
  - unfold Qdiv. generalize (/ ulp x). intro u. rewrite H.
    change (inject_Z 0) with 0. ring.
Qed.

Lemma round_pos_upper (x : Q) :
  0 < x -> round_pos x <= pow2 (exponent x + 1).
Proof.
  intro Hx. unfold round_pos, ulp.
  set (e := exponent x).
  assert (Ht : x / pow2 (e - 52) <= inject_Z (2 ^ 53)).
  { apply Qle_shift_div_r; [apply pow2_pos |].
    rewrite <- (pow2_nat 53) by lia. rewrite <- pow2_add.
    replace (53 + (e - 52))%Z with (e + 1)%Z by ring.
    apply Qlt_le_weak, exponent_above, Hx. }
  apply nearest_even_mono in Ht.
  rewrite (nearest_even_integer (inject_Z (2 ^ 53)) (2 ^ 53)) in Ht
    by reflexivity.
  apply Qle_trans with (inject_Z (2 ^ 53) * pow2 (e - 52)).
  - apply Qmult_le_compat_r; [| apply Qlt_le_weak, pow2_pos].
    rewrite <- Zle_Qle. exact Ht.
  - rewrite <- (pow2_nat 53) by lia. rewrite <- pow2_add.
    replace (53 + (e - 52))%Z with (e + 1)%Z by ring. apply Qle_refl.
Qed.

Lemma round_pos_lower (x : Q) :
  pow2 (exponent x) <= x -> pow2 (exponent x) <= round_pos x.
Proof.
  intro Hx. unfold round_pos, ulp.
  set (e := exponent x) in *.
  assert (Ht : inject_Z (2 ^ 52) <= x / pow2 (e - 52)).
  { apply Qle_shift_div_l; [apply pow2_pos |].
    rewrite <- (pow2_nat 52) by lia. rewrite <- pow2_add.
    replace (52 + (e - 52))%Z with e by ring. exact Hx. }
  apply nearest_even_mono in Ht.
  rewrite (nearest_even_integer (inject_Z (2 ^ 52)) (2 ^ 52)) in Ht
    by reflexivity.
  apply Qle_trans with (inject_Z (2 ^ 52) * pow2 (e - 52)).
  - rewrite <- (pow2_nat 52) by lia. rewrite <- pow2_add.
    replace (52 + (e - 52))%Z with e by ring. apply Qle_refl.
  - apply Qmult_le_compat_r; [| apply Qlt_le_weak, pow2_pos].
    rewrite <- Zle_Qle. exact Ht.
Qed.

Lemma round_pos_mono (x y : Q) :
  0 <= x -> x <= y -> round_pos x <= round_pos y.
Proof.
  intros Hx Hxy.
  destruct (Qlt_le_dec 0 x) as [Hpos | Hzero].
  - pose proof (exponent_mono x y Hpos Hxy) as He.
    assert (Hy : 0 < y) by lra.
    destruct (Z.eq_dec (exponent x) (exponent y)) as [Heq | Hne].
    + unfold round_pos, ulp. rewrite Heq.
      apply Qmult_le_compat_r; [| apply Qlt_le_weak, pow2_pos].
      rewrite <- Zle_Qle. apply nearest_even_mono.
      apply Qmult_le_compat_r; [exact Hxy |].
      apply Qinv_le_0_compat, Qlt_le_weak, pow2_pos.
    + apply Qle_trans with (pow2 (exponent x + 1));
        [apply round_pos_upper, Hpos |].
      apply Qle_trans with (pow2 (exponent y)); [apply pow2_le; lia |].
      apply round_pos_lower, exponent_below; [exact Hy |].
      assert (H0 : (-1022 <= exponent x)%Z) by (unfold exponent; lia). lia.
  - rewrite (round_pos_zero x) by lra. apply round_pos_nonneg. lra.
Qed.

(** Rounding keeps the order. *)
Lemma round_mono (x y : Q) : x <= y -> round x <= round y.
Proof.
  intro H. unfold round.
  destruct (Qle_bool 0 x) eqn:Ex, (Qle_bool 0 y) eqn:Ey.
  - apply Qle_bool_iff in Ex. apply round_pos_mono; assumption.
  - apply Qle_bool_iff in Ex.
    assert (Hy : ~ 0 <= y) by (intro Hc; apply Qle_bool_iff in Hc; congruence).
    exfalso. lra.
  - apply Qle_bool_iff in Ey.
    assert (Hx : ~ 0 <= x) by (intro Hc; apply Qle_bool_iff in Hc; congruence).
    pose proof (round_pos_nonneg (- x) ltac:(lra)).
    pose proof (round_pos_nonneg y Ey). lra.
  - assert (Hx : ~ 0 <= x) by (intro Hc; apply Qle_bool_iff in Hc; congruence).
    assert (Hy : ~ 0 <= y) by (intro Hc; apply Qle_bool_iff in Hc; congruence).
    pose proof (round_pos_mono (- y) (- x) ltac:(lra) ltac:(lra)). lra.
Qed.

Lemma round_eq (x y : Q) : x == y -> round x == round y.
Proof.
  intro H. apply Qle_antisym; apply round_mono; rewrite H; apply Qle_refl.
Qed.

Lemma scaled_nearest (x t u n : Q) :
  0 < u -> t * u == x -> t - (1 # 2) <= n -> n <= t + (1 # 2) ->
  x - u * (1 # 2) <= n * u /\ n * u <= x + u * (1 # 2).
Proof.
  intros Hu Hs Hlo Hhi.
  assert (H1 : (t - (1 # 2)) * u <= n * u)
    by (apply Qmult_le_compat_r; [exact Hlo | lra]).
  assert (H2 : n * u <= (t + (1 # 2)) * u)
    by (apply Qmult_le_compat_r; [exact Hhi | lra]).
  assert (E1 : (t - (1 # 2)) * u == x - u * (1 # 2))
    by (rewrite <- Hs; ring).
  assert (E2 : (t + (1 # 2)) * u == x + u * (1 # 2))
    by (rewrite <- Hs; ring).
  rewrite E1 in H1. rewrite E2 in H2. split; assumption.
Qed.

(** The rounding error is at most half the spacing of the binade. *)
Lemma round_pos_error (x : Q) (k : Z) :
  (-1022 <= k)%Z -> 0 <= x -> x <= pow2 k ->
  x - pow2 (k - 53) <= round_pos x /\ round_pos x <= x + pow2 (k - 53).
Proof.
  intros Hk Hx Hxk.
  destruct (Qlt_le_dec 0 x) as [Hpos | Hzero].
  - assert (He : (exponent x <= k)%Z).
    { pose proof (ilog2_le x k Hpos Hxk). unfold exponent. lia. }
    destruct (nearest_even_half (x / ulp x)) as [Hlo Hhi].
    assert (Hh : ulp x * (1 # 2) <= pow2 (k - 53)).
    { unfold ulp. change (1 # 2) with (pow2 (-1)). rewrite <- pow2_add.
      apply pow2_le. lia. }
    destruct (scaled_nearest x (x / ulp x) (ulp x)
                (inject_Z (nearest_even (x / ulp x)))
                (ulp_pos x) (scaled x _) Hlo Hhi) as [H1 H2].
    unfold round_pos. split; lra.
  - rewrite (round_pos_zero x) by lra.
    pose proof (pow2_pos (k - 53)). split; lra.
Qed.

Lemma round_error (x : Q) (k : Z) :
  (-1022 <= k)%Z -> - pow2 k <= x -> x <= pow2 k ->
  x - pow2 (k - 53) <= round x /\ round x <= x + pow2 (k - 53).
Proof.
  intros Hk Hlo Hhi. unfold round.
  destruct (Qle_bool 0 x) eqn:E.
  - apply Qle_bool_iff in E. apply round_pos_error; assumption.
  - assert (Hx : ~ 0 <= x) by (intro Hc; apply Qle_bool_iff in Hc; congruence).
    destruct (round_pos_error (- x) k Hk) as [H1 H2]; [lra | lra |].
    split; lra.
Qed.

End Binary64Facts.
Lemma ilog2_lt (x : Q) (k : Z) :
  (0 < x)%Q -> (x < Binary64.pow2 k)%Q -> Binary64.ilog2 x < k.
Proof.
  intros Hx Hk. destruct (ilog2_spec x Hx) as [Hl _].
  apply pow2_lt_inv. eapply Qle_lt_trans; [exact Hl | exact Hk].
Qed.

Lemma Qeq_Qle (x y : Q) : (x == y)%Q -> (x <= y)%Q.
Proof. intro H. rewrite H. apply Qle_refl. Qed.

Lemma round_zero : (Binary64.round 0 == 0)%Q.
Proof. vm_compute. reflexivity. Qed.

(** A double below 1 is at most the largest one, [1 - 2^-53]. *)
Lemma representable_below_one (x : Q) :
  Binary64.representable x -> (0 <= x)%Q -> (x < 1)%Q ->
  (x <= 1 - Binary64.pow2 (-53))%Q.
Proof.
  unfold Binary64.representable. intros Hr H0 H1.
  destruct (Qlt_le_dec 0 x) as [Hpos | Hzero].
  - assert (Hround : (Binary64.round_pos x == x)%Q).
    { unfold Binary64.round in Hr.
      destruct (Qle_bool 0 x) eqn:E; [exact Hr |].
      exfalso. apply Qle_bool_iff in H0. congruence. }
    assert (He : Binary64.exponent x <= -1).
    { assert (Hl : Binary64.ilog2 x < 0)
        by (apply ilog2_lt; [exact Hpos | exact H1]).
      unfold Binary64.exponent. lia. }
    destruct (Z.eq_dec (Binary64.exponent x) (-1)) as [Heq | Hne].
    + unfold Binary64.round_pos, Binary64.ulp in Hround. rewrite Heq in Hround.
      change (-1 - 52) with (-53) in Hround.
      set (n := Binary64.nearest_even (x / Binary64.pow2 (-53))) in Hround.
      assert (Hn : n < 2 ^ 53).
      { rewrite Zlt_Qlt.
        apply Qmult_lt_r with (Binary64.pow2 (-53)); [apply pow2_pos |].
        rewrite Hround.
        assert (E : (inject_Z (2 ^ 53) * Binary64.pow2 (-53) == 1)%Q)
          by (vm_compute; reflexivity).
        rewrite E. exact H1. }
      assert (Hn' : (inject_Z n <= inject_Z (2 ^ 53 - 1))%Q)
        by (rewrite <- Zle_Qle; lia).
      rewrite <- Hround.
      apply Qle_trans with (inject_Z (2 ^ 53 - 1) * Binary64.pow2 (-53))%Q.
      * apply Qmult_le_compat_r; [exact Hn' | apply Qlt_le_weak, pow2_pos].
      * vm_compute. discriminate.
    + pose proof (exponent_above x Hpos) as Hup.
      assert (Hp : (Binary64.pow2 (Binary64.exponent x + 1)
                    <= Binary64.pow2 (-1))%Q) by (apply pow2_le; lia).
      apply Qle_trans with (Binary64.pow2 (-1)); [lra |].
      vm_compute. discriminate.
  - apply Qle_trans with 0%Q; [exact Hzero |]. vm_compute. discriminate.
Qed.

Lemma round_of_nonneg (x : Q) :
  (0 <= x)%Q -> Binary64.round x = Binary64.round_pos x.
Proof.
  intro H. unfold Binary64.round. apply Qle_bool_iff in H. rewrite H.
  reflexivity.
Qed.

(** From here on the rounding is used through its order and its error
    bound, and evaluated on constants only. *)
Opaque Binary64.round.

(** ** Scoring *)

Lemma scoreOne_raw (d : Data) : scoreOne d = Z.max 0 (Math_round (rawScore d)).
Proof. reflexivity. Qed.

Lemma scoreOne_nonneg (d : Data) : 0 <= scoreOne d.
Proof. unfold scoreOne. lia. Qed.

Lemma literal_nonneg (x : Q) : (0 <= x)%Q -> (0 <= Binary64.literal x)%Q.
Proof.
  intro H. unfold Binary64.literal. rewrite <- round_zero.
  apply round_mono, H.
Qed.

Lemma mul_mono (c x y : Q) :
  (0 <= c)%Q -> (x <= y)%Q -> (Binary64.mul c x <= Binary64.mul c y)%Q.
Proof.
  intros Hc H. apply round_mono.
  rewrite !(Qmult_comm c). apply Qmult_le_compat_r; assumption.
Qed.

Lemma add_mono (x x' y y' : Q) :
  (x <= x')%Q -> (y <= y')%Q -> (Binary64.add x y <= Binary64.add x' y')%Q.
Proof. intros Hx Hy. apply round_mono. lra. Qed.

Lemma sub_mono (x y y' : Q) :
  (y <= y')%Q -> (Binary64.sub x y' <= Binary64.sub x y)%Q.
Proof. intro Hy. apply round_mono. lra. Qed.

(** Every operation of [scoreOne] keeps or reverses the order of its
    arguments. *)
Lemma rawScore_antitone (m1 m2 : Data) :
  (loadTime m1 <= loadTime m2)%Q ->
  (cpuTime m1 <= cpuTime m2)%Q ->
  (networkLatency m1 <= networkLatency m2)%Q ->
  (memoryUsage m1 <= memoryUsage m2)%Q ->
  (rawScore m2 <= rawScore m1)%Q.
Proof.
  intros HL HC HN HM. unfold rawScore.
  apply sub_mono.
  apply add_mono; [apply add_mono; [apply add_mono |] |];
    apply mul_mono; try assumption; apply literal_nonneg; discriminate.
Qed.

Lemma scoreOne_order (m1 m2 : Data) :
  (loadTime m1 <= loadTime m2)%Q ->
  (cpuTime m1 <= cpuTime m2)%Q ->
  (networkLatency m1 <= networkLatency m2)%Q ->
  (memoryUsage m1 <= memoryUsage m2)%Q ->
  scoreOne m2 <= scoreOne m1.
Proof.
  intros HL HC HN HM. rewrite !scoreOne_raw.
  apply Z.max_le_compat_l, Math_round_mono, rawScore_antitone; assumption.
Qed.

(** The doubles that the four literals denote. *)
Lemma literal_values :
  (Binary64.literal 0.4 == 3602879701896397 # 9007199254740992
   /\ Binary64.literal 0.3 == 5404319552844595 # 18014398509481984
   /\ Binary64.literal 0.2 == 3602879701896397 # 18014398509481984
   /\ Binary64.literal 0.1 == 3602879701896397 # 36028797018963968)%Q.
Proof. repeat split; vm_compute; reflexivity. Qed.

(** The rounding of a value known between two bounds. *)
Lemma round_between (x lo hi : Q) (k : Z) :
  -1022 <= k ->
  (- Binary64.pow2 k <= lo)%Q -> (hi <= Binary64.pow2 k)%Q ->
  (lo <= x)%Q -> (x <= hi)%Q ->
  (lo - Binary64.pow2 (k - 53) <= Binary64.round x
   /\ Binary64.round x <= hi + Binary64.pow2 (k - 53))%Q.
Proof.
  intros Hk Hlo Hhi Hx1 Hx2.
  destruct (round_error x k Hk) as [H1 H2]; [lra | lra |]. split; lra.
Qed.

(** Within range the binary64 value is within [tolerance] of the exact
    one. *)
Lemma rawScore_close (m : Data) :
  withinRange m ->
  (1000 - Spec.penalty m - tolerance <= rawScore m
   /\ rawScore m <= 1000 - Spec.penalty m + tolerance)%Q.
Proof.
  unfold withinRange, rawScore, Spec.penalty, tolerance,
    Binary64.sub, Binary64.add, Binary64.mul.
  destruct literal_values as (H4 & H3 & H2 & H1).
  set (l := loadTime m). set (c := cpuTime m).
  set (n := networkLatency m). set (u := memoryUsage m).
  intros (Hl & Hc & Hn & Hu).
  assert (P4 : ((3602879701896397 # 9007199254740992) * l
                - Binary64.pow2 (31 - 53)
                <= Binary64.round (Binary64.literal 0.4 * l)
                /\ Binary64.round (Binary64.literal 0.4 * l)
                   <= (3602879701896397 # 9007199254740992) * l
                      + Binary64.pow2 (31 - 53))%Q).
  { apply round_between; [lia | | | rewrite H4; apply Qle_refl
                         | rewrite H4; apply Qle_refl];
      change (Binary64.pow2 31) with 2147483648%Q; lra. }
  assert (P3 : ((5404319552844595 # 18014398509481984) * c
                - Binary64.pow2 (31 - 53)
                <= Binary64.round (Binary64.literal 0.3 * c)
                /\ Binary64.round (Binary64.literal 0.3 * c)
                   <= (5404319552844595 # 18014398509481984) * c
                      + Binary64.pow2 (31 - 53))%Q).
  { apply round_between; [lia | | | rewrite H3; apply Qle_refl
                         | rewrite H3; apply Qle_refl];
      change (Binary64.pow2 31) with 2147483648%Q; lra. }
  assert (P2 : ((3602879701896397 # 18014398509481984) * n
                - Binary64.pow2 (31 - 53)
                <= Binary64.round (Binary64.literal 0.2 * n)
                /\ Binary64.round (Binary64.literal 0.2 * n)
                   <= (3602879701896397 # 18014398509481984) * n
                      + Binary64.pow2 (31 - 53))%Q).
  { apply round_between; [lia | | | rewrite H2; apply Qle_refl
                         | rewrite H2; apply Qle_refl];
      change (Binary64.pow2 31) with 2147483648%Q; lra. }
  assert (P1 : ((3602879701896397 # 36028797018963968) * u
                - Binary64.pow2 (31 - 53)
                <= Binary64.round (Binary64.literal 0.1 * u)
                /\ Binary64.round (Binary64.literal 0.1 * u)
                   <= (3602879701896397 # 36028797018963968) * u
                      + Binary64.pow2 (31 - 53))%Q).
  { apply round_between; [lia | | | rewrite H1; apply Qle_refl
                         | rewrite H1; apply Qle_refl];
      change (Binary64.pow2 31) with 2147483648%Q; lra. }
  change (Binary64.pow2 (31 - 53)) with (1 # 4194304)%Q in P4, P3, P2, P1.
  clear H4 H3 H2 H1.
  set (p4 := Binary64.round (Binary64.literal 0.4 * l)) in *.
  set (p3 := Binary64.round (Binary64.literal 0.3 * c)) in *.
  set (p2 := Binary64.round (Binary64.literal 0.2 * n)) in *.
  set (p1 := Binary64.round (Binary64.literal 0.1 * u)) in *.
  clearbody p4 p3 p2 p1.
  destruct P4 as [P4a P4b], P3 as [P3a P3b], P2 as [P2a P2b],
           P1 as [P1a P1b].
  destruct (round_between (p4 + p3) (p4 + p3) (p4 + p3) 33 ltac:(lia))
    as [S1a S1b];
    [change (Binary64.pow2 33) with 8589934592%Q; lra
    | change (Binary64.pow2 33) with 8589934592%Q; lra
    | apply Qle_refl | apply Qle_refl |].
  change (Binary64.pow2 (33 - 53)) with (1 # 1048576)%Q in S1a, S1b.
  set (s1 := Binary64.round (p4 + p3)) in *. clearbody s1.
  destruct (round_between (s1 + p2) (s1 + p2) (s1 + p2) 34 ltac:(lia))
    as [S2a S2b];
    [change (Binary64.pow2 34) with 17179869184%Q; lra
    | change (Binary64.pow2 34) with 17179869184%Q; lra
    | apply Qle_refl | apply Qle_refl |].
  change (Binary64.pow2 (34 - 53)) with (1 # 524288)%Q in S2a, S2b.
  set (s2 := Binary64.round (s1 + p2)) in *. clearbody s2.
  destruct (round_between (s2 + p1) (s2 + p1) (s2 + p1) 35 ltac:(lia))
    as [S3a S3b];
    [change (Binary64.pow2 35) with 34359738368%Q; lra
    | change (Binary64.pow2 35) with 34359738368%Q; lra
    | apply Qle_refl | apply Qle_refl |].
  change (Binary64.pow2 (35 - 53)) with (1 # 262144)%Q in S3a, S3b.
  set (s3 := Binary64.round (s2 + p1)) in *. clearbody s3.
  destruct (round_between (1000 - s3) (1000 - s3) (1000 - s3) 36 ltac:(lia))
    as [Ra Rb];
    [change (Binary64.pow2 36) with 68719476736%Q; lra
    | change (Binary64.pow2 36) with 68719476736%Q; lra
    | apply Qle_refl | apply Qle_refl |].
  change (Binary64.pow2 (36 - 53)) with (1 # 131072)%Q in Ra, Rb.
  set (r := Binary64.round (1000 - s3)) in *. clearbody r.
  split; lra.
Qed.

Lemma Math_round_shift (x : Q) (k : Z) :
  Math_round (x + inject_Z k) = Math_round x + k.
Proof.
  symmetry. apply (rounds_to_unique (x + inject_Z k)).
  - pose proof (Math_round_rounds x) as [H1 H2].
    unfold Spec.rounds_to. rewrite inject_Z_plus. split; lra.
  - apply Math_round_rounds.
Qed.

Lemma Math_round_exact (x : Q) (n : Z) :
  (inject_Z n - (1 # 2) <= x)%Q -> (x < inject_Z n + (1 # 2))%Q ->
  Math_round x = n.
Proof.
  intros H1 H2. symmetry. apply (rounds_to_unique x).
  - split; assumption.
  - apply Math_round_rounds.
Qed.

(** Within range the score is within one of the score of the exact
    formula. *)
Lemma scoreOne_close (m : Data) (r : Z) :
  withinRange m -> Spec.score m r -> r - 1 <= scoreOne m <= r + 1.
Proof.
  intros Hm [n [Hn ->]]. rewrite scoreOne_raw.
  destruct (rawScore_close m Hm) as [Hlo Hhi]. unfold tolerance in *.
  assert (E : n = Math_round (1000 - Spec.penalty m))
    by (eapply rounds_to_unique; [exact Hn | apply Math_round_rounds]).
  assert (H1 : Math_round (1000 - Spec.penalty m + inject_Z (-1))
               <= Math_round (rawScore m))
    by (apply Math_round_mono; change (inject_Z (-1)) with (-1)%Q; lra).
  assert (H2 : Math_round (rawScore m)
               <= Math_round (1000 - Spec.penalty m + inject_Z 1))
    by (apply Math_round_mono; change (inject_Z 1) with 1%Q; lra).
  rewrite Math_round_shift in H1, H2. lia.
Qed.

(** Within range the score is the one of the exact formula when the exact
    value is not within [tolerance] of a tie. *)
Lemma scoreOne_exact (m : Data) (n : Z) :
  withinRange m ->
  (inject_Z n - (1 # 2) + tolerance <= 1000 - Spec.penalty m)%Q ->
  (1000 - Spec.penalty m < inject_Z n + (1 # 2) - tolerance)%Q ->
  scoreOne m = Z.max 0 n.
Proof.
  intros Hm H1 H2. rewrite scoreOne_raw. f_equal.
  destruct (rawScore_close m Hm) as [Hlo Hhi]. unfold tolerance in *.
  apply Math_round_exact; lra.
Qed.

Lemma scoreOne_negative_load (k : Z) :
  0 <= k <= 400000000 ->
  scoreOne (measurement (inject_Z (- 10 * k)) 0 0 0) = 1000 + 4 * k.
Proof.
  intro Hk.
  rewrite (scoreOne_exact _ (1000 + 4 * k)); [lia | | |].
  - unfold withinRange, measurement.
    cbn [loadTime cpuTime networkLatency memoryUsage].
    assert (H1 : (inject_Z (-4000000000) <= inject_Z (- 10 * k))%Q)
      by (rewrite <- Zle_Qle; lia).
    assert (H2 : (inject_Z (- 10 * k) <= inject_Z 0)%Q)
      by (rewrite <- Zle_Qle; lia).
    change (inject_Z (-4000000000)) with (-4000000000)%Q in H1.
    change (inject_Z 0) with 0%Q in H2.
    repeat split; lra.
  - unfold Spec.penalty, measurement, tolerance.
    cbn [loadTime cpuTime networkLatency memoryUsage].
    rewrite !inject_Z_plus, !inject_Z_mult.
    change (inject_Z 1000) with 1000%Q. change (inject_Z 4) with 4%Q.
    change (inject_Z (-10)) with (-10)%Q. lra.
  - unfold Spec.penalty, measurement, tolerance.
    cbn [loadTime cpuTime networkLatency memoryUsage].
    rewrite !inject_Z_plus, !inject_Z_mult.
    change (inject_Z 1000) with 1000%Q. change (inject_Z 4) with 4%Q.
    change (inject_Z (-10)) with (-10)%Q. lra.
Qed.

Lemma scoreOne_at_most_1000 (d : Data) : nonNegative d -> scoreOne d <= 1000.
Proof.
  intros (HL & HC & HN & HM).
  replace 1000 with (scoreOne (measurement 0 0 0 0))
    by (vm_compute; reflexivity).
  apply scoreOne_order; assumption.
Qed.

Lemma scoreOne_slow_load (d : Data) :
  nonNegative d -> (2500 <= loadTime d)%Q -> scoreOne d = 0.
Proof.
  intros (HL & HC & HN & HM) Hslow.
  assert (H : scoreOne d <= scoreOne (measurement 2500 0 0 0))
    by (apply scoreOne_order; assumption).
  replace (scoreOne (measurement 2500 0 0 0)) with 0 in H
    by (vm_compute; reflexivity).
  pose proof (scoreOne_nonneg d). lia.
Qed.

(** C2: [scoreOne] is [max(0, round(1000 - (0.4 load + 0.3 cpu + 0.2 net +
    0.1 mem)))] with the products, the sums and the difference computed in
    binary64.  For metrics between -2^32 and 2^32 it is within one of the
    score of the exact formula, and equal to it when the exact value of
    [1000 - penalty] is not within 2^-15 of a tie of the rounding.  The
    all-zero measurement scores 1000; a score is never negative, and it is
    0 when the exact penalty reaches 1000 and for every load time from
    2500 on (so for 100000); no bound caps it from above: a load time of
    [-10 k] scores [1000 + 4 k], and only non-negative metrics keep the
    score within 1000. *)
Theorem scoreOne_formula :
  (forall m r, withinRange m -> Spec.score m r -> r - 1 <= scoreOne m <= r + 1)
  /\ (forall m n,
         withinRange m ->
         (inject_Z n - (1 # 2) + tolerance <= 1000 - Spec.penalty m)%Q ->
         (1000 - Spec.penalty m < inject_Z n + (1 # 2) - tolerance)%Q ->
         scoreOne m = Z.max 0 n)
  /\ scoreOne (measurement 0 0 0 0) = 1000
  /\ scoreOne (measurement 100000 0 0 0) = 0
  /\ (forall m, 0 <= scoreOne m)
  /\ (forall m, withinRange m -> (1000 <= Spec.penalty m)%Q -> scoreOne m = 0)
  /\ (forall m, nonNegative m -> (2500 <= loadTime m)%Q -> scoreOne m = 0)
  /\ (forall k, 0 <= k <= 400000000 ->
        scoreOne (measurement (inject_Z (- 10 * k)) 0 0 0) = 1000 + 4 * k)
  /\ (forall m, nonNegative m -> scoreOne m <= 1000).
Proof.
  split; [exact scoreOne_close |].
  split; [exact scoreOne_exact |].
  split; [vm_compute; reflexivity |].
  split; [vm_compute; reflexivity |].
  split; [exact scoreOne_nonneg |].
  split; [| split; [exact scoreOne_slow_load |
                    split; [exact scoreOne_negative_load
                           | exact scoreOne_at_most_1000]]].
  intros m Hm Hp. rewrite scoreOne_raw.
  destruct (rawScore_close m Hm) as [_ Hhi]. unfold tolerance in Hhi.
  assert (H : Math_round (rawScore m) <= 0)
    by (apply Math_round_nonpos; lra).
  lia.
Qed.

(** Two measurements at a tie of the exact formula, which gives them 511
    and 1. *)
Example scoreOne_at_ties :
  scoreOne (measurement 1223 1 0 0) = 510
  /\ Z.max 0 (Math_round (1000 - Spec.penalty (measurement 1223 1 0 0))) = 511
  /\ scoreOne (measurement 2492 9 0 0) = 0
  /\ Z.max 0 (Math_round (1000 - Spec.penalty (measurement 2492 9 0 0))) = 1.
Proof. repeat split; vm_compute; reflexivity. Qed.

(** The exact formula gives the measurement of load time 1223 and CPU time
    1 the value 510.5, so the score 511; the binary64 sum of the two
    products is above 489.5, and the code returns 510. *)
Lemma score_is_exact_formula_fails : ~ score_is_exact_formula.
Proof.
  intro H. specialize (H (measurement 1223 1 0 0)).
  replace (scoreOne (measurement 1223 1 0 0)) with 510 in H
    by (vm_compute; reflexivity).
  destruct H as [n [[H1 H2] Hn]].
  unfold Spec.penalty, measurement in H1, H2.
  cbn [loadTime cpuTime networkLatency memoryUsage] in H1, H2.
  assert (Hq : (inject_Z n <= inject_Z 511)%Q /\ (inject_Z 510 < inject_Z n)%Q)
    by (change (inject_Z 511) with 511%Q; change (inject_Z 510) with 510%Q;
        split; lra).
  destruct Hq as [Ha Hb]. rewrite <- Zle_Qle in Ha. rewrite <- Zlt_Qlt in Hb.
  lia.
Qed.

Lemma fold_left_scores (items : list Data) (acc : Z) :
  fold_left (fun acc it => acc + scoreOne it) items acc
  = acc + Spec.total (List.map scoreOne items).
Proof.
  revert acc. induction items as [| it items IH]; intro acc; simpl.
  - lia.
  - rewrite IH. lia.
Qed.


(** *** The exact sum and quotient are the binary64 ones *)

Lemma inject_Z_sub (a b : Z) :
  (inject_Z (a - b) == inject_Z a - inject_Z b)%Q.
Proof.
  unfold Z.sub. rewrite inject_Z_plus, inject_Z_opp. reflexivity.
Qed.

(** A positive multiple of [2^-c] below [2^(53-c)] is a double. *)
Lemma round_dyadic (x : Q) (n c : Z) :
  0 <= c <= 1000 ->
  (0 < x)%Q ->
  (x == inject_Z n * Binary64.pow2 (- c))%Q ->
  (x < Binary64.pow2 (53 - c))%Q ->
  (Binary64.round x == x)%Q.
Proof.
  intros Hc Hx Hn Hlt.
  rewrite (round_of_nonneg x) by lra.
  assert (He : Binary64.exponent x <= 52 - c).
  { pose proof (ilog2_lt x (53 - c) Hx Hlt). unfold Binary64.exponent. lia. }
  unfold Binary64.round_pos, Binary64.ulp.
  set (e := Binary64.exponent x) in *. clearbody e.
  set (j := 52 - c - e).
  assert (Hj : 0 <= j) by (unfold j; lia).
  assert (Hx' : (x == inject_Z (n * 2 ^ j) * Binary64.pow2 (e - 52))%Q).
  { rewrite Hn, inject_Z_mult, <- (pow2_nat j Hj), <- Qmult_assoc,
      <- pow2_add.
    replace (j + (e - 52)) with (- c) by (unfold j; lia). reflexivity. }
  assert (Hgrid : (x / Binary64.pow2 (e - 52) == inject_Z (n * 2 ^ j))%Q).
  { apply Qmult_inj_r with (Binary64.pow2 (e - 52)).
    - intro H0. pose proof (pow2_pos (e - 52)) as Hu. rewrite H0 in Hu.
      discriminate.
    - rewrite scaled. exact Hx'. }
  rewrite (nearest_even_integer _ _ Hgrid). symmetry. exact Hx'.
Qed.

(** A natural number below [2^53] is a double. *)
Lemma round_natural (z : Z) :
  0 <= z < 2 ^ 53 -> (Binary64.round (inject_Z z) == inject_Z z)%Q.
Proof.
  intros [H0 H53].
  destruct (Z.eq_dec z 0) as [-> | Hz]; [exact round_zero |].
  apply (round_dyadic (inject_Z z) z 0); [lia | | |].
  - change 0%Q with (inject_Z 0). rewrite <- Zlt_Qlt. lia.
  - change (Binary64.pow2 (- 0)) with 1%Q. ring.
  - change (Binary64.pow2 (53 - 0)) with (inject_Z (2 ^ 53)).
    rewrite <- Zlt_Qlt. exact H53.
Qed.

(** A non-negative half of an integer below [2^52] is a double. *)
Lemma round_half (m : Z) :
  0 <= m < 2 ^ 53 ->
  (Binary64.round (inject_Z m * (1 # 2)) == inject_Z m * (1 # 2))%Q.
Proof.
  intros [H0 H53].
  destruct (Z.eq_dec m 0) as [-> | Hm]; [exact round_zero |].
  assert (Hpos : (0 < inject_Z m)%Q)
    by (change 0%Q with (inject_Z 0); rewrite <- Zlt_Qlt; lia).
  assert (Hlt : (inject_Z m < inject_Z (2 ^ 53))%Q)
    by (rewrite <- Zlt_Qlt; exact H53).
  apply (round_dyadic (inject_Z m * (1 # 2)) m 1); [lia | lra | |].
  - change (Binary64.pow2 (- 1)) with (1 # 2)%Q. reflexivity.
  - change (Binary64.pow2 (53 - 1)) with 4503599627370496%Q.
    change (inject_Z (2 ^ 53)) with 9007199254740992%Q in Hlt. lra.
Qed.

(** The binary64 sum of natural numbers whose total is below [2^53] is
    their sum. *)
Lemma binary64_sum (items : list Data) :
  forall (acc : Q) (a : Z),
    (acc == inject_Z a)%Q -> 0 <= a ->
    a + Spec.total (List.map scoreOne items) < 2 ^ 53 ->
    (fold_left (fun acc it => Binary64.add acc (inject_Z (scoreOne it)))
       items acc
     == inject_Z (a + Spec.total (List.map scoreOne items)))%Q.
Proof.
  induction items as [| it items IH]; intros acc a Hacc Ha Hsum;
    cbn [fold_left List.map Spec.total] in *.
  - rewrite Z.add_0_r. exact Hacc.
  - pose proof (scoreOne_nonneg it) as Hit.
    assert (Hrest : 0 <= Spec.total (List.map scoreOne items)).
    { clear. induction items as [| x l IHl]; cbn [List.map Spec.total];
        [lia | pose proof (scoreOne_nonneg x); lia]. }
    rewrite (IH _ (a + scoreOne it)); [| | lia | lia].
    + rewrite Z.add_assoc. reflexivity.
    + unfold Binary64.add.
      rewrite (round_eq _ (inject_Z (a + scoreOne it)))
        by (rewrite inject_Z_plus, Hacc; reflexivity).
      apply round_natural. lia.
Qed.

(** [Math.round] of the binary64 quotient of a natural number up to [2^40]
    by a count up to 1024 is [Math.round] of the exact quotient. *)
Lemma binary64_quotient (total count : Z) :
  0 <= total <= 2 ^ 40 -> 1 <= count <= 1024 ->
  Math_round (Binary64.div (inject_Z total) (inject_Z count))
  = Math_round (inject_Z total / inject_Z count).
Proof.
  intros Ht Hc. unfold Binary64.div.
  set (q := (inject_Z total / inject_Z count)%Q).
  set (r := Math_round q).
  destruct (Math_round_rounds q) as [Hlo Hhi]. fold r in Hlo, Hhi.
  assert (HcQ : (0 < inject_Z count)%Q)
    by (change 0%Q with (inject_Z 0); rewrite <- Zlt_Qlt; lia).
  assert (Hcount : (inject_Z count <= 1024)%Q)
    by (change 1024%Q with (inject_Z 1024); rewrite <- Zle_Qle; lia).
  assert (Hq : (q * inject_Z count == inject_Z total)%Q).
  { unfold q. field. intro H0. rewrite H0 in HcQ. discriminate. }
  assert (Hq0 : (0 <= q)%Q).
  { unfold q. apply Qle_shift_div_l; [exact HcQ |]. rewrite Qmult_0_l.
    change 0%Q with (inject_Z 0). rewrite <- Zle_Qle. lia. }
  assert (Hq40 : (q <= 1099511627776)%Q).
  { unfold q. apply Qle_shift_div_r; [exact HcQ |].
    change 1099511627776%Q with (inject_Z (2 ^ 40)).
    rewrite <- inject_Z_mult, <- Zle_Qle. nia. }
  destruct (round_error q 40 ltac:(lia)) as [Elo Ehi].
  { change (Binary64.pow2 40) with 1099511627776%Q. lra. }
  { change (Binary64.pow2 40) with 1099511627776%Q. exact Hq40. }
  change (Binary64.pow2 (40 - 53)) with (1 # 8192)%Q in Elo, Ehi.
  assert (Hbelow : ((inject_Z r - (1 # 2)) * inject_Z count
                    <= q * inject_Z count)%Q)
    by (apply Qmult_le_compat_r; [exact Hlo | lra]).
  assert (Habove : (q * inject_Z count
                    < (inject_Z r + (1 # 2)) * inject_Z count)%Q)
    by (apply Qmult_lt_compat_r; [exact HcQ | exact Hhi]).
  assert (Hz1 : (2 * r - 1) * count <= 2 * total).
  { rewrite Zle_Qle, !inject_Z_mult, inject_Z_sub, inject_Z_mult.
    change (inject_Z 2) with 2%Q. change (inject_Z 1) with 1%Q. lra. }
  assert (Hz2 : 2 * total + 1 <= (2 * r + 1) * count).
  { assert (Hlt : 2 * total < (2 * r + 1) * count); [| lia].
    rewrite Zlt_Qlt, !inject_Z_mult, inject_Z_plus, inject_Z_mult.
    change (inject_Z 2) with 2%Q. change (inject_Z 1) with 1%Q. lra. }
  assert (Hs : ((1 # 2048) * (inject_Z count * 2) <= 1)%Q) by lra.
  apply Math_round_exact; fold r.
  - destruct (Z.eq_dec (2 * total) ((2 * r - 1) * count)) as [Htie | Hoff].
    + assert (Hqt : (q == inject_Z (2 * r - 1) * (1 # 2))%Q).
      { apply Qmult_inj_r with (inject_Z count);
          [intro H0; rewrite H0 in HcQ; discriminate |].
        rewrite Hq.
        assert (E : (inject_Z (2 * total)
                     == inject_Z ((2 * r - 1) * count))%Q)
          by (rewrite Htie; reflexivity).
        rewrite !inject_Z_mult in E. change (inject_Z 2) with 2%Q in E.
        lra. }
      assert (Hm : 0 <= 2 * r - 1 < 2 ^ 53).
      { assert (HQ : (inject_Z 0 <= inject_Z (2 * r - 1))%Q
                     /\ (inject_Z (2 * r - 1) < inject_Z (2 ^ 53))%Q).
        { change (inject_Z 0) with 0%Q.
          change (inject_Z (2 ^ 53)) with 9007199254740992%Q.
          split; lra. }
        destruct HQ as [H1 H2].
        rewrite <- Zle_Qle in H1. rewrite <- Zlt_Qlt in H2. lia. }
      apply Qle_trans with (inject_Z (2 * r - 1) * (1 # 2))%Q.
      * rewrite inject_Z_sub, inject_Z_mult.
        change (inject_Z 2) with 2%Q. change (inject_Z 1) with 1%Q. lra.
      * apply Qeq_Qle. symmetry.
        apply Qeq_trans with (Binary64.round (inject_Z (2 * r - 1) * (1 # 2)));
          [apply round_eq, Hqt | apply round_half, Hm].
    + assert (Hz : (2 * r - 1) * count + 1 <= 2 * total) by lia.
      rewrite Zle_Qle, inject_Z_plus, !inject_Z_mult, inject_Z_sub,
        inject_Z_mult in Hz.
      change (inject_Z 2) with 2%Q in Hz. change (inject_Z 1) with 1%Q in Hz.
      assert (Hfar : (inject_Z r - (1 # 2) + (1 # 2048) <= q)%Q).
      { apply Qmult_le_r with (inject_Z count * 2)%Q; [lra |]. lra. }
      lra.
  - rewrite Zle_Qle, inject_Z_plus, !inject_Z_mult, inject_Z_plus,
      inject_Z_mult in Hz2.
    change (inject_Z 2) with 2%Q in Hz2. change (inject_Z 1) with 1%Q in Hz2.
    assert (Hfar : (q + (1 # 2048) <= inject_Z r + (1 # 2))%Q).
    { apply Qmult_le_r with (inject_Z count * 2)%Q; [lra |]. lra. }
    lra.
Qed.

(** For up to 1024 items whose scores sum to at most [2^40], so for the
    five results of a run with scores within 1000, the exact sum and
    quotient of [averageScore] give what the binary64 operations give. *)
Lemma averageScore_binary64_agrees (items : list Data) :
  (length items <= 1024)%nat ->
  Spec.total (List.map scoreOne items) <= 2 ^ 40 ->
  averageScore_binary64 items = averageScore items.
Proof.
  intros Hlen Hsum. unfold averageScore_binary64, averageScore.
  destruct (Nat.eqb_spec (length items) 0) as [H0 | H0]; [reflexivity |].
  cbv zeta. rewrite fold_left_scores. cbn [Z.add].
  assert (Hnn : 0 <= Spec.total (List.map scoreOne items)).
  { clear. induction items as [| x l IHl]; cbn [List.map Spec.total];
      [lia | pose proof (scoreOne_nonneg x); lia]. }
  pose proof (binary64_sum items 0%Q 0 ltac:(reflexivity) ltac:(lia)
                ltac:(cbn [Z.add]; lia)) as Hfold.
  cbn [Z.add] in Hfold.
  rewrite <- (binary64_quotient (Spec.total (List.map scoreOne items))
                (Z.of_nat (length items))) by lia.
  unfold Binary64.div, Math_round.
  apply Qfloor_comp. apply Qplus_comp; [| reflexivity].
  apply round_eq. rewrite Hfold. reflexivity.
Qed.

(** The mean of 1000 and 999 is 999.5: the average is 1000, not 999. *)
Example averageScore_rounds_half_up :
  averageScore [measurement 0 0 0 0; measurement 2.5 0 0 0] = 1000
  /\ Qfloor (Spec.mean (List.map scoreOne
               [measurement 0 0 0 0; measurement 2.5 0 0 0])) = 999.
Proof. split; reflexivity. Qed.


(** C10: a measurement that is no larger in any of the four metrics scores
    at least as much. *)
Theorem scoreOne_antitone (m1 m2 : Data) :
  (loadTime m1 <= loadTime m2)%Q ->
  (cpuTime m1 <= cpuTime m2)%Q ->
  (networkLatency m1 <= networkLatency m2)%Q ->
  (memoryUsage m1 <= memoryUsage m2)%Q ->
  scoreOne m2 <= scoreOne m1.
Proof.
  intros HL HC HN HM. rewrite !scoreOne_raw.
  apply Z.max_le_compat_l, Math_round_mono.
  apply rawScore_antitone; assumption.
Qed.

Lemma scoreOne_antitone_witness :
  scoreOne (measurement 900 300 50 80) <= scoreOne (measurement 120.5 300 40 64).
Proof.
  apply (scoreOne_antitone (measurement 120.5 300 40 64)
                           (measurement 900 300 50 80));
    cbn [loadTime cpuTime networkLatency memoryUsage measurement];
    unfold Qle; simpl; lia.
Defined.

(** ** Strings *)

Lemma jsstring_eqb_eq (a b : jsstring) : jsstring_eqb a b = true <-> a = b.
Proof.
  unfold jsstring_eqb. destruct (list_eq_dec N.eq_dec a b); split;
    congruence.
Qed.

Lemma trimStart_nil_iff (s : jsstring) :
  trimStart s = [] <-> Forall (fun c => is_whitespace c = true) s.
Proof.
  induction s as [| c r IH]; simpl.
  - split; auto.
  - destruct (is_whitespace c) eqn:Hc.
    + rewrite IH. split; intro H.
      * constructor; assumption.
      * inversion H; assumption.
    + split; intro H; [discriminate | inversion H; congruence].
Qed.

Lemma trimStart_whitespace (s : jsstring) :
  Forall (fun c => is_whitespace c = true) (trimStart s) -> trimStart s = [].
Proof.
  induction s as [| c r IH]; simpl; auto.
  destruct (is_whitespace c) eqn:Hc; auto.
  intro H. inversion H; congruence.
Qed.

(** [s.trim()] is empty exactly when [s] is empty or made of white space. *)
Lemma trim_nil_iff (s : jsstring) :
  trim s = [] <-> Forall (fun c => is_whitespace c = true) s.
Proof.
  unfold trim, trimEnd. split; intro H.
  - assert (Hr : trimStart (rev (trimStart s)) = []).
    { destruct (trimStart (rev (trimStart s))) as [| c l]; [reflexivity |].
      simpl in H. destruct (rev l); discriminate. }
    apply trimStart_nil_iff in Hr.
    apply trimStart_nil_iff, trimStart_whitespace.
    apply Forall_forall. intros c Hc.
    rewrite Forall_forall in Hr. apply Hr, in_rev. rewrite rev_involutive.
    exact Hc.
  - apply trimStart_nil_iff in H. rewrite H. reflexivity.
Qed.

Lemma truthy_false_iff (s : jsstring) : truthy s = false <-> s = [].
Proof. destruct s; simpl; split; congruence. Qed.

(** ** Sorting by index *)

Lemma insert_by_index_perm (x : Data) (l : list Data) :
  Permutation (insert_by_index x l) (x :: l).
Proof.
  induction l as [| y r IH]; simpl; [reflexivity |].
  destruct (index x <=? index y); [reflexivity |].
  rewrite IH. apply perm_swap.
Qed.

Lemma sort_by_index_perm (l : list Data) : Permutation (sort_by_index l) l.
Proof.
  induction l as [| x r IH]; simpl; [reflexivity |].
  rewrite insert_by_index_perm. constructor. exact IH.
Qed.

Lemma insert_by_index_sorted (x : Data) (l : list Data) :
  sorted_by_index l -> sorted_by_index (insert_by_index x l).
Proof.
  induction 1 as [| y | y z l Hyz Hs IH]; simpl.
  - constructor.
  - destruct (index x <=? index y) eqn:E.
    + constructor; [lia | constructor].
    + constructor; [lia | constructor].
  - destruct (index x <=? index y) eqn:E.
    + constructor; [lia |]. constructor; assumption.
    + simpl in IH. destruct (index x <=? index z) eqn:E2.
      * constructor; [lia |]. constructor; [lia | assumption].
      * constructor; assumption.
Qed.

Lemma sort_by_index_sorted (l : list Data) :
  sorted_by_index (sort_by_index l).
Proof.
  induction l as [| x r IH]; simpl.
  - constructor.
  - apply insert_by_index_sorted, IH.
Qed.

Lemma sort_by_index_length (l : list Data) :
  length (sort_by_index l) = length l.
Proof. apply Permutation_length, sort_by_index_perm. Qed.

Lemma sort_by_index_in (l : list Data) (x : Data) :
  In x (sort_by_index l) <-> In x l.
Proof.
  split; apply Permutation_in;
    [| symmetry]; apply sort_by_index_perm.
Qed.

(** ** The message listener, case by case *)

Lemma existsb_index (d : Data) (prev : list Data) :
  existsb (fun p => index p =? index d) prev = true
  <-> In (index d) (List.map index prev).
Proof.
  rewrite existsb_exists, in_map_iff. split.
  - intros [p [Hp He]]. exists p. split; [lia | assumption].
  - intros [p [He Hp]]. exists p. split; [assumption | lia].
Qed.

Lemma onMessage_null (s : State) : onMessage s None = (s, []).
Proof. reflexivity. Qed.

Lemma onMessage_wrong_type (s : State) (d : Data) :
  type_ d <> benchmarkResult -> onMessage s (Some d) = (s, []).
Proof.
  intro H. unfold onMessage.
  destruct (jsstring_eqb (type_ d) benchmarkResult) eqn:E; [| reflexivity].
  apply jsstring_eqb_eq in E. contradiction.
Qed.

Lemma onMessage_other_run (s : State) (d : Data) :
  runId s <> Some (runId_ d) -> onMessage s (Some d) = (s, []).
Proof.
  intro H. unfold onMessage.
  destruct (negb (jsstring_eqb (type_ d) benchmarkResult)); [reflexivity |].
  destruct (runId s) as [rid |]; [| reflexivity].
  destruct (runId_ d =? rid) eqn:E; [| reflexivity].
  exfalso. apply H. f_equal. lia.
Qed.

Lemma onMessage_duplicate (s : State) (d : Data) :
  In (index d) (List.map index (results s)) -> onMessage s (Some d) = (s, []).
Proof.
  intro H. apply existsb_index in H. unfold onMessage.
  destruct (negb (jsstring_eqb (type_ d) benchmarkResult)); [reflexivity |].
  destruct (runId s) as [rid |]; [| reflexivity].
  destruct (negb (runId_ d =? rid)); [reflexivity |].
  rewrite H. reflexivity.
Qed.

(** A result of the active run with a new index is inserted; the insertion
    that reaches the expected count is the completion step. *)
Lemma onMessage_insert (s : State) (d : Data) :
  type_ d = benchmarkResult ->
  runId s = Some (runId_ d) ->
  ~ In (index d) (List.map index (results s)) ->
  onMessage s (Some d) =
  let next := results s ++ [d] in
  if (length next =? expectedCount s)%nat then
    let runRecord := runRecordOf s (runId_ d) next in
    let anySlow :=
      existsb (fun r => gt (loadTime r) loadTimeMs) (sort_by_index next) in
    ({| computerName := computerName s; started := started s;
        results := sort_by_index next;
        history := prepend_capped runRecord (history s);
        runId := runId s; expectedCount := expectedCount s;
        dnsProbe := if anySlow then dnsProbe s else None;
        siteText := siteText s |},
     HistoryAppend runRecord :: (if anySlow then [RunDnsProbe] else []))
  else
    ({| computerName := computerName s; started := started s;
        results := next; history := history s;
        runId := runId s; expectedCount := expectedCount s;
        dnsProbe := dnsProbe s; siteText := siteText s |}, []).
Proof.
  intros Ht Hr Hi. unfold onMessage.
  apply jsstring_eqb_eq in Ht. rewrite Ht, Hr, Z.eqb_refl. cbn [negb].
  destruct (existsb (fun p => index p =? index d) (results s)) eqn:E.
  - apply existsb_index in E. contradiction.
  - cbv zeta.
    destruct (length (results s ++ [d]) =? expectedCount s)%nat;
      [| reflexivity].
    unfold runRecordOf.
    destruct (existsb (fun r => gt (loadTime r) loadTimeMs)
                (sort_by_index (results s ++ [d]))); reflexivity.
Qed.

Lemma onMessage_delivery (s : State) (d : Data) :
  Delivery s d (fst (onMessage s (Some d))) (snd (onMessage s (Some d))).
Proof.
  destruct (list_eq_dec N.eq_dec (type_ d) benchmarkResult) as [Ht | Ht].
  2: { rewrite onMessage_wrong_type by assumption. cbn [fst snd].
       constructor. auto. }
  destruct (runId s) as [rid |] eqn:Hr.
  2: { rewrite onMessage_other_run by congruence. cbn [fst snd].
       constructor. right; left; congruence. }
  destruct (Z.eq_dec (runId_ d) rid) as [He | He].
  2: { rewrite onMessage_other_run by congruence. cbn [fst snd].
       constructor. right; left; congruence. }
  subst rid.
  destruct (in_dec Z.eq_dec (index d) (List.map index (results s)))
    as [Hi | Hi].
  { rewrite onMessage_duplicate by assumption. cbn [fst snd].
    constructor. auto. }
  rewrite onMessage_insert by assumption. cbv zeta.
  rewrite length_app, Nat.add_comm. cbn [length Nat.add].
  destruct (S (length (results s)) =? expectedCount s)%nat eqn:E.
  - apply Nat.eqb_eq in E.
    apply Completed; cbn [fst snd results history runId expectedCount
                            computerName]; auto.
    destruct (existsb _ _); reflexivity.
  - apply Nat.eqb_neq in E.
    apply Inserted; cbn [fst snd results history runId expectedCount
                           computerName dnsProbe]; auto.
Qed.

(** ** Runs of the state machine *)

Lemma run_cons (s : State) (e : Event) (es : list Event) :
  run s (e :: es)
  = (fst (run (fst (step s e)) es),
     snd (step s e) ++ snd (run (fst (step s e)) es)).
Proof.
  simpl. destruct (step s e) as [s1 out1]. simpl.
  destruct (run s1 es) as [s2 out2]. reflexivity.
Qed.

Lemma completions_app (a b : list Effect) :
  completions (a ++ b) = completions a ++ completions b.
Proof.
  induction a as [| e a IH]; simpl; [reflexivity |].
  destruct e; simpl; rewrite IH; reflexivity.
Qed.

Lemma completions_openPopups (rid : Z) (selected : list jsstring) (i : nat) :
  completions (openPopups rid i selected) = [].
Proof.
  revert i. induction selected as [| x r IH]; intro i; simpl; auto.
Qed.

Lemma runBenchmark_history (now : Z) (shuffle : list jsstring -> list jsstring)
    (s : State) :
  completions (snd (runBenchmark now shuffle s)) = []
  /\ history (fst (runBenchmark now shuffle s)) = history s.
Proof.
  unfold runBenchmark.
  destruct (negb (truthy (trim (computerName s)))); [split; reflexivity |].
  destruct (length (sites s) <? 1)%nat; [split; reflexivity |].
  cbn [fst snd history]. split; [apply completions_openPopups | reflexivity].
Qed.

Lemma step_history (s : State) (e : Event) :
  (completions (snd (step s e)) = [] /\ history (fst (step s e)) = history s)
  \/ (exists r, completions (snd (step s e)) = [r]
                /\ history (fst (step s e)) = prepend_capped r (history s)).
Proof.
  destruct e as [[d |] | now shuffle | v | v | p]; cbn [step].
  - destruct (onMessage_delivery s d) as [| s' | s' out]; auto.
    right. eexists; split; eassumption.
  - left. split; reflexivity.
  - left. apply runBenchmark_history.
  - left. split; reflexivity.
  - left. split; reflexivity.
  - left. split; reflexivity.
Qed.

Lemma firstn_app_firstn {A} (n : nat) (a b : list A) :
  firstn n (a ++ firstn n b) = firstn n (a ++ b).
Proof.
  rewrite !firstn_app, firstn_firstn. do 2 f_equal. lia.
Qed.

(** The history is the newest completions first, then the older entries,
    cut to five. *)
Lemma run_history (es : list Event) (s : State) :
  history (fst (run s es))
  = firstn 5 (rev (completions (snd (run s es))) ++ history s)
    \/ (completions (snd (run s es)) = []
        /\ history (fst (run s es)) = history s).
Proof.
  revert s. induction es as [| e es IH]; intro s.
  - right. split; reflexivity.
  - rewrite run_cons. cbn [fst snd]. rewrite completions_app.
    destruct (step_history s e) as [[Hc Hh] | [r [Hc Hh]]]; rewrite Hc.
    + cbn [app]. destruct (IH (fst (step s e))) as [H | [H1 H2]].
      * left. rewrite H, Hh. reflexivity.
      * right. split; congruence.
    + left. cbn [app rev].
      destruct (IH (fst (step s e))) as [H | [H1 H2]].
      * rewrite H, Hh. unfold prepend_capped.
        rewrite firstn_app_firstn, <- app_assoc. reflexivity.
      * rewrite H1, H2, Hh. reflexivity.
Qed.

(** C4: a handler leaves the history alone or replaces it by the new record
    followed by the old entries, cut to five; so after a completion the
    history is the completed runs, newest first, then the older entries,
    never more than five; and after six completed runs it holds the last
    five, without the record of the first. *)
Theorem history_newest_five :
  (forall s e,
      (completions (snd (step s e)) = []
       /\ history (fst (step s e)) = history s)
      \/ (exists r, completions (snd (step s e)) = [r]
                    /\ history (fst (step s e)) = firstn 5 (r :: history s)))
  /\ (forall s es,
         completions (snd (run s es)) <> [] ->
         history (fst (run s es))
         = firstn 5 (rev (completions (snd (run s es))) ++ history s)
         /\ (length (history (fst (run s es))) <= 5)%nat)
  /\ (forall s es r1 r2 r3 r4 r5 r6,
         completions (snd (run s es)) = [r1; r2; r3; r4; r5; r6] ->
         history (fst (run s es)) = [r6; r5; r4; r3; r2]
         /\ (~ In r1 [r2; r3; r4; r5; r6] -> ~ In r1 (history (fst (run s es))))).
Proof.
  split; [exact step_history | split].
  - intros s es Hne. destruct (run_history es s) as [H | [H _]];
      [| contradiction].
    split; [exact H |]. rewrite H. apply firstn_le_length.
  - intros s es r1 r2 r3 r4 r5 r6 Hc.
    destruct (run_history es s) as [H | [H _]]; [| congruence].
    rewrite Hc in H. cbn [rev app firstn] in H. rewrite H. split.
    + reflexivity.
    + intros Hn Hin. apply Hn. cbn [In] in *. intuition.
Qed.

Lemma history_newest_five_witness :
  List.map id (history (fst (run oneSite sixRuns))) = [6; 5; 4; 3; 2].
Proof.
  destruct history_newest_five as [_ [_ H]].
  destruct (H oneSite sixRuns
              (nth 0 (completions (snd (run oneSite sixRuns)))
                 (runRecordOf oneSite 0 []))
              (nth 1 (completions (snd (run oneSite sixRuns)))
                 (runRecordOf oneSite 0 []))
              (nth 2 (completions (snd (run oneSite sixRuns)))
                 (runRecordOf oneSite 0 []))
              (nth 3 (completions (snd (run oneSite sixRuns)))
                 (runRecordOf oneSite 0 []))
              (nth 4 (completions (snd (run oneSite sixRuns)))
                 (runRecordOf oneSite 0 []))
              (nth 5 (completions (snd (run oneSite sixRuns)))
                 (runRecordOf oneSite 0 []))
              eq_refl) as [Hh _].
  rewrite Hh. reflexivity.
Defined.

(** ** Aggregation of the results of a run *)

Lemma total_perm (l l' : list Z) :
  Permutation l l' -> Spec.total l = Spec.total l'.
Proof.
  induction 1; simpl; lia.
Qed.

Lemma averageScore_perm (l l' : list Data) :
  Permutation l l' -> averageScore l = averageScore l'.
Proof.
  intro H. unfold averageScore.
  rewrite !fold_left_scores, (Permutation_length H).
  rewrite (total_perm _ _ (Permutation_map scoreOne H)). reflexivity.
Qed.

Lemma NoDup_index_snoc (l : list Data) (d : Data) :
  NoDup (List.map index l) -> ~ In (index d) (List.map index l) ->
  NoDup (List.map index (l ++ [d])).
Proof.
  intros Hn Hi. rewrite map_app. cbn [List.map].
  apply NoDup_app; [exact Hn | repeat constructor; intros [] |].
  intros i Hin [<- | []]. contradiction.
Qed.

(** Arithmetic on the counts of a run, apart from the quantified
    hypotheses about the messages. *)
Ltac counts :=
  exfalso;
  repeat match goal with H : forall _, _ |- _ => clear H end;
  lia.

(** Whatever is delivered: the run id, the expected count and the name
    stay, the indices stay distinct, nothing accumulated is lost, and the
    completion step runs when the count passes from below the expected
    count to it, and then only. *)
Lemma deliveries_invariant (ds : list Data) :
  forall s,
    NoDup (List.map index (results s)) ->
    let s' := fst (run s (deliveries ds)) in
    let out := snd (run s (deliveries ds)) in
    runId s' = runId s
    /\ expectedCount s' = expectedCount s
    /\ computerName s' = computerName s
    /\ NoDup (List.map index (results s'))
    /\ (forall x, In x (results s) -> In x (results s'))
    /\ (length (results s) <= length (results s'))%nat
    /\ length (completions out)
       = (if ((length (results s) <? expectedCount s)
              && (expectedCount s <=? length (results s')))%nat
          then 1 else 0)%nat
    /\ (forall r, In r (completions out) ->
          record_of_run (runId s) (computerName s) (expectedCount s) r
          /\ (forall x, In x (rec_results r) -> In x (results s'))).
Proof.
  induction ds as [| d ds IH]; intros s Hnd; cbv zeta.
  - cbn [deliveries List.map run fst snd completions length].
    repeat split; auto; try contradiction.
    destruct (Nat.ltb_spec (length (results s)) (expectedCount s));
      destruct (Nat.leb_spec (expectedCount s) (length (results s)));
      try reflexivity; counts.
  - change (deliveries (d :: ds))
      with (Message (Some d) :: deliveries ds).
    rewrite run_cons. cbn [fst snd step]. rewrite completions_app.
    destruct (onMessage_delivery s d)
      as [_ | s1 _ _ Hni Hlen Hres Hhist _ Hrun Hexp Hname
            | s1 out1 _ Hr Hni Hlen Hres Hhist Hrun Hexp Hname Hcomp].
    + cbn [completions app]. apply IH. exact Hnd.
    + assert (Hnd1 : NoDup (List.map index (results s1))).
      { rewrite Hres. apply NoDup_index_snoc; assumption. }
      specialize (IH s1 Hnd1). cbv zeta in IH.
      destruct IH as (I1 & I2 & I3 & I4 & I5 & I6 & I7 & I8).
      rewrite Hres, length_app in I6, I7. cbn [length] in I6, I7.
      rewrite Hexp in I7. rewrite Hrun, Hname, Hexp in I8.
      cbn [completions app].
      split; [congruence |]. split; [congruence |].
      split; [congruence |]. split; [exact I4 |].
      split; [| split; [lia | split; [| exact I8]]].
      * intros x Hx. apply I5. rewrite Hres, in_app_iff. auto.
      * rewrite I7.
        destruct (Nat.ltb_spec (length (results s) + 1) (expectedCount s));
          destruct (Nat.ltb_spec (length (results s)) (expectedCount s));
          destruct (Nat.leb_spec (expectedCount s)
                      (length (results (fst (run s1 (deliveries ds))))));
          try reflexivity; counts.
    + assert (Hperm : Permutation (results s1) (results s ++ [d])).
      { rewrite Hres. apply sort_by_index_perm. }
      assert (Hnd1 : NoDup (List.map index (results s1))).
      { eapply Permutation_NoDup;
          [symmetry; apply Permutation_map; exact Hperm |].
        apply NoDup_index_snoc; assumption. }
      specialize (IH s1 Hnd1). cbv zeta in IH.
      destruct IH as (I1 & I2 & I3 & I4 & I5 & I6 & I7 & I8).
      assert (Hl1 : length (results s1) = S (length (results s))).
      { rewrite (Permutation_length Hperm), length_app. cbn [length]. lia. }
      rewrite Hl1 in I6, I7. rewrite Hexp in I7.
      rewrite Hrun, Hname, Hexp in I8.
      rewrite Hcomp.
      split; [congruence |]. split; [congruence |].
      split; [congruence |]. split; [exact I4 |].
      split; [| split; [lia | split]].
      * intros x Hx. apply I5.
        apply (Permutation_in _ (Permutation_sym Hperm)).
        rewrite in_app_iff. auto.
      * rewrite length_app, I7. cbn [length].
        destruct (Nat.ltb_spec (S (length (results s))) (expectedCount s));
          destruct (Nat.ltb_spec (length (results s)) (expectedCount s));
          destruct (Nat.leb_spec (expectedCount s)
                      (length (results (fst (run s1 (deliveries ds))))));
          try reflexivity; counts.
      * intros r [<- | Hin]; [| apply I8, Hin].
        split.
        -- unfold record_of_run. cbn [id computer finalScore rec_results
                                   runRecordOf].
           repeat split; auto.
           ++ apply averageScore_perm. symmetry. apply sort_by_index_perm.
           ++ apply sort_by_index_sorted.
           ++ rewrite <- Hres. exact Hnd1.
           ++ rewrite sort_by_index_length, length_app. cbn [length]. lia.
        -- cbn [rec_results runRecordOf]. rewrite <- Hres. exact I5.
Qed.


(** A run completes at most once, whatever is delivered to it. *)
Lemma completion_at_most_once (s : State) (ds : list Data) :
  NoDup (List.map index (results s)) ->
  (length (completions (snd (run s (deliveries ds)))) <= 1)%nat.
Proof.
  intro Hnd.
  destruct (deliveries_invariant ds s Hnd) as (_ & _ & _ & _ & _ & _ & H & _).
  rewrite H. destruct (_ && _); lia.
Qed.



(** ** Starting a run *)

Lemma blank_name_iff (s : State) :
  negb (truthy (trim (computerName s))) = true
  <-> Forall (fun c => is_whitespace c = true) (computerName s).
Proof.
  rewrite negb_true_iff, truthy_false_iff. apply trim_nil_iff.
Qed.

Lemma no_sites_iff (s : State) :
  (length (sites s) <? 1)%nat = true <-> sites s = [].
Proof.
  rewrite Nat.ltb_lt. destruct (sites s); cbn [length]; split;
    try congruence; lia.
Qed.

Lemma popups_openPopups (rid : Z) (selected : list jsstring) (i : nat) :
  popups (openPopups rid i selected) = numbered rid i selected.
Proof.
  revert i. induction selected as [| x r IH]; intro i; simpl;
    [| rewrite IH]; reflexivity.
Qed.

Lemma numbered_targets (rid : Z) (selected : list jsstring) (i : nat) :
  List.map (fun p => fst (fst p)) (numbered rid i selected) = selected.
Proof.
  revert i. induction selected as [| x r IH]; intro i; simpl;
    [| rewrite IH]; reflexivity.
Qed.

(** A run that passes the two checks. *)
Lemma runBenchmark_started (now : Z)
    (shuffle : list jsstring -> list jsstring) (s : State) :
  ~ Forall (fun c => is_whitespace c = true) (computerName s) ->
  sites s <> [] ->
  runBenchmark now shuffle s =
  let selected :=
    firstn (Nat.min 5 (length (shuffle (sites s)))) (shuffle (sites s)) in
  ({| computerName := computerName s; started := true; results := [];
      history := history s; runId := Some now;
      expectedCount := length selected; dnsProbe := None;
      siteText := siteText s |},
   openPopups now 0 selected).
Proof.
  intros Hname Hsites. unfold runBenchmark.
  destruct (negb (truthy (trim (computerName s)))) eqn:E1.
  { apply blank_name_iff in E1. contradiction. }
  destruct (length (sites s) <? 1)%nat eqn:E2.
  { apply no_sites_iff in E2. contradiction. }
  reflexivity.
Qed.

(** C5: with an empty or white-space computer name, or with an empty pool,
    [runBenchmark] only raises an alert: the state is the one it was, no
    run id is taken from the clock and no popup is opened. *)
Theorem startRun_validation
    (now : Z) (shuffle : list jsstring -> list jsstring) (s : State) :
  Forall (fun c => is_whitespace c = true) (computerName s)
  \/ sites s = [] ->
  exists message,
    runBenchmark now shuffle s = (s, [Alert message])
    /\ popups (snd (runBenchmark now shuffle s)) = []
    /\ runId (fst (runBenchmark now shuffle s)) = runId s.
Proof.
  intro H. unfold runBenchmark.
  destruct (negb (truthy (trim (computerName s)))) eqn:E1.
  - eexists. repeat split.
  - destruct (length (sites s) <? 1)%nat eqn:E2.
    + eexists. repeat split.
    + exfalso. destruct H as [H | H].
      * apply blank_name_iff in H. congruence.
      * apply no_sites_iff in H. congruence.
Qed.

Lemma startRun_validation_witness :
  (exists message,
      runBenchmark 1700000000000 keep blankName = (blankName, [Alert message])
      /\ popups (snd (runBenchmark 1700000000000 keep blankName)) = []
      /\ runId (fst (runBenchmark 1700000000000 keep blankName))
         = runId blankName)
  /\ (exists message,
        runBenchmark 1700000000000 keep blankPool
        = (blankPool, [Alert message])
        /\ popups (snd (runBenchmark 1700000000000 keep blankPool)) = []
        /\ runId (fst (runBenchmark 1700000000000 keep blankPool))
           = runId blankPool).
Proof.
  split.
  - apply (startRun_validation 1700000000000 keep blankName).
    left. repeat constructor.
  - apply (startRun_validation 1700000000000 keep blankPool).
    right. reflexivity.
Defined.

Lemma not_blank_iff (s : State) :
  truthy (trim (computerName s)) = true
  <-> ~ Forall (fun c => is_whitespace c = true) (computerName s).
Proof.
  rewrite <- blank_name_iff.
  destruct (truthy (trim (computerName s))); cbn [negb]; split;
    congruence.
Qed.




(** ** Messages that are not results of the active run *)

Lemma run_discards (s : State) (ds : list Data) :
  (forall d, In d ds ->
     type_ d <> benchmarkResult \/ runId s <> Some (runId_ d)) ->
  run s (deliveries ds) = (s, []).
Proof.
  induction ds as [| d ds IH]; intro H; [reflexivity |].
  assert (Hd : onMessage s (Some d) = (s, [])).
  { destruct (H d (or_introl eq_refl)) as [Ht | Hr].
    - apply onMessage_wrong_type, Ht.
    - apply onMessage_other_run, Hr. }
  unfold deliveries. cbn [List.map]. rewrite run_cons. cbn [step].
  rewrite Hd. cbn [fst snd app]. fold (deliveries ds).
  rewrite IH by (intros x Hx; apply H; right; exact Hx).
  reflexivity.
Qed.

(** C6: a message of another type, or one whose run id is not the active
    one, leaves the state as it is and causes nothing, and so does any
    sequence of such messages; once a click has started a run under the id
    [now], every message that carries another id is discarded, so the
    results of the superseded run are when the clock gave the new run an
    id of its own. *)
Theorem foreign_message_discarded :
  (forall s d,
      type_ d <> benchmarkResult \/ runId s <> Some (runId_ d) ->
      onMessage s (Some d) = (s, []))
  /\ (forall s ds,
         (forall d, In d ds ->
            type_ d <> benchmarkResult \/ runId s <> Some (runId_ d)) ->
         run s (deliveries ds) = (s, []))
  /\ (forall s now shuffle ds,
         truthy (trim (computerName s)) = true ->
         sites s <> [] ->
         (forall d, In d ds -> runId_ d <> now) ->
         let s' := fst (runBenchmark now shuffle s) in
         runId s' = Some now /\ run s' (deliveries ds) = (s', [])).
Proof.
  split; [| split].
  - intros s d [H | H].
    + apply onMessage_wrong_type, H.
    + apply onMessage_other_run, H.
  - exact run_discards.
  - intros s now shuffle ds Hname Hsites Hds. cbv zeta.
    apply not_blank_iff in Hname.
    rewrite (runBenchmark_started now shuffle s Hname Hsites). cbv zeta.
    cbn [fst]. split; [reflexivity |].
    apply run_discards. intros d Hd. right. cbn [runId].
    intro H. injection H as H. apply (Hds d Hd). symmetry. exact H.
Qed.

Lemma foreign_message_discarded_witness :
  let first := fst (runBenchmark 1 keep oneSite) in
  let second := fst (runBenchmark 2 keep first) in
  run second (deliveries [sample 1 0 100; sample 1 0 100]) = (second, [])
  /\ onMessage second
       (Some {| type_ := lit "ping"; runId_ := 2; index := 0; site := [];
                loadTime := 0; cpuTime := 0; networkLatency := 0;
                memoryUsage := 0 |}) = (second, []).
Proof.
  cbv zeta. split.
  - apply (proj2 (proj2 foreign_message_discarded)
             (fst (runBenchmark 1 keep oneSite)) 2 keep
             [sample 1 0 100; sample 1 0 100]).
    + reflexivity.
    + discriminate.
    + intros d [<- | [<- | []]]; discriminate.
  - apply (proj1 foreign_message_discarded). left. discriminate.
Defined.

(** A click in the millisecond of the run it supersedes gives the new run
    the same id: the late result of the superseded run is accumulated, and
    here it completes the new run. *)
Lemma superseded_result_discarded_fails : ~ superseded_result_discarded.
Proof.
  intro H.
  specialize (H 1 keep runOfOne (sample 1 0 100) eq_refl
                ltac:(discriminate) (Permutation_refl _) eq_refl eq_refl).
  apply (f_equal (fun r => length (results (fst r)))) in H.
  vm_compute in H. discriminate.
Qed.

(** The run id is the clock's millisecond: a run started in the millisecond
    of the run it supersedes has the same id, and a late result of the
    superseded run is then accumulated. *)
Example same_millisecond_accepts_late_result :
  let second := fst (runBenchmark 1 keep runOfOne) in
  results (fst (onMessage second (Some (sample 1 0 100)))) = [sample 1 0 100].
Proof. reflexivity. Qed.

(** ** The DNS probe *)

Lemma option_eq_dec_Z (a b : option Z) : {a = b} + {a <> b}.
Proof. decide equality. apply Z.eq_dec. Qed.

Lemma gt_iff (x y : Q) : gt x y = true <-> (y < x)%Q.
Proof.
  unfold gt. rewrite negb_true_iff. split; intro H.
  - apply Qnot_le_lt. intro Hle. apply Qle_bool_iff in Hle. congruence.
  - destruct (Qle_bool x y) eqn:E; [| reflexivity].
    apply Qle_bool_iff in E. exfalso. apply (Qlt_not_le _ _ H E).
Qed.

Lemma anySlow_iff (l : list Data) :
  existsb (fun r => gt (loadTime r) loadTimeMs) l = true
  <-> exists m, In m l /\ (1000 < loadTime m)%Q.
Proof.
  rewrite existsb_exists. split; intros [m [Hin H]]; exists m; split; auto;
    apply gt_iff; exact H.
Qed.

Lemma probeLaunched_completion (r : RunRecord) (b : bool) :
  probeLaunched (HistoryAppend r :: (if b then [RunDnsProbe] else [])) = b.
Proof. destruct b; reflexivity. Qed.

(** The trigger of the probe: the listener launches it exactly when its
    delivery completes a run and a measurement of that run has a load time
    above 1000; a run whose load times are at most 1000 launches none, and
    a completion that launches none clears the probe result. *)
Theorem dnsProbe_trigger (s : State) (data : option Data) :
  let s' := fst (onMessage s data) in
  let out := snd (onMessage s data) in
  (probeLaunched out = true
   <-> exists r, completions out = [r]
                 /\ exists m, In m (rec_results r) /\ (1000 < loadTime m)%Q)
  /\ (forall r, completions out = [r] ->
        (forall m, In m (rec_results r) -> (loadTime m <= 1000)%Q) ->
        probeLaunched out = false)
  /\ (forall r, completions out = [r] ->
        probeLaunched out = false -> dnsProbe s' = None).
Proof.
  cbv zeta.
  assert (Hnone : forall st,
             onMessage s data = (st, []) ->
             (probeLaunched (snd (onMessage s data)) = true
              <-> exists r, completions (snd (onMessage s data)) = [r]
                   /\ exists m, In m (rec_results r) /\ (1000 < loadTime m)%Q)
             /\ (forall r, completions (snd (onMessage s data)) = [r] ->
                   (forall m, In m (rec_results r) -> (loadTime m <= 1000)%Q) ->
                   probeLaunched (snd (onMessage s data)) = false)
             /\ (forall r, completions (snd (onMessage s data)) = [r] ->
                   probeLaunched (snd (onMessage s data)) = false ->
                   dnsProbe (fst (onMessage s data)) = None)).
  { intros st ->. cbn [fst snd completions probeLaunched existsb].
    repeat split; try discriminate.
    intros [r [H _]]. discriminate. }
  destruct data as [d |]; [| apply (Hnone s); reflexivity].
  destruct (list_eq_dec N.eq_dec (type_ d) benchmarkResult) as [Ht | Ht];
    [| apply (Hnone s), onMessage_wrong_type, Ht].
  destruct (option_eq_dec_Z (runId s) (Some (runId_ d))) as [Hr | Hr];
    [| apply (Hnone s), onMessage_other_run, Hr].
  destruct (in_dec Z.eq_dec (index d) (List.map index (results s)))
    as [Hi | Hi]; [apply (Hnone s), onMessage_duplicate, Hi |].
  pose proof (onMessage_insert s d Ht Hr Hi) as Hins. cbv zeta in Hins.
  destruct (length (results s ++ [d]) =? expectedCount s)%nat;
    [| eapply Hnone; exact Hins].
  clear Hnone. rewrite Hins. cbn [fst snd completions dnsProbe].
  rewrite probeLaunched_completion.
  set (r := runRecordOf s (runId_ d) (results s ++ [d])).
  change (sort_by_index (results s ++ [d])) with (rec_results r).
  repeat split.
  - intro H. exists r. split; [| apply anySlow_iff; exact H].
    destruct (existsb _ _); reflexivity.
  - intros [r' [Hc Hm]]. apply anySlow_iff.
    assert (r' = r); [| subst; exact Hm].
    destruct (existsb _ (rec_results r)); cbn [completions] in Hc; congruence.
  - intros r' Hc Hall.
    assert (Hr' : r' = r)
      by (destruct (existsb _ (rec_results r)); cbn [completions] in Hc;
          congruence).
    subst r'.
    destruct (existsb _ (rec_results r)) eqn:E; [| reflexivity].
    apply anySlow_iff in E. destruct E as [m [Hin Hlt]].
    exfalso. apply (Qlt_not_le _ _ Hlt). apply Hall, Hin.
  - intros r' _ H. rewrite H. reflexivity.
Qed.

Lemma dnsProbe_trigger_witness :
  probeLaunched (snd (onMessage runOfOne (Some (sample 1 0 1000)))) = false
  /\ dnsProbe (fst (onMessage runOfOne (Some (sample 1 0 1000)))) = None
  /\ probeLaunched (snd (onMessage runOfOne (Some (sample 1 0 1000.5)))) = true.
Proof.
  destruct (dnsProbe_trigger runOfOne (Some (sample 1 0 1000)))
    as (_ & Hquiet & Hclear).
  destruct (dnsProbe_trigger runOfOne (Some (sample 1 0 1000.5)))
    as (Hlaunch & _).
  assert (H1000 :
            probeLaunched (snd (onMessage runOfOne (Some (sample 1 0 1000))))
            = false).
  { apply (Hquiet (runRecordOf runOfOne 1 [sample 1 0 1000])).
    - reflexivity.
    - intros m [<- | []]. cbn. discriminate. }
  split; [exact H1000 | split].
  - apply (Hclear (runRecordOf runOfOne 1 [sample 1 0 1000]));
      [reflexivity | exact H1000].
  - apply Hlaunch. exists (runRecordOf runOfOne 1 [sample 1 0 1000.5]).
    split; [reflexivity |]. exists (sample 1 0 1000.5).
    split; [left; reflexivity | reflexivity].
Defined.

(** C7 at the failing input: the first run of [staleProbe p] has a load
    time above 1000 and launches the probe; the second run completes with
    a load time of 100, launches no probe and clears the probe result;
    then the promise of the first probe resolves and its result [p] is
    put in the state, where the render shows it below the second run. *)
Theorem stale_probe_result_shown (p : DnsProbe) :
  let first := run oneSite firstRunSlow in
  let second := run (fst first) secondRunFast in
  let final := run (fst second) [DnsProbeSettled (Some p)] in
  probeLaunched (snd first) = true
  /\ (exists r,
         completions (snd second) = [r]
         /\ id r = 2
         /\ (forall m, In m (rec_results r) -> (loadTime m <= 1000)%Q)
         /\ hd_error (history (fst final)) = Some r)
  /\ probeLaunched (snd second) = false
  /\ dnsProbe (fst second) = None
  /\ runId (fst final) = Some 2
  /\ dnsProbe (fst final) = Some p
  /\ fst (run oneSite (staleProbe p)) = fst final.
Proof.
  cbv zeta.
  split; [vm_compute; reflexivity |].
  split.
  { exists (runRecordOf (fst (runBenchmark 2 keep
                                (fst (run oneSite firstRunSlow))))
                        2 [sample 2 0 100]).
    split; [vm_compute; reflexivity |].
    split; [reflexivity |].
    split; [| vm_compute; reflexivity].
    intros m Hm. vm_compute in Hm. destruct Hm as [<- | []].
    cbn [loadTime sample]. discriminate. }
  split; [vm_compute; reflexivity |].
  split; [vm_compute; reflexivity |].
  split; [vm_compute; reflexivity |].
  split; [vm_compute; reflexivity |].
  vm_compute. reflexivity.
Qed.

(** ** Loading and storing the history *)

Section PersistenceProperties.

Import Persistence.

Variable JSON_parse : jsstring -> exn + json.
Variable stringify_history : list RunRecord -> jsstring.
Variable ToString : json -> exn + jsstring.
Variable localStorage : Storage.

(** The part of the load effect that reads the site list. *)
Let loadSites : Js unit :=
  bind (lift (getItem localStorage benchmark_sites_v1)) (fun savedSites =>
    match present savedSites with
    | Some text =>
        bind (lift (JSON_parse text)) (fun v =>
          bind (join ToString v) (fun joined => call (SetSiteText joined)))
    | None => ret tt
    end).

Lemma loadSites_history (current : json) :
  historyAfter current (fst loadSites) = current.
Proof.
  unfold loadSites, bind, lift, ret, call, throw.
  destruct (getItem localStorage benchmark_sites_v1) as [e | saved];
    [reflexivity |].
  destruct (present saved) as [text |]; [| reflexivity].
  destruct (JSON_parse text) as [e | v]; [reflexivity |].
  destruct v; try reflexivity.
  unfold join, bind, lift, ret.
  destruct (elementTexts ToString items); reflexivity.
Qed.

Lemma try_catch_returns (body : Js unit) :
  snd (try_catch body (fun _ => ret tt)) = inr tt.
Proof. destruct body as [log [e | []]]; reflexivity. Qed.

(** Neither effect lets an exception out. *)
Lemma loadPersisted_returns :
  snd (loadPersisted JSON_parse ToString localStorage) = inr tt.
Proof. apply try_catch_returns. Qed.

Lemma persistHistory_returns (history : list RunRecord) :
  snd (persistHistory stringify_history localStorage history) = inr tt.
Proof. apply try_catch_returns. Qed.

(** Without a stored text, or with one [JSON.parse] rejects, or when the
    read itself throws, the history stays as it is. *)
Lemma loadPersisted_keeps_history (current : json) :
  (match getItem localStorage benchmark_history_v1 with
   | inl _ => True
   | inr saved =>
       match present saved with
       | None => True
       | Some text => exists e, JSON_parse text = inl e
       end
   end) ->
  historyAfter current (fst (loadPersisted JSON_parse ToString localStorage))
  = current.
Proof.
  intro H. unfold loadPersisted, try_catch.
  fold loadSites.
  pose proof (loadSites_history current) as Hs.
  unfold bind at 1. unfold lift at 1.
  destruct (getItem localStorage benchmark_history_v1) as [e | saved];
    [reflexivity |].
  destruct (present saved) as [text |].
  - destruct H as [e He]. rewrite He. reflexivity.
  - unfold bind at 1. unfold ret at 1.
    destruct loadSites as [log [e | []]]; unfold ret;
      cbn [fst snd app] in *; rewrite ?app_nil_r; exact Hs.
Qed.

(** C9, at a stored text that is JSON but not a history: the load effect
    ends without an exception and hands the parsed value to [setHistory]
    as it is, so the history is that value and not the empty log; when the
    value is not an array, such as [null], the next render throws on
    [history.slice()]. *)
Theorem loadPersisted_takes_any_value
    (blob : jsstring) (v current : json) :
  getItem localStorage benchmark_history_v1 = inr (Some blob) ->
  truthy blob = true ->
  JSON_parse blob = inr v ->
  snd (loadPersisted JSON_parse ToString localStorage) = inr tt
  /\ historyAfter current
       (fst (loadPersisted JSON_parse ToString localStorage)) = v
  /\ ((forall items, v <> JArray items) ->
      historyChartData
        (historyAfter current
           (fst (loadPersisted JSON_parse ToString localStorage)))
      = inl TypeError).
Proof.
  intros Hget Htruthy Hparse.
  assert (Hv : historyAfter current
                 (fst (loadPersisted JSON_parse ToString localStorage)) = v).
  { unfold loadPersisted, try_catch. fold loadSites.
    pose proof (loadSites_history v) as Hs.
    unfold bind at 1. unfold lift at 1. rewrite Hget.
    unfold present. rewrite Htruthy.
    unfold bind at 2. unfold lift at 1. rewrite Hparse.
    unfold call. unfold bind at 1.
    destruct loadSites as [log [e | []]]; unfold ret;
      cbn [fst snd app historyAfter] in *; rewrite ?app_nil_r; exact Hs. }
  split; [apply try_catch_returns | split; [exact Hv |]].
  intro Hna. rewrite Hv. destruct v; try reflexivity.
  exfalso. eapply Hna. reflexivity.
Qed.

End PersistenceProperties.

Lemma loadPersisted_takes_any_value_witness :
  snd (Persistence.loadPersisted parseNull noToString nullBlob) = inr tt
  /\ Persistence.historyAfter (Persistence.JArray [])
       (fst (Persistence.loadPersisted parseNull noToString nullBlob))
     = Persistence.JNull
  /\ Persistence.historyChartData
       (Persistence.historyAfter (Persistence.JArray [])
          (fst (Persistence.loadPersisted parseNull noToString nullBlob)))
     = inl Persistence.TypeError.
Proof.
  destruct (loadPersisted_takes_any_value parseNull noToString nullBlob
              (lit "null") Persistence.JNull (Persistence.JArray []))
    as (H1 & H2 & H3); try reflexivity.
  split; [exact H1 | split; [exact H2 |]].
  apply H3. intros items. discriminate.
Defined.

(** ** The run a click starts *)

(** The pool of a fresh component is the default list, ten distinct URLs. *)
Example default_pool :
  sites initialState = defaultSites /\ NoDup defaultSites.
Proof.
  split; [reflexivity |].
  unfold defaultSites. cbn.
  repeat (constructor; [cbn; intuition discriminate |]). constructor.
Qed.

Lemma started_run_expects_results
    (now : Z) (shuffle : list jsstring -> list jsstring) (s : State) :
  truthy (trim (computerName s)) = true ->
  sites s <> [] ->
  Permutation (shuffle (sites s)) (sites s) ->
  let s' := fst (runBenchmark now shuffle s) in
  runId s' = Some now /\ results s' = [] /\ (0 < expectedCount s')%nat.
Proof.
  intros Hname Hsites Hperm. cbv zeta.
  apply not_blank_iff in Hname.
  rewrite (runBenchmark_started now shuffle s Hname Hsites). cbv zeta.
  cbn [fst runId results expectedCount]. repeat split.
  rewrite length_firstn, (Permutation_length Hperm).
  destruct (sites s); [contradiction | cbn [length]; lia].
Qed.

(** ** The sibling component *)

Lemma AppJsx_discards_foreign_message (s : AppJsx.State) (d : Data) :
  type_ d <> benchmarkResult \/ AppJsx.runId s <> Some (runId_ d) ->
  AppJsx.onMessage s (Some d) = (s, []).
Proof.
  intro H. unfold AppJsx.onMessage.
  destruct (jsstring_eqb (type_ d) benchmarkResult) eqn:E; cbn [negb];
    [| reflexivity].
  apply jsstring_eqb_eq in E.
  destruct (AppJsx.runId s) as [rid |]; [| reflexivity].
  destruct (runId_ d =? rid) eqn:E2; cbn [negb]; [| reflexivity].
  exfalso. destruct H as [H | H]; [contradiction |].
  apply H. f_equal. lia.
Qed.

Lemma AppJsx_duplicate_discarded (s : AppJsx.State) (d : Data) :
  In (index d) (List.map index (AppJsx.results s)) ->
  AppJsx.onMessage s (Some d) = (s, []).
Proof.
  intro H. apply existsb_index in H. unfold AppJsx.onMessage.
  destruct (negb (jsstring_eqb (type_ d) benchmarkResult)); [reflexivity |].
  destruct (AppJsx.runId s) as [rid |]; [| reflexivity].
  destruct (negb (runId_ d =? rid)); [reflexivity |].
  rewrite H. reflexivity.
Qed.

(** The listener of [App.jsx] inserts as the one of [oldApp.jsx] does; its
    record holds the results in arrival order until a render sorts
    them. *)
Lemma AppJsx_onMessage_insert (s : AppJsx.State) (d : Data) :
  type_ d = benchmarkResult ->
  AppJsx.runId s = Some (runId_ d) ->
  ~ In (index d) (List.map index (AppJsx.results s)) ->
  let next := AppJsx.results s ++ [d] in
  let s' := fst (AppJsx.onMessage s (Some d)) in
  AppJsx.results s' = next
  /\ (length next = AppJsx.expectedCount s ->
      exists r,
        snd (AppJsx.onMessage s (Some d)) = [HistoryAppend r]
        /\ id r = runId_ d /\ rec_results r = next
        /\ finalScore r = averageScore next
        /\ AppJsx.history s' = prepend_capped r (AppJsx.history s))
  /\ (length next <> AppJsx.expectedCount s ->
      snd (AppJsx.onMessage s (Some d)) = []
      /\ AppJsx.history s' = AppJsx.history s).
Proof.
  intros Ht Hr Hi. cbv zeta. unfold AppJsx.onMessage.
  apply jsstring_eqb_eq in Ht. rewrite Ht, Hr, Z.eqb_refl. cbn [negb].
  destruct (existsb (fun p => index p =? index d) (AppJsx.results s)) eqn:E.
  { apply existsb_index in E. contradiction. }
  cbv zeta.
  destruct (Nat.eqb_spec (length (AppJsx.results s ++ [d]))
              (AppJsx.expectedCount s)) as [He | He];
    cbn [fst snd AppJsx.results AppJsx.history].
  - split; [reflexivity | split; [| contradiction]].
    intros _. eexists. repeat split.
  - split; [reflexivity | split; [contradiction |]].
    intros _. split; reflexivity.
Qed.

(** [App.jsx] draws from a fixed pool of ten distinct sites: five popups,
    to distinct targets. *)
Lemma AppJsx_runBenchmark_selection
    (now : Z) (shuffle : list jsstring -> list jsstring) (s : AppJsx.State) :
  truthy (trim (AppJsx.computerName s)) = true ->
  Permutation (shuffle AppJsx.sites) AppJsx.sites ->
  let targets :=
    List.map (fun p => fst (fst p))
      (popups (snd (AppJsx.runBenchmark now shuffle s))) in
  targets = firstn 5 (shuffle AppJsx.sites)
  /\ length targets = 5%nat
  /\ NoDup targets
  /\ AppJsx.expectedCount (fst (AppJsx.runBenchmark now shuffle s)) = 5%nat
  /\ AppJsx.runId (fst (AppJsx.runBenchmark now shuffle s)) = Some now.
Proof.
  intros Hname Hperm. cbv zeta. unfold AppJsx.runBenchmark.
  rewrite Hname. cbn [negb fst snd AppJsx.expectedCount AppJsx.runId].
  rewrite popups_openPopups, numbered_targets.
  assert (Hlen : length (firstn 5 (shuffle AppJsx.sites)) = 5%nat).
  { rewrite length_firstn, (Permutation_length Hperm). reflexivity. }
  repeat split; auto.
  assert (Hnd : NoDup AppJsx.sites).
  { unfold AppJsx.sites. cbn.
    repeat (constructor; [cbn; intuition discriminate |]). constructor. }
  assert (Hs : NoDup (shuffle AppJsx.sites))
    by (eapply Permutation_NoDup; [symmetry; exact Hperm | exact Hnd]).
  rewrite <- (firstn_skipn 5 (shuffle AppJsx.sites)) in Hs.
  eapply NoDup_app_remove_r. exact Hs.
Qed.

(** * Further properties of the component *)

(** ** The site pool *)

Lemma trimStart_head (s : jsstring) (c : N) (r : jsstring) :
  trimStart s = c :: r -> is_whitespace c = false.
Proof.
  induction s as [| a s IH]; simpl; [discriminate |].
  destruct (is_whitespace a) eqn:E; [exact IH |].
  intro H. injection H as <- _. exact E.
Qed.

Lemma trimStart_fixed (s : jsstring) :
  match s with [] => True | c :: _ => is_whitespace c = false end ->
  trimStart s = s.
Proof.
  destruct s as [| c r]; [reflexivity |]. simpl. intros ->. reflexivity.
Qed.

Lemma trimStart_split (s : jsstring) :
  exists p, s = p ++ trimStart s.
Proof.
  induction s as [| c r [p IH]]; simpl.
  - exists []. reflexivity.
  - destruct (is_whitespace c).
    + exists (c :: p). simpl. f_equal. exact IH.
    + exists []. reflexivity.
Qed.

Lemma trimStart_idempotent (s : jsstring) :
  trimStart (trimStart s) = trimStart s.
Proof.
  apply trimStart_fixed. destruct (trimStart s) as [| c r] eqn:E; [exact I |].
  eapply trimStart_head. exact E.
Qed.

(** What [trim] returns has no white space at either end; trimming it
    again changes nothing. *)
Lemma trim_idempotent (s : jsstring) : trim (trim s) = trim s.
Proof.
  unfold trim, trimEnd.
  set (t := trimStart s). set (u := trimStart (rev t)).
  assert (Hu : trimStart u = u) by apply trimStart_idempotent.
  assert (Hfront : trimStart (rev u) = rev u).
  { apply trimStart_fixed.
    destruct (trimStart_split (rev t)) as [p Hp]. fold u in Hp.
    assert (Ht : t = rev u ++ rev p).
    { rewrite <- (rev_involutive t), Hp, rev_app_distr. reflexivity. }
    destruct (rev u) as [| c r] eqn:E; [exact I |].
    eapply (trimStart_head s). fold t. rewrite Ht. reflexivity. }
  rewrite Hfront, rev_involutive, Hu. reflexivity.
Qed.

Lemma trimStart_subset (s : jsstring) (c : N) :
  In c (trimStart s) -> In c s.
Proof.
  destruct (trimStart_split s) as [p Hp]. intro H.
  rewrite Hp. apply in_or_app. right. exact H.
Qed.

Lemma trim_subset (s : jsstring) (c : N) : In c (trim s) -> In c s.
Proof.
  unfold trim, trimEnd. intro H. apply in_rev in H.
  apply trimStart_subset in H. apply in_rev in H.
  apply trimStart_subset in H. exact H.
Qed.

Lemma split_newline_nonempty (s : jsstring) : split_newline s <> [].
Proof.
  induction s as [| c r IH]; simpl; [discriminate |].
  destruct (c =? 10)%N; [discriminate |].
  destruct (split_newline r); [contradiction | discriminate].
Qed.

Lemma split_newline_no_newline (s e : jsstring) :
  In e (split_newline s) -> ~ In 10%N e.
Proof.
  revert e. induction s as [| c r IH]; simpl; intros e H.
  - destruct H as [<- | []]. intros [].
  - destruct (N.eqb_spec c 10) as [-> | Hc].
    + destruct H as [<- | H]; [intros [] | apply IH, H].
    + destruct (split_newline r) as [| l ls] eqn:E.
      * destruct H as [<- | []]. intros [H | []]. congruence.
      * destruct H as [<- | H].
        -- intros [H | H]; [congruence |].
           revert H. apply IH. left. reflexivity.
        -- apply IH. right. exact H.
Qed.

(** X1: every site of the pool is a line of the site text with the white
    space at its ends removed: it is not empty, holds no line break and
    starts and ends with a character that is not white space. *)
Theorem sites_entries (s : State) (e : jsstring) :
  In e (sites s) ->
  e <> [] /\ ~ In 10%N e /\ trim e = e
  /\ exists line, In line (split_newline (siteText s)) /\ e = trim line.
Proof.
  unfold sites. intro H. apply filter_In in H. destruct H as [Hin Ht].
  apply in_map_iff in Hin. destruct Hin as [line [<- Hline]].
  split; [destruct (trim line); [discriminate | discriminate] |].
  split; [| split; [apply trim_idempotent | exists line; auto]].
  intro Hn. apply trim_subset in Hn.
  exact (split_newline_no_newline _ _ Hline Hn).
Qed.

Lemma sites_entries_witness :
  lit "b" <> [] /\ ~ In 10%N (lit "b") /\ trim (lit "b") = lit "b"
  /\ exists line,
       In line (split_newline (siteText threeSites)) /\ lit "b" = trim line.
Proof.
  apply (sites_entries threeSites (lit "b")).
  right. left. reflexivity.
Defined.

Lemma split_newline_line (e : jsstring) :
  ~ In 10%N e -> split_newline e = [e].
Proof.
  induction e as [| c r IH]; simpl; intro H; [reflexivity |].
  destruct (N.eqb_spec c 10) as [-> | Hc]; [exfalso; apply H; auto |].
  rewrite IH by (intro Hr; apply H; auto). reflexivity.
Qed.

Lemma split_newline_app (e rest : jsstring) :
  ~ In 10%N e ->
  split_newline (e ++ 10%N :: rest) = e :: split_newline rest.
Proof.
  induction e as [| c r IH]; simpl; intro H; [reflexivity |].
  destruct (N.eqb_spec c 10) as [-> | Hc]; [exfalso; apply H; auto |].
  rewrite IH by (intro Hr; apply H; auto). reflexivity.
Qed.

Lemma split_join_newline (l : list jsstring) :
  l <> [] -> (forall e, In e l -> ~ In 10%N e) ->
  split_newline (join_newline l) = l.
Proof.
  induction l as [| e l IH]; [contradiction |]. intros _ H.
  destruct l as [| e' l].
  - simpl. apply split_newline_line, H. left. reflexivity.
  - change (join_newline (e :: e' :: l))
      with (e ++ 10%N :: join_newline (e' :: l)).
    rewrite split_newline_app by (apply H; left; reflexivity).
    rewrite IH; [reflexivity | discriminate |].
    intros x Hx. apply H. right. exact Hx.
Qed.

Lemma sites_joined (s : State) (l : list jsstring) :
  (forall e, In e l -> e <> [] /\ ~ In 10%N e /\ trim e = e) ->
  sites (fst (step s (ChangeSiteText (join_newline l)))) = l.
Proof.
  intro H. cbn [step fst]. unfold sites. cbn [siteText].
  destruct l as [| e l]; [reflexivity |].
  rewrite split_join_newline; [| discriminate | intros x Hx; apply H, Hx].
  assert (Hmap : List.map trim (e :: l) = e :: l).
  { rewrite <- (map_id (e :: l)) at 2. apply map_ext_in.
    intros x Hx. apply H, Hx. }
  rewrite Hmap. apply forallb_filter_id. apply forallb_forall.
  intros x Hx. destruct (H x Hx) as [Hne _]. destruct x; [contradiction |].
  reflexivity.
Qed.

Lemma sites_entry_shape (s : State) (e : jsstring) :
  In e (sites s) -> e <> [] /\ ~ In 10%N e /\ trim e = e.
Proof.
  unfold sites. intro H. apply filter_In in H. destruct H as [Hin Ht].
  apply in_map_iff in Hin. destruct Hin as [line [<- Hline]].
  split; [destruct (trim line); [discriminate | discriminate] |].
  split; [| apply trim_idempotent].
  intro Hn. apply trim_subset in Hn.
  exact (split_newline_no_newline _ _ Hline Hn).
Qed.

(** The pool joined into the site text of any component parses to the
    pool. *)
Lemma sites_of_joined_lines (s t : State) :
  sites (fst (step t (ChangeSiteText (join_newline (sites s))))) = sites s.
Proof. apply sites_joined. intros e He. apply (sites_entry_shape s e He). Qed.

(** X2: a list of entries that are not empty, hold no line break and have
    no white space at their ends is the pool once it is joined into the
    site text; so joining the pool and parsing it again gives the pool. *)
Theorem sites_of_joined (s : State) (l : list jsstring) :
  (forall e, In e l -> e <> [] /\ ~ In 10%N e /\ trim e = e) ->
  sites (fst (step s (ChangeSiteText (join_newline l)))) = l.
Proof.
  intro H. cbn [step fst]. unfold sites. cbn [siteText].
  destruct l as [| e l]; [reflexivity |].
  rewrite split_join_newline; [| discriminate | intros x Hx; apply H, Hx].
  assert (Hmap : List.map trim (e :: l) = e :: l).
  { rewrite <- (map_id (e :: l)) at 2. apply map_ext_in.
    intros x Hx. apply H, Hx. }
  rewrite Hmap. apply forallb_filter_id. apply forallb_forall.
  intros x Hx. destruct (H x Hx) as [Hne _]. destruct x; [contradiction |].
  reflexivity.
Qed.

Lemma sites_of_joined_witness :
  sites (fst (step oneSite (ChangeSiteText (join_newline (sites threeSites)))))
  = sites threeSites.
Proof.
  apply (sites_of_joined oneSite (sites threeSites)).
  intros e He. cbv in He.
  destruct He as [<- | [<- | [<- | []]]];
    (split; [discriminate | split; [| reflexivity]]);
    cbv; intuition discriminate.
Defined.

(** ** The average score *)






(** ** Invariants of the run in progress and of the history *)

(** A delivery is dropped, or it is the insertion of a result of the
    active run with a new index. *)
Lemma onMessage_cases (s : State) (data : option Data) :
  onMessage s data = (s, [])
  \/ exists d,
       data = Some d /\ type_ d = benchmarkResult
       /\ runId s = Some (runId_ d)
       /\ ~ In (index d) (List.map index (results s))
       /\ onMessage s data = inserted s d.
Proof.
  destruct data as [d |]; [| left; reflexivity].
  destruct (list_eq_dec N.eq_dec (type_ d) benchmarkResult) as [Ht | Ht];
    [| left; apply onMessage_wrong_type, Ht].
  destruct (option_eq_dec_Z (runId s) (Some (runId_ d))) as [Hr | Hr];
    [| left; apply onMessage_other_run, Hr].
  destruct (in_dec Z.eq_dec (index d) (List.map index (results s)))
    as [Hi | Hi]; [left; apply onMessage_duplicate, Hi |].
  right. exists d. repeat split; auto.
  apply onMessage_insert; assumption.
Qed.

Lemma In_firstn {A} (n : nat) (l : list A) (x : A) :
  In x (firstn n l) -> In x l.
Proof.
  revert l. induction n as [| n IH]; intros [| y l]; simpl; try tauto.
  intros [H | H]; auto.
Qed.

Lemma sort_by_index_NoDup (l : list Data) :
  NoDup (List.map index l) -> NoDup (List.map index (sort_by_index l)).
Proof.
  intro H. eapply Permutation_NoDup; [| exact H].
  apply Permutation_map. symmetry. apply sort_by_index_perm.
Qed.

Lemma inserted_runInvariant (s : State) (d : Data) :
  runInvariant s ->
  type_ d = benchmarkResult -> runId s = Some (runId_ d) ->
  ~ In (index d) (List.map index (results s)) ->
  runInvariant (fst (inserted s d)).
Proof.
  intros (Hnd & Hres & Hexp & Hst) Ht Hr Hi.
  assert (Hnd' : NoDup (List.map index (results s ++ [d])))
    by (apply NoDup_index_snoc; assumption).
  assert (Hres' : forall x, In x (results s ++ [d]) ->
                    type_ x = benchmarkResult /\ runId s = Some (runId_ x)).
  { intros x Hx. apply in_app_iff in Hx.
    destruct Hx as [Hx | [<- | []]]; auto. }
  unfold inserted. cbv zeta.
  destruct (length (results s ++ [d]) =? expectedCount s)%nat;
    cbn [fst]; unfold runInvariant;
    cbn [results runId expectedCount started].
  - repeat split; auto.
    + apply sort_by_index_NoDup, Hnd'.
    + apply Hres', sort_by_index_in, H.
    + apply Hres', sort_by_index_in, H.
  - repeat split; auto; apply Hres'; assumption.
Qed.

Lemma step_runInvariant (s : State) (e : Event) :
  runInvariant s -> runInvariant (fst (step s e)).
Proof.
  intro Hinv. destruct e as [data | now shuffle | v | v | p]; cbn [step].
  - destruct (onMessage_cases s data) as [-> | (d & _ & Ht & Hr & Hi & ->)];
      [exact Hinv | apply inserted_runInvariant; assumption].
  - unfold runBenchmark.
    destruct (negb (truthy (trim (computerName s)))); [exact Hinv |].
    destruct (length (sites s) <? 1)%nat; [exact Hinv |].
    cbn [fst]. unfold runInvariant.
    cbn [results runId expectedCount started List.map].
    split; [constructor | split; [contradiction | split; [| reflexivity]]].
    rewrite length_firstn. lia.
  - exact Hinv.
  - exact Hinv.
  - exact Hinv.
Qed.

(** X5: whatever events the component handles, the accumulated results
    have distinct indices, all are results of the active run, at most
    five results are expected, and a component with an active run has
    started. *)
Theorem run_keeps_invariant (s : State) (es : list Event) :
  runInvariant s -> runInvariant (fst (run s es)).
Proof.
  revert s. induction es as [| e es IH]; intros s Hinv; [exact Hinv |].
  rewrite run_cons. cbn [fst]. apply IH, step_runInvariant, Hinv.
Qed.

Lemma initialState_invariant : runInvariant initialState.
Proof.
  unfold runInvariant. cbn.
  split; [constructor | split; [contradiction | split; [lia | congruence]]].
Qed.

Lemma run_keeps_invariant_witness :
  runInvariant
    (fst (run initialState
            (ChangeComputerName (lit "lab") :: ClickBenchmark 3 keep
             :: deliveries [sample 3 1 100; sample 3 1 100; sample 2 0 100]))).
Proof.
  apply (run_keeps_invariant initialState). exact initialState_invariant.
Defined.





(** ** The outcome of a run does not depend on the order of delivery *)








Section OneRun.

Variable s : State.
Variable rid : Z.
Variable ms : list Data.

Hypothesis active : runId s = Some rid.
Hypothesis expected : expectedCount s = length ms.
Hypothesis typed :
  forall m, In m ms -> type_ m = benchmarkResult /\ runId_ m = rid.



End OneRun.



(** ** What the render shows of a run *)

Lemma onMessage_frame (s : State) (data : option Data) :
  started (fst (onMessage s data)) = started s
  /\ siteText (fst (onMessage s data)) = siteText s.
Proof.
  destruct (onMessage_cases s data) as [-> | (d & _ & _ & _ & _ & ->)];
    [split; reflexivity |].
  unfold inserted. cbv zeta.
  destruct (length (results s ++ [d]) =? expectedCount s)%nat;
    split; reflexivity.
Qed.

Lemma deliveries_started (ds : list Data) (s : State) :
  started (fst (run s (deliveries ds))) = started s.
Proof.
  revert s. induction ds as [| d ds IH]; intro s; [reflexivity |].
  change (deliveries (d :: ds)) with (Message (Some d) :: deliveries ds).
  rewrite run_cons. cbn [fst step]. rewrite IH.
  apply onMessage_frame.
Qed.

(** X8: after any deliveries to a run that has just started, the title
    says "Done" exactly when the completion step has run; before that it
    says "Running" while no result is in and "k/n" with k from 1 to n-1
    afterwards. *)
Theorem title_follows_run (s : State) (ds : list Data) :
  started s = true ->
  results s = [] ->
  (0 < expectedCount s)%nat ->
  let s' := fst (run s (deliveries ds)) in
  let out := snd (run s (deliveries ds)) in
  (View.documentTitle s' = View.Done <-> completions out <> [])
  /\ (completions out = [] ->
      (View.documentTitle s' = View.Running /\ results s' = [])
      \/ (exists k, View.documentTitle s' = View.Progress k (expectedCount s)
                    /\ length (results s') = k
                    /\ (0 < k < expectedCount s)%nat)).
Proof.
  intros Hst Hres Hpos. cbv zeta.
  assert (Hnd : NoDup (List.map index (results s)))
    by (rewrite Hres; constructor).
  pose proof (deliveries_invariant ds s Hnd) as Hinv. cbv zeta in Hinv.
  destruct Hinv as (_ & Hexp & _ & _ & _ & _ & Hcount & _).
  pose proof (deliveries_started ds s) as Hst'.
  set (s' := fst (run s (deliveries ds))) in *.
  set (out := snd (run s (deliveries ds))) in *.
  rewrite Hres in Hcount. cbn [length] in Hcount.
  apply Nat.ltb_lt in Hpos. rewrite Hpos in Hcount. cbn [andb] in Hcount.
  apply Nat.ltb_lt in Hpos.
  unfold View.documentTitle. rewrite Hst', Hst, Hexp. cbn [negb].
  destruct (Nat.leb_spec (expectedCount s) (length (results s')))
    as [Hle | Hgt].
  - assert (Hc : completions out <> [])
      by (destruct (completions out); [discriminate | discriminate]).
    destruct (Nat.eqb_spec (length (results s')) 0) as [H0 | H0];
      [exfalso; lia |].
    destruct (Nat.ltb_spec (length (results s')) (expectedCount s))
      as [Hlt | _]; [exfalso; lia |].
    split; [tauto | intro Hno; contradiction].
  - assert (Hc : completions out = [])
      by (destruct (completions out); [reflexivity | discriminate]).
    destruct (Nat.eqb_spec (length (results s')) 0) as [H0 | H0].
    + split; [split; [discriminate | congruence] |].
      intros _. left. split; [reflexivity |].
      destruct (results s'); [reflexivity | discriminate].
    + destruct (Nat.ltb_spec (length (results s')) (expectedCount s))
        as [Hlt | Hge]; [| exfalso; lia].
      split; [split; [discriminate | congruence] |].
      intros _. right. exists (length (results s')).
      repeat split; lia.
Qed.

Lemma title_follows_run_witness :
  View.documentTitle (fst (run runOfThree (deliveries shuffledDeliveries)))
  = View.Done
  /\ View.documentTitle
       (fst (run runOfThree (deliveries [sample 7 2 1200; sample 7 2 1200])))
     = View.Progress 1 3.
Proof.
  destruct (title_follows_run runOfThree shuffledDeliveries)
    as [Hdone _]; try reflexivity; [cbn; lia |].
  destruct (title_follows_run runOfThree [sample 7 2 1200; sample 7 2 1200])
    as [_ Hprog]; try reflexivity; [cbn; lia |].
  split.
  - apply Hdone. discriminate.
  - destruct (Hprog eq_refl) as [[_ H] | [k (Ht & Hk & _)]];
      [discriminate H |].
    rewrite Ht. f_equal. rewrite <- Hk. reflexivity.
Defined.

Lemma Math_round_integer (x : Q) (z : Z) :
  (x == inject_Z z)%Q -> Math_round x = z.
Proof.
  intro H. apply (rounds_to_unique x); [apply Math_round_rounds |].
  unfold Spec.rounds_to. rewrite H. split; lra.
Qed.

(** X9: the progress percentage is 0 when nothing is expected or nothing
    is in, never negative, at most 100 while the results do not outnumber
    the expected count, and 100 when they equal it. *)
Theorem progressPct_range (s : State) :
  0 <= View.progressPct s
  /\ (expectedCount s = 0%nat \/ results s = [] -> View.progressPct s = 0)
  /\ ((length (results s) <= expectedCount s)%nat -> View.progressPct s <= 100)
  /\ (expectedCount s <> 0%nat -> length (results s) = expectedCount s ->
      View.progressPct s = 100).
Proof.
  unfold View.progressPct, Binary64.mul, Binary64.div.
  destruct (Nat.eqb_spec (expectedCount s) 0) as [H0 | H0].
  { split; [lia | split; [auto | split; [lia | contradiction]]]. }
  set (k := Z.of_nat (length (results s))).
  set (n := Z.of_nat (expectedCount s)).
  assert (Hn : 0 < n) by (unfold n; lia).
  assert (Hk : 0 <= k) by (unfold k; lia).
  assert (HnQ : (0 < inject_Z n)%Q)
    by (change 0%Q with (inject_Z 0); rewrite <- Zlt_Qlt; exact Hn).
  assert (HkQ : (0 <= inject_Z k)%Q)
    by (change 0%Q with (inject_Z 0); rewrite <- Zle_Qle; exact Hk).
  assert (R1 : (Binary64.round 1 == 1)%Q) by (vm_compute; reflexivity).
  assert (R100 : (Binary64.round 100 == 100)%Q) by (vm_compute; reflexivity).
  assert (Hq0 : (0 <= inject_Z k / inject_Z n)%Q).
  { apply Qle_shift_div_l; [exact HnQ |]. rewrite Qmult_0_l. exact HkQ. }
  assert (Hr0 : (0 <= Binary64.round (inject_Z k / inject_Z n))%Q).
  { apply Qle_trans with (Binary64.round 0);
      [apply Qeq_Qle; symmetry; exact round_zero | apply round_mono, Hq0]. }
  assert (Hlo : (inject_Z 0
                 <= Binary64.round
                      (Binary64.round (inject_Z k / inject_Z n) * 100))%Q).
  { change (inject_Z 0) with 0%Q.
    apply Qle_trans with (Binary64.round 0);
      [apply Qeq_Qle; symmetry; exact round_zero | apply round_mono; lra]. }
  assert (Hone : (inject_Z k / inject_Z n <= 1)%Q ->
                 (Binary64.round
                    (Binary64.round (inject_Z k / inject_Z n) * 100)
                  <= 100)%Q).
  { intro Hq.
    assert (Hr : (Binary64.round (inject_Z k / inject_Z n) <= 1)%Q).
    { apply Qle_trans with (Binary64.round 1);
        [apply round_mono, Hq | apply Qeq_Qle, R1]. }
    apply Qle_trans with (Binary64.round 100);
      [apply round_mono; lra | apply Qeq_Qle, R100]. }
  assert (Hzero : (inject_Z k / inject_Z n <= 0)%Q ->
                  (Binary64.round
                     (Binary64.round (inject_Z k / inject_Z n) * 100)
                   <= 0)%Q).
  { intro Hq.
    assert (Hr : (Binary64.round (inject_Z k / inject_Z n) <= 0)%Q).
    { apply Qle_trans with (Binary64.round 0);
        [apply round_mono, Hq | apply Qeq_Qle, round_zero]. }
    apply Qle_trans with (Binary64.round 0);
      [apply round_mono; lra | apply Qeq_Qle, round_zero]. }
  assert (Hfull : (1 <= inject_Z k / inject_Z n)%Q ->
                  (100 <= Binary64.round
                            (Binary64.round (inject_Z k / inject_Z n) * 100))%Q).
  { intro Hq.
    assert (Hr : (1 <= Binary64.round (inject_Z k / inject_Z n))%Q).
    { apply Qle_trans with (Binary64.round 1);
        [apply Qeq_Qle; symmetry; exact R1 | apply round_mono, Hq]. }
    apply Qle_trans with (Binary64.round 100);
      [apply Qeq_Qle; symmetry; exact R100 | apply round_mono; lra]. }
  split; [| split; [| split]].
  - apply Z.le_trans with (Math_round (inject_Z 0));
      [rewrite Math_round_inject_Z; lia | apply Math_round_mono, Hlo].
  - intros [H | H]; [contradiction |].
    apply Math_round_integer. change (inject_Z 0) with 0%Q.
    apply Qle_antisym; [| change 0%Q with (inject_Z 0); exact Hlo].
    apply Hzero. unfold k. rewrite H. cbn [length Z.of_nat].
    change (inject_Z 0) with 0%Q. unfold Qdiv. rewrite Qmult_0_l.
    apply Qle_refl.
  - intro Hle.
    apply Z.le_trans with (Math_round (inject_Z 100));
      [| rewrite Math_round_inject_Z; lia].
    apply Math_round_mono. change (inject_Z 100) with 100%Q. apply Hone.
    apply Qle_shift_div_r; [exact HnQ |]. rewrite Qmult_1_l.
    rewrite <- Zle_Qle. unfold k, n. lia.
  - intros _ He. apply Math_round_integer. change (inject_Z 100) with 100%Q.
    assert (Hq : (inject_Z k / inject_Z n == 1)%Q).
    { unfold k, n. rewrite He. unfold Qdiv. apply Qmult_inv_r.
      intro Hz. apply (Qlt_not_eq _ _ HnQ). symmetry. exact Hz. }
    apply Qle_antisym; [apply Hone | apply Hfull]; apply Qeq_Qle;
      [exact Hq | symmetry; exact Hq].
Qed.





(** ** The history chart *)

Lemma mapi_from_runNumber (n : nat) (l : list RunRecord) (i : nat) :
  List.map View.runNumber
    (View.mapi_from
       (fun h j =>
          {| View.runNumber := Z.of_nat n - Z.of_nat j;
             View.final := Math_round (inject_Z (finalScore h)) |}) i l)
  = List.map (fun j => Z.of_nat n - Z.of_nat j) (seq i (length l)).
Proof.
  revert i. induction l as [| h l IH]; intro i; [reflexivity |].
  cbn [View.mapi_from List.map length seq View.runNumber].
  rewrite IH. reflexivity.
Qed.

Lemma mapi_from_final (n : nat) (l : list RunRecord) (i : nat) :
  List.map View.final
    (View.mapi_from
       (fun h j =>
          {| View.runNumber := Z.of_nat n - Z.of_nat j;
             View.final := Math_round (inject_Z (finalScore h)) |}) i l)
  = List.map finalScore l.
Proof.
  revert i. induction l as [| h l IH]; intro i; [reflexivity |].
  cbn [View.mapi_from List.map View.final].
  rewrite IH, Math_round_inject_Z. reflexivity.
Qed.

Lemma countdown (n : nat) :
  List.map (fun j => Z.of_nat n - Z.of_nat j) (seq 0 n)
  = rev (List.map Z.of_nat (seq 1 n)).
Proof.
  assert (H : forall m k,
             List.map (fun j => Z.of_nat (k + m) - Z.of_nat j) (seq k m)
             = rev (List.map Z.of_nat (seq 1 m))).
  { induction m as [| m IH]; intro k; [reflexivity |].
    replace (seq 1 (S m)) with (seq 1 m ++ [S m])
      by (rewrite seq_S; reflexivity).
    rewrite map_app, rev_app_distr.
    change (seq k (S m)) with (k :: seq (S k) m).
    cbn [List.map rev app]. f_equal; [lia |].
    rewrite <- (IH (S k)). apply map_ext. intro j. lia. }
  apply (H n 0%nat).
Qed.

(** X11: the history chart lists the runs of the history oldest first,
    each with the final score of its record, and numbers them downwards:
    with n runs the oldest is "Run n" and the newest is "Run 1". *)
Theorem historyChartData_points (history : list RunRecord) :
  List.map View.final (View.historyChartData history)
  = rev (List.map finalScore history)
  /\ List.map View.runNumber (View.historyChartData history)
     = rev (List.map Z.of_nat (seq 1 (length history))).
Proof.
  unfold View.historyChartData. split.
  - rewrite mapi_from_final, map_rev. reflexivity.
  - rewrite mapi_from_runNumber, length_rev. apply countdown.
Qed.

(** ** The CSV export *)

Lemma readFrom_field (v : jsstring) :
  forall field record records rest,
    Csv.readFrom Csv.InQuotes field record records
      (Csv.doubleQuotes v ++ 34%N :: rest)
    = Csv.readFrom Csv.AfterQuote (rev v ++ field) record records rest.
Proof.
  induction v as [| c v IH]; intros field record records rest.
  - reflexivity.
  - cbn [Csv.doubleQuotes]. destruct (N.eqb_spec c 34) as [-> | Hc].
    + cbn [app Csv.readFrom N.eqb Pos.eqb]. rewrite IH.
      cbn [rev]. rewrite <- app_assoc. reflexivity.
    + cbn [app Csv.readFrom].
      destruct (N.eqb_spec c 34) as [| _]; [contradiction |].
      rewrite IH. cbn [rev]. rewrite <- app_assoc. reflexivity.
Qed.

Lemma join_cons (sep p : jsstring) (l : list jsstring) :
  l <> [] -> Csv.join sep (p :: l) = p ++ sep ++ Csv.join sep l.
Proof. destruct l; [contradiction | reflexivity]. Qed.

(** A record of quoted fields followed by [rest] is read up to [rest],
    where the state is after the closing quotation mark of its last
    field. *)
Lemma readFrom_record (init : list (option jsstring)) (v : option jsstring) :
  forall record records rest,
    Csv.readFrom Csv.FieldStart [] record records
      (Csv.join [44%N] (List.map Csv.escape (init ++ [v])) ++ rest)
    = Csv.readFrom Csv.AfterQuote
        (rev (Csv.cellText v))
        (rev (List.map Csv.cellText init) ++ record)
        records rest.
Proof.
  induction init as [| x init IH]; intros record records rest.
  - cbn [List.map Csv.join Csv.escape app Csv.readFrom N.eqb Pos.eqb].
    rewrite <- app_assoc. cbn [app]. rewrite readFrom_field.
    rewrite app_nil_r. reflexivity.
  - cbn [app List.map].
    rewrite join_cons
      by (rewrite map_app; intro H; apply app_eq_nil in H;
          destruct H; discriminate).
    unfold Csv.escape at 1.
    cbn [app Csv.readFrom N.eqb Pos.eqb].
    rewrite <- !app_assoc. cbn [app]. rewrite readFrom_field.
    cbn [Csv.readFrom N.eqb Pos.eqb]. rewrite IH.
    rewrite app_nil_r, rev_involutive.
    cbn [rev]. rewrite <- app_assoc. reflexivity.
Qed.

Lemma record_cells (init : list (option jsstring)) (v : option jsstring)
    (record : list jsstring) :
  rev (rev (rev (Csv.cellText v))
       :: rev (List.map Csv.cellText init) ++ record)
  = rev record ++ List.map Csv.cellText (init ++ [v]).
Proof.
  cbn [rev]. rewrite rev_involutive, rev_app_distr, rev_involutive.
  rewrite <- app_assoc, map_app. reflexivity.
Qed.

Lemma readFrom_records (rows : list (list (option jsstring))) :
  forall first records,
    (forall r, In r (first :: rows) -> r <> []) ->
    Csv.readFrom Csv.FieldStart [] [] records
      (Csv.join [10%N]
         (List.map (fun r => Csv.join [44%N] (List.map Csv.escape r))
            (first :: rows)))
    = Some (rev records
            ++ List.map (List.map Csv.cellText) (first :: rows)).
Proof.
  induction rows as [| second rows IH]; intros first records Hne.
  - destruct (exists_last (Hne first (or_introl eq_refl)))
      as [init [v ->]].
    cbn [List.map Csv.join].
    rewrite <- (app_nil_r (Csv.join [44%N]
                             (List.map Csv.escape (init ++ [v])))).
    rewrite readFrom_record. cbn [Csv.readFrom].
    rewrite record_cells. cbn [rev app]. reflexivity.
  - destruct (exists_last (Hne first (or_introl eq_refl)))
      as [init [v ->]].
    cbn [List.map].
    rewrite join_cons by discriminate.
    rewrite readFrom_record. cbn [app Csv.readFrom N.eqb Pos.eqb].
    change (Csv.join [44%N] (List.map Csv.escape second)
            :: List.map (fun r => Csv.join [44%N] (List.map Csv.escape r))
                 rows)
      with (List.map (fun r => Csv.join [44%N] (List.map Csv.escape r))
              (second :: rows)).
    rewrite IH by (intros r Hr; apply Hne; right; exact Hr).
    rewrite record_cells. cbn [rev app List.map].
    rewrite <- app_assoc. reflexivity.
Qed.

Lemma splitOn_line (sep : N) (e : jsstring) :
  ~ In sep e -> Csv.splitOn sep e = [e].
Proof.
  induction e as [| c r IH]; cbn [Csv.splitOn]; intro H; [reflexivity |].
  destruct (N.eqb_spec c sep) as [-> | Hc]; [exfalso; apply H; left; auto |].
  rewrite IH by (intro Hr; apply H; right; exact Hr). reflexivity.
Qed.

Lemma splitOn_app (sep : N) (e rest : jsstring) :
  ~ In sep e ->
  Csv.splitOn sep (e ++ sep :: rest) = e :: Csv.splitOn sep rest.
Proof.
  induction e as [| c r IH]; cbn [Csv.splitOn app]; intro H.
  - rewrite N.eqb_refl. reflexivity.
  - destruct (N.eqb_spec c sep) as [-> | Hc];
      [exfalso; apply H; left; auto |].
    rewrite IH by (intro Hr; apply H; right; exact Hr). reflexivity.
Qed.

Lemma splitOn_join (sep : N) (l : list jsstring) :
  l <> [] -> (forall e, In e l -> ~ In sep e) ->
  Csv.splitOn sep (Csv.join [sep] l) = l.
Proof.
  induction l as [| e l IH]; [contradiction |]. intros _ H.
  destruct l as [| e' l].
  - cbn [Csv.join]. apply splitOn_line, H. left. reflexivity.
  - change (Csv.join [sep] (e :: e' :: l))
      with (e ++ sep :: Csv.join [sep] (e' :: l)).
    rewrite splitOn_app by (apply H; left; reflexivity).
    rewrite IH; [reflexivity | discriminate |].
    intros x Hx. apply H. right. exact Hx.
Qed.

Lemma firstLine_app (line rest : jsstring) :
  ~ In 10%N line ->
  Csv.firstLine (line ++ 10%N :: rest) = (line, Some rest).
Proof.
  induction line as [| c r IH]; cbn [Csv.firstLine app]; intro H.
  - reflexivity.
  - destruct (N.eqb_spec c 10) as [-> | Hc];
      [exfalso; apply H; left; auto |].
    rewrite IH by (intro Hr; apply H; right; exact Hr). reflexivity.
Qed.

Lemma join_no_newline (l : list jsstring) :
  (forall e, In e l -> ~ In 10%N e) -> ~ In 10%N (Csv.join [44%N] l).
Proof.
  induction l as [| e l IH]; intros H Hin; [contradiction |].
  destruct l as [| e' l].
  - cbn [Csv.join] in Hin. apply (H e); auto. left. reflexivity.
  - change (Csv.join [44%N] (e :: e' :: l))
      with (e ++ [44%N] ++ Csv.join [44%N] (e' :: l)) in Hin.
    apply in_app_iff in Hin. destruct Hin as [Hin | Hin].
    + apply (H e); auto. left. reflexivity.
    + cbn [app] in Hin. destruct Hin as [Hin | Hin]; [discriminate |].
      apply IH; [| exact Hin]. intros x Hx. apply H. right. exact Hx.
Qed.

Section ToCsv.

Variable inherited : jsstring -> option jsstring.

Lemma readCSV_toCSV (first : Csv.Row) (rows : list Csv.Row) :
  List.map fst first <> [] ->
  (forall k, In k (List.map fst first) -> ~ In 44%N k /\ ~ In 10%N k) ->
  Csv.readCSV (Csv.toCSV inherited (first :: rows))
  = Some (List.map fst first,
          List.map
            (fun r => List.map (fun h => Csv.cellText (Csv.get inherited r h))
                        (List.map fst first))
            (first :: rows)).
Proof.
  intros Hne Hkeys.
  set (headers := List.map fst first) in *.
  unfold Csv.toCSV. fold headers. cbv zeta.
  set (line := fun r : Csv.Row =>
                 Csv.join [44%N]
                   (List.map (fun h => Csv.escape (Csv.get inherited r h)) headers)).
  change (Csv.join [10%N]
            (Csv.join [44%N] headers :: List.map line (first :: rows)))
    with (Csv.join [44%N] headers
          ++ 10%N :: Csv.join [10%N] (List.map line (first :: rows))).
  unfold Csv.readCSV.
  rewrite firstLine_app
    by (apply join_no_newline; intros e He; apply Hkeys, He).
  assert (Hbody :
            Csv.join [10%N] (List.map line (first :: rows))
            = Csv.join [10%N]
                (List.map
                   (fun r => Csv.join [44%N] (List.map Csv.escape r))
                   (List.map (fun r => List.map (Csv.get inherited r) headers)
                      (first :: rows)))).
  { rewrite map_map. f_equal. apply map_ext. intro r. unfold line.
    rewrite map_map. reflexivity. }
  rewrite Hbody. clear Hbody.
  set (cells := fun r : Csv.Row => List.map (Csv.get inherited r) headers).
  change (List.map cells (first :: rows))
    with (cells first :: List.map cells rows).
  rewrite readFrom_records.
  - rewrite splitOn_join;
      [| exact Hne | intros e He; apply Hkeys, He].
    cbn [rev app]. do 2 f_equal.
    change (cells first :: List.map cells rows)
      with (List.map cells (first :: rows)).
    rewrite map_map. apply map_ext. intro r. unfold cells.
    rewrite map_map. reflexivity.
  - intros r Hr Hnil.
    assert (Hlen : length r = length headers).
    { destruct Hr as [<- | Hr]; [apply length_map |].
      apply in_map_iff in Hr. destruct Hr as [x [<- _]]. apply length_map. }
    rewrite Hnil in Hlen. destruct headers; [contradiction | discriminate].
Qed.

(** X12: [toCSV] of no rows is the empty text; of rows whose first has at
    least one key, with no comma or line break in a key, it is a text that
    reads back as the keys of the first row and, for every row, the texts
    of what the row holds under these keys: the text of its own value, the
    empty text when that value is [null] or [undefined], and for a key the
    row does not have the text of the member that [Object.prototype] has
    under that name, the empty text when it has none; whatever quotation
    marks, commas and line breaks the values hold. *)
Theorem toCSV_reads_back (first : Csv.Row) (rows : list Csv.Row) :
  List.map fst first <> [] ->
  (forall k, In k (List.map fst first) -> ~ In 44%N k /\ ~ In 10%N k) ->
  Csv.toCSV inherited [] = []
  /\ Csv.readCSV (Csv.toCSV inherited (first :: rows))
     = Some (List.map fst first,
             List.map
               (fun r => List.map
                           (fun h => Csv.cellText (Csv.get inherited r h))
                           (List.map fst first))
               (first :: rows))
  /\ (forall r h v, In (h, v) r -> NoDup (List.map fst r) ->
        Csv.get inherited r h = v)
  /\ (forall r h, ~ In h (List.map fst r) ->
        Csv.get inherited r h = inherited h).
Proof.
  intros Hne Hkeys. split; [reflexivity |].
  split; [apply readCSV_toCSV; assumption |]. split.
  - intros r h v. induction r as [| [k w] r IH]; [contradiction |].
    intros [Hin | Hin] Hnd; cbn [Csv.get].
    + injection Hin as -> ->.
      destruct (jsstring_eqb h h) eqn:E; [reflexivity |].
      assert (Hh : jsstring_eqb h h = true) by (apply jsstring_eqb_eq; reflexivity).
      congruence.
    + cbn [List.map fst] in Hnd. inversion Hnd as [| ? ? Hk Hnd']. subst.
      destruct (jsstring_eqb k h) eqn:E.
      * apply jsstring_eqb_eq in E. subst k. exfalso. apply Hk.
        apply in_map_iff. exists (h, v). split; [reflexivity | exact Hin].
      * apply IH; assumption.
  - intros r h. induction r as [| [k w] r IH]; intro Hh; [reflexivity |].
    cbn [Csv.get]. destruct (jsstring_eqb k h) eqn:E.
    + apply jsstring_eqb_eq in E. subst k. exfalso. apply Hh. left.
      reflexivity.
    + apply IH. intro Hin. apply Hh. right. exact Hin.
Qed.

End ToCsv.

Lemma toCSV_reads_back_witness :
  Csv.readCSV
    (Csv.toCSV nativePrototype
       [[(lit "site", Some [104; 34; 44; 10; 105]%N); (lit "score", None);
         (lit "toString", Some (lit "x"))];
        [(lit "score", Some (lit "7"))]])
  = Some ([lit "site"; lit "score"; lit "toString"],
          [[[104; 34; 44; 10; 105]%N; []; lit "x"];
           [[]; lit "7"; lit "function toString() { [native code] }"]]).
Proof.
  refine (proj1 (proj2 (toCSV_reads_back nativePrototype
                   [(lit "site", Some [104; 34; 44; 10; 105]%N);
                    (lit "score", None); (lit "toString", Some (lit "x"))]
                   [[(lit "score", Some (lit "7"))]] _ _))).
  - discriminate.
  - intros k [<- | [<- | [<- | []]]]; split; cbv; intuition discriminate.
Defined.

Section ExportProperties.

Variable toFixed : Q -> nat -> jsstring.
Variable numberText : Z -> jsstring.
Variable localeText : LocaleString -> jsstring.
Variable inherited : jsstring -> option jsstring.

Lemma columns_plain (columns : list jsstring) :
  columns = Exports.currentRunColumns \/ columns = Exports.historyColumns ->
  forall k, In k columns -> ~ In 44%N k /\ ~ In 10%N k.
Proof.
  intros [-> | ->] k Hk; cbv in Hk;
    repeat (destruct Hk as [<- | Hk];
            [split; cbv; intuition discriminate |]);
    contradiction.
Qed.

(** X13: the CSV export of the current run is empty while no result is
    in; otherwise it reads back as the columns site, cpuTime, memoryUsage,
    networkLatency, loadTime and score, with one record for each result,
    in the order of the indices: its site, its four metrics to two
    decimals and its score. *)
Theorem currentRun_export (s : State) :
  (results s = [] ->
   Csv.toCSV inherited (Exports.currentRunCSVRows toFixed numberText s) = [])
  /\ (results s <> [] ->
      Csv.readCSV (Csv.toCSV inherited (Exports.currentRunCSVRows toFixed numberText s))
      = Some (Exports.currentRunColumns,
              List.map (Exports.currentRunCells toFixed numberText)
                (sort_by_index (results s)))).
Proof.
  unfold Exports.currentRunCSVRows, View.resultsWithScore. split.
  - intros ->. reflexivity.
  - intro Hne.
    destruct (sort_by_index (results s)) as [| x l] eqn:E.
    { exfalso. apply Hne.
      apply Permutation_nil. rewrite <- E. apply sort_by_index_perm. }
    cbn [List.map]. rewrite (readCSV_toCSV inherited).
    + f_equal. f_equal.
      change (Exports.currentRunRow toFixed numberText
                {| View.row := x; View.score := scoreOne x |}
              :: List.map (Exports.currentRunRow toFixed numberText)
                   (List.map (fun r => {| View.row := r;
                                          View.score := scoreOne r |}) l))
        with (List.map (Exports.currentRunRow toFixed numberText)
                (List.map (fun r => {| View.row := r;
                                       View.score := scoreOne r |})
                   (x :: l))).
      rewrite !map_map.
      change (Exports.currentRunCells toFixed numberText x
              :: List.map (Exports.currentRunCells toFixed numberText) l)
        with (List.map (Exports.currentRunCells toFixed numberText) (x :: l)).
      apply map_ext. intro r. reflexivity.
    + discriminate.
    + apply columns_plain. left. reflexivity.
Qed.

Lemma historyRow_columns (run : RunRecord) (r : Data) :
  List.map fst (Exports.historyRow toFixed numberText localeText run r)
  = Exports.historyColumns.
Proof. reflexivity. Qed.

Lemma historyRow_cells (run : RunRecord) (r : Data) :
  List.map
    (fun h => Csv.cellText
                (Csv.get inherited (Exports.historyRow toFixed numberText localeText
                            run r) h))
    Exports.historyColumns
  = Exports.historyCells toFixed numberText localeText run r.
Proof.
  unfold Exports.historyRow. rewrite Math_round_inject_Z. reflexivity.
Qed.

Lemma map_flat_map {A B C} (f : B -> C) (g : A -> list B) (l : list A) :
  List.map f (flat_map g l) = flat_map (fun x => List.map f (g x)) l.
Proof.
  induction l as [| x l IH]; [reflexivity |].
  cbn [flat_map]. rewrite map_app, IH. reflexivity.
Qed.

(** X14: the CSV export of the history is empty when the history holds no
    result; otherwise it reads back as the ten columns runId, runAt,
    computer, finalScore, site, cpuTime, memoryUsage, networkLatency,
    loadTime and siteScore, with one record for each result of each run,
    run after run in the order of the history: the id, date, computer and
    final score of the run, then the site, the four metrics to two
    decimals and the score of the result. *)
Theorem history_export (history : list RunRecord) :
  let rows := Exports.historyCSVRows toFixed numberText localeText history in
  (rows = [] -> Csv.toCSV inherited rows = [])
  /\ (rows <> [] ->
      Csv.readCSV (Csv.toCSV inherited rows)
      = Some (Exports.historyColumns,
              flat_map
                (fun run =>
                   List.map
                     (Exports.historyCells toFixed numberText localeText run)
                     (rec_results run))
                history)).
Proof.
  cbv zeta. split; [intros ->; reflexivity |].
  intro Hne.
  assert (Hshape : forall row,
             In row (Exports.historyCSVRows toFixed numberText localeText
                       history) ->
             exists run r,
               row = Exports.historyRow toFixed numberText localeText run r).
  { intros row Hrow. unfold Exports.historyCSVRows in Hrow.
    apply in_flat_map in Hrow. destruct Hrow as [run [_ Hrow]].
    apply in_map_iff in Hrow. destruct Hrow as [r [<- _]].
    exists run, r. reflexivity. }
  assert (Hcells :
            List.map
              (fun row => List.map (fun h => Csv.cellText (Csv.get inherited row h))
                            Exports.historyColumns)
              (Exports.historyCSVRows toFixed numberText localeText history)
            = flat_map
                (fun run =>
                   List.map
                     (Exports.historyCells toFixed numberText localeText run)
                     (rec_results run))
                history).
  { unfold Exports.historyCSVRows. rewrite map_flat_map.
    apply flat_map_ext. intro run. rewrite map_map.
    apply map_ext. intro r. apply historyRow_cells. }
  destruct (Exports.historyCSVRows toFixed numberText localeText history)
    as [| first rows] eqn:E; [contradiction |].
  destruct (Hshape first (or_introl eq_refl)) as (run & r & Hfirst).
  assert (Hcols : List.map fst first = Exports.historyColumns)
    by (rewrite Hfirst; apply historyRow_columns).
  rewrite (readCSV_toCSV inherited), Hcols, Hcells.
  - reflexivity.
  - rewrite Hcols. discriminate.
  - rewrite Hcols. apply columns_plain. right. reflexivity.
Qed.

End ExportProperties.

Lemma currentRun_export_witness :
  Csv.readCSV
    (Csv.toCSV nativePrototype
       (Exports.currentRunCSVRows plainFixed plainNumber
          (fst (run runOfThree (deliveries shuffledDeliveries)))))
  = Some (Exports.currentRunColumns,
          List.map (Exports.currentRunCells plainFixed plainNumber)
            threeResults).
Proof.
  refine (proj2 (currentRun_export plainFixed plainNumber nativePrototype
                   (fst (run runOfThree (deliveries shuffledDeliveries))))
            _).
  discriminate.
Defined.

Lemma history_export_witness :
  Csv.readCSV
    (Csv.toCSV nativePrototype
       (Exports.historyCSVRows plainFixed plainNumber plainDate
          (history (fst (run oneSite sixRuns)))))
  = Some (Exports.historyColumns,
          flat_map
            (fun run =>
               List.map
                 (Exports.historyCells plainFixed plainNumber plainDate run)
                 (rec_results run))
            (history (fst (run oneSite sixRuns)))).
Proof.
  refine (proj2 (history_export plainFixed plainNumber plainDate nativePrototype
                   (history (fst (run oneSite sixRuns)))) _).
  vm_compute. discriminate.
Defined.

(** ** Loading and storing the site list *)

Section SiteListPersistence.

Import Persistence.

Variable JSON_parse : jsstring -> exn + json.
Variable stringify_sites : list jsstring -> jsstring.
Variable ToString : json -> exn + jsstring.

(** The text [join] gives an element of the stored array, when its
    conversion does not throw. *)
Let elementText (x : json) : jsstring :=
  match x with
  | JNull => []
  | _ => match ToString x with
         | inr text => text
         | inl _ => []
         end
  end.

(** [x] is [null] or has a text. *)
Let converts (x : json) : Prop :=
  x = JNull \/ exists text, ToString x = inr text.

(** The conversion of [x] throws. *)
Let throws (x : json) : Prop :=
  x <> JNull /\ exists e, ToString x = inl e.

Lemma elementTexts_converts (items : list json) :
  Forall converts items ->
  elementTexts ToString items = inr (List.map elementText items).
Proof.
  induction 1 as [| x items Hx _ IH]; [reflexivity |].
  cbn [elementTexts List.map]. rewrite IH. unfold elementText.
  destruct Hx as [-> | [text Hx]]; [reflexivity |].
  rewrite Hx. destruct x; reflexivity.
Qed.

Lemma elementTexts_throws (items : list json) :
  Exists throws items -> exists e, elementTexts ToString items = inl e.
Proof.
  induction 1 as [x items [Hx [e He]] | x items _ [e IH]];
    cbn [elementTexts].
  - exists e. rewrite He. destruct x; [contradiction | | | | |];
      reflexivity.
  - rewrite IH.
    destruct (match x with JNull => inr [] | _ => ToString x end)
      as [e' | text]; [exists e' | exists e]; reflexivity.
Qed.

Section OneStorage.

Variable localStorage : Storage.

Let historyPart : Js unit :=
  bind (lift (getItem localStorage benchmark_history_v1)) (fun savedHist =>
    match present savedHist with
    | Some text => bind (lift (JSON_parse text)) (fun v => call (SetHistory v))
    | None => ret tt
    end).

Let sitesPart : Js unit :=
  bind (lift (getItem localStorage benchmark_sites_v1)) (fun savedSites =>
    match present savedSites with
    | Some text =>
        bind (lift (JSON_parse text)) (fun v =>
          bind (join ToString v) (fun joined => call (SetSiteText joined)))
    | None => ret tt
    end).

Lemma bind_assoc {A B C} (m : Js A) (f : A -> Js B) (g : B -> Js C) :
  bind (bind m f) g = bind m (fun x => bind (f x) g).
Proof.
  destruct m as [log [e | a]]; [reflexivity |]. unfold bind.
  destruct (f a) as [log1 [e | b]]; [reflexivity |].
  destruct (g b) as [log2 r]. rewrite app_assoc. reflexivity.
Qed.

Lemma loadPersisted_parts :
  loadPersisted JSON_parse ToString localStorage
  = try_catch (bind historyPart (fun _ => sitesPart)) (fun _ => ret tt).
Proof. unfold historyPart. rewrite bind_assoc. reflexivity. Qed.

(** The history part ends without a throw: the key is absent or holds the
    empty text, or [JSON.parse] accepts what it holds. *)
Definition historyReadable : Prop :=
  exists saved,
    getItem localStorage benchmark_history_v1 = inr saved
    /\ match present saved with
       | None => True
       | Some text => exists v, JSON_parse text = inr v
       end.

Lemma historyPart_readable :
  historyReadable ->
  snd historyPart = inr tt /\ forall t, siteTextAfter t (fst historyPart) = t.
Proof.
  intros (saved & Hget & Hsaved). unfold historyPart, bind, lift, ret, call.
  rewrite Hget. destruct (present saved) as [text |].
  - destruct Hsaved as [v ->]. split; reflexivity.
  - split; reflexivity.
Qed.

Lemma sitesPart_calls (blob : jsstring) (v : json) :
  getItem localStorage benchmark_sites_v1 = inr (Some blob) ->
  truthy blob = true ->
  JSON_parse blob = inr v ->
  fst sitesPart
  = match v with
    | JArray items =>
        match elementTexts ToString items with
        | inr texts => [SetSiteText (join_newline texts)]
        | inl _ => []
        end
    | _ => []
    end.
Proof.
  intros Hget Ht Hparse. unfold sitesPart, bind, lift, ret, call, join, throw.
  rewrite Hget. unfold present. rewrite Ht, Hparse.
  destruct v; try reflexivity.
  destruct (elementTexts ToString items); reflexivity.
Qed.

Lemma siteTextAfter_app (log1 log2 : list Call) (t : jsstring) :
  siteTextAfter t (log1 ++ log2) = siteTextAfter (siteTextAfter t log1) log2.
Proof.
  revert t. induction log1 as [| c log1 IH]; intro t; [reflexivity |].
  destruct c; cbn [app siteTextAfter]; apply IH.
Qed.

Lemma sites_load (blob : jsstring) (v : json) (current : jsstring) :
  historyReadable ->
  getItem localStorage benchmark_sites_v1 = inr (Some blob) ->
  truthy blob = true ->
  JSON_parse blob = inr v ->
  siteTextAfter current
    (fst (loadPersisted JSON_parse ToString localStorage))
  = match v with
    | JArray items =>
        match elementTexts ToString items with
        | inr texts => join_newline texts
        | inl _ => current
        end
    | _ => current
    end.
Proof.
  intros Hhist Hget Ht Hparse.
  rewrite loadPersisted_parts.
  destruct (historyPart_readable Hhist) as [Hok Hkeep].
  pose proof (sitesPart_calls blob v Hget Ht Hparse) as Hcalls.
  unfold try_catch, bind.
  destruct historyPart as [log1 [e | []]]; [discriminate Hok |].
  cbn [fst snd] in Hkeep.
  destruct sitesPart as [log2 [e | []]]; cbn [fst] in Hcalls; subst log2;
    unfold ret; cbn [fst]; rewrite ?app_nil_r;
    rewrite siteTextAfter_app, Hkeep; destruct v; try reflexivity;
    destruct (elementTexts ToString items); reflexivity.
Qed.

(** X15: when the history is read without a throw and the stored site
    list is JSON, the load effect ends without an exception.  A stored
    array whose elements all have a text sets the site text to these texts
    joined by line breaks, [null] elements as empty lines; a stored array
    with an element whose conversion throws, and a stored value that is
    not an array, leave the site text as it is. *)
Theorem sites_load_by_shape (blob : jsstring) (v : json) (current : jsstring) :
  historyReadable ->
  getItem localStorage benchmark_sites_v1 = inr (Some blob) ->
  truthy blob = true ->
  JSON_parse blob = inr v ->
  snd (loadPersisted JSON_parse ToString localStorage) = inr tt
  /\ (forall items, v = JArray items -> Forall converts items ->
        siteTextAfter current
          (fst (loadPersisted JSON_parse ToString localStorage))
        = join_newline (List.map elementText items))
  /\ (forall items, v = JArray items -> Exists throws items ->
        siteTextAfter current
          (fst (loadPersisted JSON_parse ToString localStorage))
        = current)
  /\ ((forall items, v <> JArray items) ->
      siteTextAfter current
        (fst (loadPersisted JSON_parse ToString localStorage))
      = current).
Proof.
  intros Hhist Hget Ht Hparse.
  pose proof (sites_load blob v current Hhist Hget Ht Hparse) as Hload.
  split; [apply try_catch_returns |]. split; [| split].
  - intros items -> Hall. rewrite Hload, (elementTexts_converts items Hall).
    reflexivity.
  - intros items -> Hsome. rewrite Hload.
    destruct (elementTexts_throws items Hsome) as [e ->]. reflexivity.
  - intro Hna. rewrite Hload. destruct v; try reflexivity.
    exfalso. apply (Hna items). reflexivity.
Qed.

(** X16: when the read of the history throws, or [JSON.parse] rejects the
    stored history, the load effect makes no call at all: the stored site
    list is not read, whatever it is. *)
Theorem history_throw_skips_sites :
  (exists e, getItem localStorage benchmark_history_v1 = inl e)
  \/ (exists blob e,
         getItem localStorage benchmark_history_v1 = inr (Some blob)
         /\ truthy blob = true /\ JSON_parse blob = inl e) ->
  loadPersisted JSON_parse ToString localStorage = ([], inr tt).
Proof.
  intro H. rewrite loadPersisted_parts.
  assert (Hpart : exists e, historyPart = ([], inl e)).
  { unfold historyPart, bind, lift.
    destruct H as [[e ->] | (blob & e & -> & Ht & Hp)].
    - exists e. reflexivity.
    - exists e. unfold present. rewrite Ht, Hp. reflexivity. }
  destruct Hpart as [e ->]. reflexivity.
Qed.

End OneStorage.

(** X17: in a storage that keeps what is written, with a history that can
    be read, and with a [JSON.parse] that reads the stored site list back
    as the array of its strings, a pool that was persisted is the pool
    again after the load effect: the site text becomes its lines and
    parses to the same sites. *)
Theorem persisted_sites_reload (entries : Entries) (s t : State) :
  JSON_parse (stringify_sites (sites s))
  = inr (JArray (List.map JString (sites s))) ->
  (forall text, ToString (JString text) = inr text) ->
  truthy (stringify_sites (sites s)) = true ->
  historyReadable (memoryStorage entries) ->
  let stored :=
    written (fst (persistSites stringify_sites (memoryStorage entries)
                    (sites s))) entries in
  let loaded :=
    siteTextAfter (siteText t)
      (fst (loadPersisted JSON_parse ToString (memoryStorage stored))) in
  loaded = join_newline (sites s)
  /\ sites (fst (step t (ChangeSiteText loaded))) = sites s.
Proof.
  intros Hparse Hstr Htruthy Hhist. cbv zeta.
  assert (Hstored :
            written (fst (persistSites stringify_sites (memoryStorage entries)
                            (sites s))) entries
            = (benchmark_sites_v1, stringify_sites (sites s)) :: entries)
    by reflexivity.
  rewrite Hstored.
  assert (Hhist' : historyReadable
                     (memoryStorage
                        ((benchmark_sites_v1, stringify_sites (sites s))
                         :: entries))).
  { destruct Hhist as (saved & Hget & Hsaved). exists saved. split; auto. }
  assert (Hget : getItem
                   (memoryStorage
                      ((benchmark_sites_v1, stringify_sites (sites s))
                       :: entries)) benchmark_sites_v1
                 = inr (Some (stringify_sites (sites s))))
    by reflexivity.
  pose proof (sites_load _ _ _ (siteText t) Hhist' Hget Htruthy Hparse)
    as Hload.
  assert (Hlines : forall l,
             elementTexts ToString (List.map JString l) = inr l).
  { induction l as [| x l IH]; [reflexivity |].
    cbn [List.map elementTexts]. rewrite Hstr, IH. reflexivity. }
  cbv beta iota in Hload. rewrite Hlines in Hload. rewrite Hload.
  split; [reflexivity |].
  apply sites_of_joined_lines.
Qed.

End SiteListPersistence.

Lemma sites_load_by_shape_witness :
  let storage := memoryStorage [(Persistence.benchmark_sites_v1, objectBlob)] in
  snd (Persistence.loadPersisted parseSites stringText storage) = inr tt
  /\ siteTextAfter (lit "a.example")
       (fst (Persistence.loadPersisted parseSites stringText storage))
     = lit "a.example".
Proof.
  cbv zeta.
  destruct (sites_load_by_shape parseSites stringText
              (memoryStorage [(Persistence.benchmark_sites_v1, objectBlob)])
              objectBlob
              (Persistence.JArray
                 [Persistence.JObject
                    [(lit "toString", Persistence.JNumber 1)]])
              (lit "a.example"))
    as (Hret & _ & Hthrows & _).
  - exists None. split; [reflexivity | exact I].
  - reflexivity.
  - reflexivity.
  - reflexivity.
  - split; [exact Hret |].
    apply (Hthrows [Persistence.JObject
                      [(lit "toString", Persistence.JNumber 1)]]);
      [reflexivity |].
    constructor. split; [discriminate |].
    exists Persistence.TypeError. reflexivity.
Defined.

Lemma history_throw_skips_sites_witness :
  Persistence.loadPersisted parseSites stringText
    (memoryStorage [(Persistence.benchmark_history_v1, lit "oops");
                    (Persistence.benchmark_sites_v1, lit "sites")])
  = ([], inr tt).
Proof.
  apply history_throw_skips_sites. right.
  exists (lit "oops"), Persistence.SyntaxError.
  repeat split; reflexivity.
Defined.

Lemma persisted_sites_reload_witness :
  let s := fst (step initialState (ChangeSiteText (lit "a
b"))) in
  let stored :=
    written (fst (Persistence.persistSites sitesAsText (memoryStorage [])
                    (sites s))) [] in
  let loaded :=
    siteTextAfter (siteText initialState)
      (fst (Persistence.loadPersisted parseSites stringText
              (memoryStorage stored))) in
  loaded = join_newline (sites s)
  /\ sites (fst (step initialState (ChangeSiteText loaded))) = sites s.
Proof.
  apply (persisted_sites_reload parseSites sitesAsText stringText []).
  - reflexivity.
  - reflexivity.
  - reflexivity.
  - exists None. split; [reflexivity | exact I].
Defined.

(** ** The resolver probe *)

(** X18: the probe recommends Cloudflare exactly when its request took
    less time than the one to Google, a tie going to Google; and the
    rounded time shown for the recommended resolver is never above the
    one shown for the other. *)
Theorem dnsProbe_recommendation (cloudflare google : Q) :
  let probe := runDnsProbe cloudflare google in
  (recommended probe = Cloudflare <-> (cloudflare < google)%Q)
  /\ (recommended probe = Google <-> (google <= cloudflare)%Q)
  /\ (recommended probe = Cloudflare -> cloudflareMs probe <= googleMs probe)
  /\ (recommended probe = Google -> googleMs probe <= cloudflareMs probe).
Proof.
  cbv zeta. unfold runDnsProbe. cbn [recommended cloudflareMs googleMs].
  destruct (gt google cloudflare) eqn:E.
  - apply gt_iff in E. repeat split; intros; try discriminate; try lra.
    apply Math_round_mono. lra.
  - assert (Hle : (google <= cloudflare)%Q).
    { apply Qnot_lt_le. intro H. apply gt_iff in H. congruence. }
    repeat split; intros; try discriminate; try lra.
    apply Math_round_mono. exact Hle.
Qed.

(** ** The listener of App.jsx beside the one of oldApp.jsx *)










(** ** The selection of App.jsx *)

(** X20: with a computer name, a click in App.jsx opens exactly five
    popups, for five different sites of its fixed pool, the first five of
    the shuffled pool in order, and the run it starts expects five
    results under the id of the click. *)
Theorem AppJsx_selects_five
    (now : Z) (shuffle : list jsstring -> list jsstring) (s : AppJsx.State) :
  truthy (trim (AppJsx.computerName s)) = true ->
  Permutation (shuffle AppJsx.sites) AppJsx.sites ->
  let targets :=
    List.map (fun p => fst (fst p))
      (popups (snd (AppJsx.runBenchmark now shuffle s))) in
  targets = firstn 5 (shuffle AppJsx.sites)
  /\ length targets = 5%nat
  /\ NoDup targets
  /\ incl targets AppJsx.sites
  /\ List.map (fun p => (snd (fst p), snd p))
       (popups (snd (AppJsx.runBenchmark now shuffle s)))
     = List.map (fun i => (now, i)) (seq 0 5)
  /\ AppJsx.expectedCount (fst (AppJsx.runBenchmark now shuffle s)) = 5%nat
  /\ AppJsx.runId (fst (AppJsx.runBenchmark now shuffle s)) = Some now
  /\ AppJsx.results (fst (AppJsx.runBenchmark now shuffle s)) = [].
Proof.
  intros Hname Hperm. cbv zeta.
  destruct (AppJsx_runBenchmark_selection now shuffle s Hname Hperm)
    as (Htargets & Hlen & Hnd & Hcount & Hrun).
  repeat split; try assumption.
  - rewrite Htargets. intros x Hx.
    apply (Permutation_in _ Hperm). eapply In_firstn, Hx.
  - unfold AppJsx.runBenchmark. rewrite Hname. cbn [negb snd].
    rewrite popups_openPopups.
    assert (Hfive : length (firstn 5 (shuffle AppJsx.sites)) = 5%nat)
      by (rewrite length_firstn, (Permutation_length Hperm); reflexivity).
    destruct (firstn 5 (shuffle AppJsx.sites))
      as [| a [| b [| c [| d [| e [| f l]]]]]]; try discriminate Hfive.
    reflexivity.
  - unfold AppJsx.runBenchmark. rewrite Hname. reflexivity.
Qed.

Lemma AppJsx_selects_five_witness :
  let s := asAppJsx oneSite in
  let targets :=
    List.map (fun p => fst (fst p))
      (popups (snd (AppJsx.runBenchmark 7 (@rev jsstring) s))) in
  targets = firstn 5 (rev AppJsx.sites)
  /\ length targets = 5%nat
  /\ NoDup targets
  /\ incl targets AppJsx.sites
  /\ List.map (fun p => (snd (fst p), snd p))
       (popups (snd (AppJsx.runBenchmark 7 (@rev jsstring) s)))
     = List.map (fun i => (7, i)) (seq 0 5)
  /\ AppJsx.expectedCount (fst (AppJsx.runBenchmark 7 (@rev jsstring) s))
     = 5%nat
  /\ AppJsx.runId (fst (AppJsx.runBenchmark 7 (@rev jsstring) s)) = Some 7
  /\ AppJsx.results (fst (AppJsx.runBenchmark 7 (@rev jsstring) s)) = [].
Proof.
  apply (AppJsx_selects_five 7 (@rev jsstring) (asAppJsx oneSite)).
  - reflexivity.
  - apply Permutation_sym, Permutation_rev.
Defined.

(** ** The dashboard *)

Lemma percent_range (drawn : Q) :
  Binary64.representable drawn -> (0 <= drawn)%Q -> (drawn < 1)%Q ->
  0 <= Dashboard.percent drawn <= 99.
Proof.
  intros Hr Hlo Hhi. unfold Dashboard.percent, Binary64.mul.
  pose proof (representable_below_one drawn Hr Hlo Hhi) as Hmax.
  assert (H0 : (0 <= Binary64.round (drawn * 100))%Q).
  { rewrite <- round_zero. apply round_mono. lra. }
  assert (H100 : (Binary64.round (drawn * 100) < 100)%Q).
  { apply Qle_lt_trans
      with (Binary64.round ((1 - Binary64.pow2 (-53)) * 100)).
    - apply round_mono. apply Qmult_le_compat_r; [exact Hmax | discriminate].
    - vm_compute. reflexivity. }
  pose proof (Qfloor_le (Binary64.round (drawn * 100))) as Hfloor.
  split.
  - change 0 with (Qfloor (inject_Z 0)) at 1. apply Qfloor_resp_le.
    exact H0.
  - assert (H : (inject_Z (Qfloor (Binary64.round (drawn * 100)))
                 < inject_Z 100)%Q)
      by (change (inject_Z 100) with 100%Q; lra).
    rewrite <- Zlt_Qlt in H. lia.
Qed.

(** The product is the binary64 one: the double nearest to 0.29 times 100
    is below 29, and the double nearest to 0.35 times 100 is 35, where the
    exact products of the two doubles have the floors 28 and 34. *)
Example percent_of_doubles :
  Dashboard.percent (Binary64.literal 0.29) = 28
  /\ Dashboard.percent (Binary64.literal 0.35) = 35
  /\ Qfloor (Binary64.literal 0.35 * 100) = 34.
Proof. repeat split; vm_compute; reflexivity. Qed.

(** X21: whatever doubles [Math.random] draws in its range, from 0 up to
    but not including 1, the dashboard data is ten points named T1 to T10
    in order, each with a CPU value and a memory value that are integers
    from 0 to 99. *)
Theorem generateData_points (random : nat -> Q) :
  (forall k, Binary64.representable (random k)
             /\ (0 <= random k)%Q /\ (random k < 1)%Q) ->
  let data := Dashboard.generateData random in
  length data = 10%nat
  /\ List.map Dashboard.name data
     = List.map lit ["T1"; "T2"; "T3"; "T4"; "T5"; "T6"; "T7"; "T8"; "T9";
                     "T10"]%string
  /\ Forall (fun p => 0 <= Dashboard.CPU p <= 99
                      /\ 0 <= Dashboard.Memory p <= 99) data.
Proof.
  intro Hrange. cbv zeta. unfold Dashboard.generateData.
  split; [rewrite length_map, length_seq; reflexivity |].
  split; [reflexivity |].
  apply Forall_forall. intros p Hp. apply in_map_iff in Hp.
  destruct Hp as [i [<- _]]. cbn [Dashboard.CPU Dashboard.Memory].
  split; apply percent_range; apply Hrange.
Qed.

Lemma generateData_points_witness :
  let random := fun k : nat => if Nat.even k then (1 # 4)%Q else (3 # 4)%Q in
  let data := Dashboard.generateData random in
  length data = 10%nat
  /\ List.map Dashboard.name data
     = List.map lit ["T1"; "T2"; "T3"; "T4"; "T5"; "T6"; "T7"; "T8"; "T9";
                     "T10"]%string
  /\ Forall (fun p => 0 <= Dashboard.CPU p <= 99
                      /\ 0 <= Dashboard.Memory p <= 99) data.
Proof.
  apply (generateData_points
           (fun k : nat => if Nat.even k then (1 # 4)%Q else (3 # 4)%Q)).
  intro k. unfold Binary64.representable.
  destruct (Nat.even k); repeat split; try discriminate;
    vm_compute; reflexivity.
Defined.
